(** * golang-tftp: the packet codec and the read-request transfer loop

    A shallow embedding of [pkg/tftp/packet.go] (the five wire messages and
    their encoders and decoders) and of the server's [handleRequest] /
    [serveReadRequest] (request validation, path containment, the
    send / await-ack / retry loop), followed by the properties the
    specification states about them.

    Conventions.
    - A Go [string] and a Go [[]byte] are both [list byte]; the conversions
      [string(b)] and [copy(dst, s)] are the identity on that type.
    - A [uint16] or an [int] is a [Z]; the 16-bit wrap-around is written out
      ([wrap16]) where the source relies on it ([block++]).
    - A Go function returning [(T, error)] returns [result T]; a function that
      may [panic] returns [go T].
    - The network and the file system are explicit: a run of the transfer is a
      function of the list of I/O outcomes the goroutine observes, and it
      returns the list of actions it performed together with how it ended. *)

From Stdlib Require Import List ZArith Lia Bool Arith.
From Stdlib Require Import Strings.Byte.
From Stdlib Require Strings.String.
From Stdlib Require DecimalString DecimalN DecimalPos.
Import ListNotations.
Import String.StringSyntax.

Local Open Scope string_scope.
Local Open Scope Z_scope.

(** ** Bytes, strings and 16-bit integers *)

Definition bytes := list byte.

(** A Go string literal. *)
Definition lit (s : String.string) : bytes := String.list_byte_of_string s.

(** [byte(v)]: the low eight bits of an integer. *)
Definition byte_of_Z (v : Z) : byte :=
  match Byte.of_N (Z.to_N (Z.land v 255)) with
  | Some b => b
  | None => x00
  end.

(** [uint16(b)] for a byte [b]. *)
Definition Z_of_byte (b : byte) : Z := Z.of_N (Byte.to_N b).

(** Conversion to [uint16]: the value modulo 2^16. *)
Definition wrap16 (v : Z) : Z := v mod 65536.

Fixpoint bytes_eqb (a b : bytes) : bool :=
  match a, b with
  | [], [] => true
  | x :: a', y :: b' => Byte.eqb x y && bytes_eqb a' b'
  | _, _ => false
  end.

(** [len(s)] as a Go [int]. *)
Definition len (s : bytes) : Z := Z.of_nat (length s).

(** [s[lo:hi]] and [s[lo:]] for in-range bounds. *)
Definition slice (s : bytes) (lo hi : nat) : bytes := firstn (hi - lo) (skipn lo s).
Definition slice_from (s : bytes) (lo : nat) : bytes := skipn lo s.

(** [encoding/binary.BigEndian]. *)
Module BigEndian.

(** [PutUint16(b, v)]: [b[0] = byte(v >> 8); b[1] = byte(v)]. *)
Definition PutUint16 (v : Z) : bytes :=
  [byte_of_Z (Z.shiftr v 8); byte_of_Z v].

(** [Uint16(b)]: [uint16(b[1]) | uint16(b[0])<<8].  Every caller in the
    source checks [len(b) >= 2] before the call; the last branch is the
    index-out-of-range case, which is never reached. *)
Definition Uint16 (b : bytes) : Z :=
  match b with
  | b0 :: b1 :: _ => Z.lor (Z_of_byte b1) (Z.shiftl (Z_of_byte b0) 8)
  | _ => 0
  end.

End BigEndian.

(** ** [pkg/tftp/packet.go] *)

Module tftp.

(** Opcodes. *)
Definition Opcode := Z.
Definition RRQ : Opcode := 1.
Definition WRQ : Opcode := 2.
Definition DATA : Opcode := 3.
Definition ACK : Opcode := 4.
Definition ERROR : Opcode := 5.



(** Error codes. *)
Definition ErrNotDefined : Z := 0.
Definition ErrFileNotFound : Z := 1.
Definition ErrAccessViolation : Z := 2.
Definition ErrDiskFull : Z := 3.
Definition ErrIllegalOperation : Z := 4.
Definition ErrUnknownTID : Z := 5.
Definition ErrFileExists : Z := 6.
Definition ErrNoSuchUser : Z := 7.

(** Transfer modes. *)
Definition ModeNetascii : bytes := lit "netascii".
Definition ModeOctet : bytes := lit "octet".
Definition ModeMail : bytes := lit "mail".

(** The package's error values. *)
Inductive error : Type :=
| ErrInvalidPacket
| ErrPacketTooShort
| ErrInvalidOpcode
| ErrMissingNullTerm.

(** [(T, error)]. *)
Inductive result (T : Type) : Type :=
| Ok (v : T)
| Err (e : error).
Arguments Ok {T} v.
Arguments Err {T} e.

(** A call that returns or panics. *)
Inductive go (T : Type) : Type :=
| Return (v : T)
| Panic (msg : bytes).
Arguments Return {T} v.
Arguments Panic {T} msg.

Record ReadRequest : Type := mkRRQ { rrq_Filename : bytes; rrq_Mode : bytes }.
Record WriteRequest : Type := mkWRQ { wrq_Filename : bytes; wrq_Mode : bytes }.
Record DataPacket : Type := mkDATA { data_Block : Z; data_Data : bytes }.
Record AckPacket : Type := mkACK { ack_Block : Z }.
Record ErrorPacket : Type := mkERROR { err_Code : Z; err_Message : bytes }.

Definition isValidMode (mode : bytes) : bool :=
  bytes_eqb mode ModeNetascii || bytes_eqb mode ModeOctet || bytes_eqb mode ModeMail.

(** [packRQ]: panics on an unsupported mode, otherwise
    opcode, filename, 0, mode, 0. *)
Definition packRQ (opcode : Opcode) (filename mode : bytes) : go bytes :=
  if negb (isValidMode mode) then Panic (lit "unsupported TFTP mode: " ++ mode)
  else Return (BigEndian.PutUint16 opcode ++ filename ++ [x00] ++ mode ++ [x00]).

(** The scan [for i, b := range data { if b == 0 { end = i; break } }];
    [None] is the source's [-1]. *)
Fixpoint indexNUL (data : bytes) : option nat :=
  match data with
  | [] => None
  | b :: rest =>
      if Byte.eqb b x00 then Some O
      else match indexNUL rest with
           | Some i => Some (S i)
           | None => None
           end
  end.

Definition unpackRQ (packet : bytes) : result (bytes * bytes) :=
  if len packet <? 4 then Err ErrPacketTooShort
  else
    let data := slice_from packet 2 in
    match indexNUL data with
    | None => Err ErrMissingNullTerm
    | Some filenameEnd =>
        let filename := slice data 0 filenameEnd in
        if Z.of_nat filenameEnd + 1 >=? len data then Err ErrInvalidPacket
        else
          let modeData := slice_from data (filenameEnd + 1) in
          match indexNUL modeData with
          | None => Err ErrMissingNullTerm
          | Some modeEnd => Ok (filename, slice modeData 0 modeEnd)
          end
    end.

Definition ParseRRQ (data : bytes) : result ReadRequest :=
  if (len data <? 2) || negb (BigEndian.Uint16 (slice data 0 2) =? RRQ)
  then Err ErrInvalidOpcode
  else match unpackRQ data with
       | Err e => Err e
       | Ok (filename, mode) => Ok (mkRRQ filename mode)
       end.

Definition ParseWRQ (data : bytes) : result WriteRequest :=
  if (len data <? 2) || negb (BigEndian.Uint16 (slice data 0 2) =? WRQ)
  then Err ErrInvalidOpcode
  else match unpackRQ data with
       | Err e => Err e
       | Ok (filename, mode) => Ok (mkWRQ filename mode)
       end.

Definition PackDATA (block : Z) (data : bytes) : bytes :=
  BigEndian.PutUint16 DATA ++ BigEndian.PutUint16 block ++ data.

Definition ParseDATA (packet : bytes) : result DataPacket :=
  if len packet <? 4 then Err ErrPacketTooShort
  else if negb (BigEndian.Uint16 (slice packet 0 2) =? DATA) then Err ErrInvalidOpcode
  else Ok (mkDATA (BigEndian.Uint16 (slice packet 2 4)) (slice_from packet 4)).

Definition PackACK (block : Z) : bytes :=
  BigEndian.PutUint16 ACK ++ BigEndian.PutUint16 block.

Definition ParseACK (packet : bytes) : result AckPacket :=
  if len packet <? 4 then Err ErrPacketTooShort
  else if negb (BigEndian.Uint16 (slice packet 0 2) =? ACK) then Err ErrInvalidOpcode
  else Ok (mkACK (BigEndian.Uint16 (slice packet 2 4))).

Definition PackERROR (code : Z) (msg : bytes) : bytes :=
  BigEndian.PutUint16 ERROR ++ BigEndian.PutUint16 code ++ msg ++ [x00].

Definition ParseERROR (packet : bytes) : result ErrorPacket :=
  if len packet <? 5 then Err ErrPacketTooShort
  else if negb (BigEndian.Uint16 (slice packet 0 2) =? ERROR) then Err ErrInvalidOpcode
  else if negb (Byte.eqb (last packet x00) x00) then Err ErrMissingNullTerm
  else Ok (mkERROR (BigEndian.Uint16 (slice packet 2 4))
                   (slice packet 4 (length packet - 1))).

(** The interface [TFTPPacket] and its five implementations. *)
Class TFTPPacket (T : Type) : Type := {
  OpcodeOf : T -> Opcode;
  Serialize : T -> go bytes
}.

#[global] Instance ReadRequest_packet : TFTPPacket ReadRequest := {
  OpcodeOf := fun _ => RRQ;
  Serialize := fun rq => packRQ RRQ (rrq_Filename rq) (rrq_Mode rq)
}.
#[global] Instance WriteRequest_packet : TFTPPacket WriteRequest := {
  OpcodeOf := fun _ => WRQ;
  Serialize := fun wr => packRQ WRQ (wrq_Filename wr) (wrq_Mode wr)
}.
#[global] Instance DataPacket_packet : TFTPPacket DataPacket := {
  OpcodeOf := fun _ => DATA;
  Serialize := fun p => Return (PackDATA (data_Block p) (data_Data p))
}.
#[global] Instance AckPacket_packet : TFTPPacket AckPacket := {
  OpcodeOf := fun _ => ACK;
  Serialize := fun p => Return (PackACK (ack_Block p))
}.
#[global] Instance ErrorPacket_packet : TFTPPacket ErrorPacket := {
  OpcodeOf := fun _ => ERROR;
  Serialize := fun p => Return (PackERROR (err_Code p) (err_Message p))
}.

End tftp.

(** ** [strings] and [path/filepath] as the server uses them (Unix host)

    The server calls [strings.HasPrefix], [filepath.Clean], [filepath.Join]
    and [filepath.Rel].  They are modelled on the elements of a path (the
    byte strings between separators), which is what the lexical processing of
    the library works on; volume names are empty on Unix and [sameWord] is
    equality. *)

Module strings.

Definition HasPrefix (s prefix : bytes) : bool :=
  bytes_eqb (firstn (length prefix) s) prefix.

(** [strings.Join(elems, "/")]. *)
Fixpoint Join (elems : list bytes) : bytes :=
  match elems with
  | [] => []
  | [e] => e
  | e :: rest => e ++ "/"%byte :: Join rest
  end.

(** [strings.Split(s, "/")]. *)
Fixpoint Split (s : bytes) : list bytes :=
  match s with
  | [] => [[]]
  | b :: rest =>
      if Byte.eqb b "/"%byte then [] :: Split rest
      else match Split rest with
           | e :: es => (b :: e) :: es
           | [] => [[b]]
           end
  end.

End strings.

Module filepath.

Definition isRooted (path : bytes) : bool :=
  match path with
  | b :: _ => Byte.eqb b "/"%byte
  | [] => false
  end.

(** The non-empty elements of a path. *)
Definition elements (path : bytes) : list bytes :=
  filter (fun e => negb (bytes_eqb e [])) (strings.Split path).

(** The element loop of [Clean].  [out] holds the elements written so far,
    most recent first; [dotdot] counts the leading [..] elements of the
    output, which cannot be backed over.  An empty element and [.] are
    dropped; [..] removes the last element if there is one to remove, is
    dropped at the root, and is kept otherwise. *)
Fixpoint cleanLoop (rooted : bool) (elems : list bytes) (out : list bytes)
         (dotdot : nat) : list bytes :=
  match elems with
  | [] => rev out
  | e :: rest =>
      if bytes_eqb e [] || bytes_eqb e (lit ".") then cleanLoop rooted rest out dotdot
      else if bytes_eqb e (lit "..") then
        if (dotdot <? length out)%nat then cleanLoop rooted rest (tl out) dotdot
        else if rooted then cleanLoop rooted rest out dotdot
        else cleanLoop rooted rest (e :: out) (S dotdot)
      else cleanLoop rooted rest (e :: out) dotdot
  end.

Definition Clean (path : bytes) : bytes :=
  if bytes_eqb path [] then lit "."
  else
    let rooted := isRooted path in
    let out := cleanLoop rooted (strings.Split path) [] 0 in
    if rooted then "/"%byte :: strings.Join out
    else match out with
         | [] => lit "."
         | _ => strings.Join out
         end.

(** [Join(elem...)]: the elements from the first non-empty one on, joined
    with the separator and cleaned. *)
Fixpoint Join (elem : list bytes) : bytes :=
  match elem with
  | [] => []
  | e :: rest =>
      if bytes_eqb e [] then Join rest
      else Clean (strings.Join (e :: rest))
  end.

(** The first differing elements of two paths. *)
Fixpoint stripCommon (bs ts : list bytes) : list bytes * list bytes :=
  match bs, ts with
  | b :: bs', t :: ts' =>
      if bytes_eqb t b then stripCommon bs' ts' else (bs, ts)
  | _, _ => (bs, ts)
  end.

(** [Rel(basepath, targpath)]; [None] is the error "can't make targpath
    relative to basepath". *)
Definition Rel (basepath targpath : bytes) : option bytes :=
  let base := Clean basepath in
  let targ := Clean targpath in
  if bytes_eqb targ base then Some (lit ".")
  else
    let base := if bytes_eqb base (lit ".") then [] else base in
    if negb (Bool.eqb (isRooted base) (isRooted targ)) then None
    else
      match stripCommon (elements base) (elements targ) with
      | ([], ts) => Some (strings.Join ts)
      | (b0 :: bs, []) => Some (strings.Join (repeat (lit "..") (S (length bs))))
      | (b0 :: bs, ts) =>
          if bytes_eqb b0 (lit "..") then None
          else Some (strings.Join (repeat (lit "..") (S (length bs)) ++ ts))
      end.

End filepath.

(** ** The server: [handleRequest], [serveReadRequest], [sendError] *)

Module server.

Import tftp.

Definition BlockSize : Z := 512.
Definition MaxRetries : Z := 3.

(** *** The collaborators *)

(** An open file: the bytes not yet read and, when the device is going to
    fail, the number of [Read] calls that still succeed before it does. *)
Record File : Type := mkFile { f_rest : bytes; f_fault : option nat }.

(** [n, err := file.Read(buf)] with a [BlockSize]-byte buffer, on a regular
    file: the buffer is filled while bytes remain.  [None] is an error other
    than [io.EOF]; [Some chunk] is [buf[:n]], empty at end of file. *)
Definition file_Read (f : File) : option bytes * File :=
  match f_fault f with
  | Some O => (None, f)
  | fault =>
      (Some (firstn (Z.to_nat BlockSize) (f_rest f)),
       mkFile (skipn (Z.to_nat BlockSize) (f_rest f)) (option_map pred fault))
  end.

(** [os.Open]. *)
Inductive open_result : Type :=
| Opened (f : File)
| NotExist
| OpenFails.

Definition FileSystem := bytes -> open_result.

(** What one pass of the send loop observes on the dedicated connection:
    the write fails, or it succeeds and the read that follows times out
    (after [ReadTimeout]), fails otherwise, or delivers a datagram.  A run is
    given the outcomes of its passes as a list; when the list is used up the
    run is [Blocked] before the pass whose outcome is missing. *)
Inductive io_event : Type :=
| WriteFails
| Timeout
| ReadFails
| Datagram (d : bytes).

(** What the goroutine does, in order. *)
Inductive action : Type :=
| SendTo (packet : bytes)     (* serverConn.WriteTo(packet, client) *)
| Open (name : bytes)         (* os.Open(name) *)
| Dial                        (* net.DialUDP("udp", nil, client) *)
| Write (packet : bytes).     (* a conn.Write(packet) that succeeded *)

(** How the goroutine ends. *)
Inductive outcome : Type :=
| Ignored                     (* handleRequest: fewer than two bytes *)
| Rejected                    (* an error packet was the only reply *)
| DialError
| FileReadError
| WriteError
| RecvError
| NoAck                       (* retries exhausted *)
| Completed (block : Z)       (* "File transfer completed"; the counter's last value *)
| Blocked (block retries : Z) (* the next I/O outcome is not given *)
| OutOfFuel.

(** [sendError]. *)
Definition sendError (code : Z) (msg : bytes) : list action :=
  [SendTo (PackERROR code msg)].

(** *** The send loop (the loop labelled [sendLoop]) *)

Inductive loop_exit : Type :=
| LoopEnd (retries : Z)       (* condition false, or [break sendLoop] *)
| LoopReturn (why : outcome)  (* [return] inside the loop *)
| LoopBlocked (retries : Z).  (* the next I/O outcome is not given *)

Definition loop_result : Type := list action * loop_exit * list io_event.

Definition after (a : action) (r : loop_result) : loop_result :=
  let '(tr, ex, rest) := r in (a :: tr, ex, rest).

(** [n, _, err := conn.ReadFrom(ackBuf)] on a fresh 4-byte buffer: a
    longer datagram is cut to the buffer, a shorter one leaves the zeroes of
    [make] behind it. *)
Definition ReadFrom4 (d : bytes) : Z * bytes :=
  (Z.min (len d) 4, firstn 4 (d ++ repeat x00 4)).

Fixpoint sendLoop (evs : list io_event) (block : Z) (dataPacket : bytes)
         (retries : Z) : loop_result :=
  if negb (retries <? MaxRetries) then ([], LoopEnd retries, evs)
  else
    match evs with
    | [] => ([], LoopBlocked retries, [])
    | WriteFails :: evs' => ([], LoopReturn WriteError, evs')
    | Timeout :: evs' =>
        after (Write dataPacket) (sendLoop evs' block dataPacket (retries + 1))
    | ReadFails :: evs' => ([Write dataPacket], LoopReturn RecvError, evs')
    | Datagram d :: evs' =>
        let '(n, ackBuf) := ReadFrom4 d in
        if negb (n =? 4) then
          after (Write dataPacket) (sendLoop evs' block dataPacket retries)
        else
          match ParseACK ackBuf with
          | Err _ =>
              after (Write dataPacket) (sendLoop evs' block dataPacket retries)
          | Ok parsedAck =>
              if negb (ack_Block parsedAck =? block) then
                after (Write dataPacket) (sendLoop evs' block dataPacket retries)
              else ([Write dataPacket], LoopEnd retries, evs')
          end
    end.

(** *** The code after the send loop *)

Inductive tail_exit : Type :=
| TailNoAck                   (* sendError, return *)
| TailCompleted (block : Z)   (* return after the short block *)
| TailNext (block : Z).       (* next iteration of the transfer loop *)

(** Lines 180-190: the retry test, then [block++], then the short-block
    test. *)
Definition afterLoop (retries block n : Z) : tail_exit :=
  if retries >=? MaxRetries then TailNoAck
  else
    let block := wrap16 (block + 1) in
    if n <? BlockSize then TailCompleted block
    else TailNext block.

(** *** The transfer loop (lines 136-191)

    [n] is the count read from the file all along: the [n] the send loop
    declares for [ReadFrom] is a variable of its own. *)

Fixpoint transferLoop (fuel : nat) (file : File) (block : Z)
         (evs : list io_event) : list action * outcome :=
  match fuel with
  | O => ([], OutOfFuel)
  | S fuel' =>
      match file_Read file with
      | (None, _) => ([], FileReadError)
      | (Some chunk, file') =>
          let n := len chunk in
          let dataPacket := PackDATA block chunk in
          match sendLoop evs block dataPacket 0 with
          | (tr, LoopReturn why, _) => (tr, why)
          | (tr, LoopBlocked retries, _) => (tr, Blocked block retries)
          | (tr, LoopEnd retries, evs') =>
              match afterLoop retries block n with
              | TailNoAck =>
                  (tr ++ sendError ErrNotDefined (lit "Transfer failed: no ACK"), NoAck)
              | TailCompleted block' => (tr, Completed block')
              | TailNext block' =>
                  let '(tr', out) := transferLoop fuel' file' block' evs' in
                  (tr ++ tr', out)
              end
          end
      end
  end.

(** *** [serveReadRequest] *)

Definition serveReadRequest (BaseDir : bytes) (fs : FileSystem) (dial_ok : bool)
           (rrq : ReadRequest) (evs : list io_event) : list action * outcome :=
  if negb (bytes_eqb (rrq_Mode rrq) ModeOctet)
     && negb (bytes_eqb (rrq_Mode rrq) ModeNetascii)
     && negb (bytes_eqb (rrq_Mode rrq) ModeMail)
  then (sendError ErrNotDefined (lit "Unsupported transfer mode"), Rejected)
  else
    let requestedPath := filepath.Join [BaseDir; filepath.Clean (rrq_Filename rrq)] in
    let filename := filepath.Clean requestedPath in
    match filepath.Rel BaseDir filename with
    | None => (sendError ErrAccessViolation (lit "Access denied"), Rejected)
    | Some relPath =>
        if strings.HasPrefix relPath (lit "..") then
          (sendError ErrAccessViolation (lit "Access denied"), Rejected)
        else
          match fs filename with
          | NotExist =>
              (Open filename :: sendError ErrFileNotFound (lit "File not found"), Rejected)
          | OpenFails =>
              (Open filename :: sendError ErrAccessViolation (lit "Cannot open file"), Rejected)
          | Opened file =>
              if negb dial_ok then ([Open filename; Dial], DialError)
              else
                let '(tr, out) := transferLoop (S (length evs)) file 1 evs in
                (Open filename :: Dial :: tr, out)
          end
    end.

(** *** [handleRequest] *)

Definition handleRequest (BaseDir : bytes) (fs : FileSystem) (dial_ok : bool)
           (packet : bytes) (evs : list io_event) : list action * outcome :=
  if len packet <? 2 then ([], Ignored)
  else
    let opcode := BigEndian.Uint16 (slice packet 0 2) in
    if opcode =? RRQ then
      match ParseRRQ packet with
      | Err _ => (sendError ErrNotDefined (lit "Invalid RRQ packet"), Rejected)
      | Ok rrq => serveReadRequest BaseDir fs dial_ok rrq evs
      end
    else (sendError ErrNotDefined (lit "Only RRQ is supported"), Rejected).

End server.

(** ** Vocabulary of the specification *)

(** A string without an embedded NUL. *)
Definition NoNUL (s : bytes) : Prop := Forall (fun b => b <> x00) s.

(** The datagram is taken as the acknowledgment of [block]: it fills the
    4-byte buffer, decodes as an acknowledgment and carries [block]. *)
Definition matching_ack (block : Z) (d : bytes) : bool :=
  let '(n, ackBuf) := server.ReadFrom4 d in
  (n =? 4)
  && match tftp.ParseACK ackBuf with
     | tftp.Ok a => tftp.ack_Block a =? block
     | tftp.Err _ => false
     end.

(** What the code's test turns away: the datagram has fewer than four bytes,
    or its first four bytes, which is all the 4-byte buffer receives of it,
    fail to decode as an acknowledgment or decode with a block number other
    than [block]. *)
Definition not_matching_ack (block : Z) (d : bytes) : Prop :=
  len d < 4
  \/ (exists e, tftp.ParseACK (firstn 4 d) = tftp.Err e)
  \/ (exists a, tftp.ParseACK (firstn 4 d) = tftp.Ok a /\ tftp.ack_Block a <> block).

(** An event that neither ends the send loop nor aborts the transfer: a
    timeout or a datagram that is not the awaited acknowledgment. *)
Definition quiet (block : Z) (ev : server.io_event) : bool :=
  match ev with
  | server.Timeout => true
  | server.Datagram d => negb (matching_ack block d)
  | _ => false
  end.

Definition is_timeout (ev : server.io_event) : bool :=
  match ev with server.Timeout => true | _ => false end.

Definition is_discard (block : Z) (ev : server.io_event) : bool :=
  match ev with
  | server.Datagram d => negb (matching_ack block d)
  | _ => false
  end.

(** The number of timeouts and of discarded datagrams among the events. *)
Definition timeouts (evs : list server.io_event) : nat :=
  length (filter is_timeout evs).
Definition discards (block : Z) (evs : list server.io_event) : nat :=
  length (filter (is_discard block) evs).

(** The send loop has not ended on the events given. *)
Definition loop_running (r : server.loop_result) : bool :=
  match r with
  | (_, server.LoopBlocked _, _) => true
  | _ => false
  end.

(** [k] passes of the send loop that write the data packet and go on. *)
Fixpoint writes (dataPacket : bytes) (k : nat) (r : server.loop_result) : server.loop_result :=
  match k with
  | O => r
  | S k' => server.after (server.Write dataPacket) (writes dataPacket k' r)
  end.

(** An unending sequence of I/O outcomes and its first [k] events. *)
Definition io_stream : Type := nat -> server.io_event.
Definition first_events (env : io_stream) (k : nat) : list server.io_event :=
  map env (seq 0 k).

(** The send loop ends on every sequence of I/O outcomes: some finite part of
    the sequence brings it to its exit. *)
Definition sendLoop_always_terminates : Prop :=
  forall (env : io_stream) (block : Z) (dataPacket : bytes),
  exists k, loop_running (server.sendLoop (first_events env k) block dataPacket 0) = false.

(** The code after the send loop with the short-block test placed before the
    increment of the block number, as the specification words it. *)
Definition afterLoop_check_first (retries block n : Z) : server.tail_exit :=
  if retries >=? server.MaxRetries then server.TailNoAck
  else if n <? server.BlockSize then server.TailCompleted block
  else server.TailNext (wrap16 (block + 1)).

(** The path the server opens for a requested name. *)
Definition resolve (BaseDir name : bytes) : bytes :=
  filepath.Clean (filepath.Join [BaseDir; filepath.Clean name]).

(** A path lies lexically inside a root directory when it is the root, or
    the root followed by a separator and more; everything rooted lies inside
    the root directory [/]. *)
Definition lexicallyInside (root path : bytes) : Prop :=
  path = root
  \/ (exists rest, path = root ++ "/"%byte :: rest)
  \/ (root = lit "/" /\ exists rest, path = "/"%byte :: rest).

(** The same on path elements: the elements of the root lead the elements of
    the path. *)
Definition elementsLead (root path : bytes) : Prop :=
  exists below,
    filepath.elements (filepath.Clean path)
    = filepath.elements (filepath.Clean root) ++ below.

(** An element without a separator, and an element that [Clean] keeps as it
    is: not empty, not [.], not [..], without a separator. *)
Definition slashfree (e : bytes) : bool :=
  forallb (fun b => negb (Byte.eqb b "/"%byte)) e.
Definition plain (e : bytes) : bool :=
  negb (bytes_eqb e []) && negb (bytes_eqb e (lit ".")) && negb (bytes_eqb e (lit ".."))
  && slashfree e.

(** The [k] full blocks of [content], numbered from [block], as the data
    packets written for them. *)
Fixpoint full_blocks (block : Z) (k : nat) (content : bytes) : list server.action :=
  match k with
  | O => []
  | S k' =>
      server.Write (tftp.PackDATA block (firstn 512 content))
      :: full_blocks (wrap16 (block + 1)) k' (skipn 512 content)
  end.

(** The acknowledgments of [k] consecutive blocks numbered from [block]. *)
Fixpoint acks_from (block : Z) (k : nat) : list server.io_event :=
  match k with
  | O => []
  | S k' => server.Datagram (tftp.PackACK block) :: acks_from (wrap16 (block + 1)) k'
  end.

(** The payload a written data packet carries, and the payloads of a trace
    one after the other: what the client is given to store. *)
Definition payload_of (a : server.action) : bytes :=
  match a with
  | server.Write p =>
      match tftp.ParseDATA p with
      | tftp.Ok d => tftp.data_Data d
      | tftp.Err _ => []
      end
  | _ => []
  end.
Definition payloads (tr : list server.action) : bytes := flat_map payload_of tr.

Definition is_Write (a : server.action) : bool :=
  match a with server.Write _ => true | _ => false end.
Definition is_SendTo (a : server.action) : bool :=
  match a with server.SendTo _ => true | _ => false end.
Definition is_Open (a : server.action) : bool :=
  match a with server.Open _ => true | _ => false end.

(** A data packet of the transfer: a block number and at most 512 bytes. *)
Definition is_data_packet (a : server.action) : Prop :=
  exists block chunk,
    a = server.Write (tftp.PackDATA block chunk)
    /\ 0 <= block < 65536 /\ (length chunk <= 512)%nat.

(** The error packet that follows the data packets of a transfer that ends
    as [out]: the "no ACK" error after exhausted retries, nothing
    otherwise. *)
Definition closing_error (out : server.outcome) : list server.action :=
  match out with
  | server.NoAck =>
      server.sendError tftp.ErrNotDefined (lit "Transfer failed: no ACK")
  | _ => []
  end.

(** The datagram as such fails to decode as a 4-byte acknowledgment (it is
    not four bytes long, or the decoder refuses it), or decodes with a block
    number other than [block]. *)
Definition not_a_four_byte_ack (block : Z) (d : bytes) : Prop :=
  len d <> 4
  \/ (exists e, tftp.ParseACK d = tftp.Err e)
  \/ (exists a, tftp.ParseACK d = tftp.Ok a /\ tftp.ack_Block a <> block).

(** The outcomes one block sees when it ends up acknowledged: quiet outcomes,
    then the datagram taken as its acknowledgment.  A schedule lists them for
    consecutive blocks. *)
Definition block_run : Type := (list server.io_event * bytes)%type.

Definition events_of (sched : list block_run) : list server.io_event :=
  flat_map (fun r => fst r ++ [server.Datagram (snd r)]) sched.

(** Every block of the schedule, numbered from [block], sees fewer than
    [MaxRetries] timeouts and only datagrams that are not its acknowledgment
    before the datagram that is. *)
Fixpoint well_scheduled (block : Z) (sched : list block_run) : Prop :=
  match sched with
  | [] => True
  | (q, d) :: rest =>
      forallb (quiet block) q = true
      /\ Z.of_nat (timeouts q) < server.MaxRetries
      /\ matching_ack block d = true
      /\ well_scheduled (wrap16 (block + 1)) rest
  end.

(** What is written under a schedule: each block of [content] in turn, once
    at first and once more for each quiet outcome it sees. *)
Fixpoint served (block : Z) (content : bytes) (sched : list block_run)
  : list server.action :=
  match sched with
  | [] => []
  | (q, _) :: rest =>
      repeat (server.Write (tftp.PackDATA block (firstn 512 content))) (S (length q))
      ++ served (wrap16 (block + 1)) (skipn 512 content) rest
  end.

(** * Properties *)

(** ** Bytes and 16-bit integers *)

Lemma bytes_eqb_eq (a b : bytes) : bytes_eqb a b = true <-> a = b.
Proof.
  revert b; induction a as [|x a IH]; intros [|y b]; simpl; split;
    try congruence; try reflexivity.
  - intros H. apply andb_true_iff in H as [Hxy Hab].
    apply Byte.byte_dec_bl in Hxy. apply IH in Hab. congruence.
  - intros H. injection H as -> ->.
    apply andb_true_iff. split; [apply Byte.byte_dec_lb; reflexivity | now apply IH].
Qed.

Lemma bytes_eqb_refl (a : bytes) : bytes_eqb a a = true.
Proof. now apply bytes_eqb_eq. Qed.

Lemma bytes_eqb_neq (a b : bytes) : bytes_eqb a b = false <-> a <> b.
Proof.
  split.
  - intros H E. apply bytes_eqb_eq in E. congruence.
  - intros H. destruct (bytes_eqb a b) eqn:E; [|reflexivity].
    apply bytes_eqb_eq in E. contradiction.
Qed.

Lemma byte_eqb_x00 (b : byte) : Byte.eqb b x00 = false <-> b <> x00.
Proof.
  split.
  - intros H E. subst b. discriminate H.
  - intros H. destruct (Byte.eqb b x00) eqn:E; [|reflexivity].
    apply Byte.byte_dec_bl in E. contradiction.
Qed.

Lemma land_255_range (v : Z) : 0 <= Z.land v 255 < 256.
Proof.
  change 255 with (Z.ones 8). rewrite Z.land_ones by lia.
  apply Z.mod_pos_bound. reflexivity.
Qed.

Lemma Z_of_byte_of_Z (v : Z) : Z_of_byte (byte_of_Z v) = Z.land v 255.
Proof.
  unfold Z_of_byte, byte_of_Z.
  pose proof (land_255_range v) as Hr.
  destruct (Byte.of_N (Z.to_N (Z.land v 255))) as [b|] eqn:E.
  - apply Byte.to_of_N in E. rewrite E. apply Z2N.id. lia.
  - apply Byte.of_N_None_iff in E. lia.
Qed.

Lemma Z_of_byte_range (b : byte) : 0 <= Z_of_byte b < 256.
Proof.
  unfold Z_of_byte. pose proof (Byte.to_N_bounded b). lia.
Qed.

Lemma Uint16_PutUint16 (v : Z) (rest : bytes) :
  BigEndian.Uint16 (BigEndian.PutUint16 v ++ rest) = wrap16 v.
Proof.
  unfold BigEndian.PutUint16, wrap16. cbn [app BigEndian.Uint16].
  rewrite !Z_of_byte_of_Z.
  change 65536 with (2 ^ 16). change 255 with (Z.ones 8).
  apply Z.bits_inj'. intros n Hn.
  rewrite Z.lor_spec, Z.land_spec.
  destruct (Z.ltb_spec n 8) as [Hlt|Hge].
  - rewrite Z.ones_spec_low by lia.
    rewrite Z.shiftl_spec_low by lia.
    rewrite Z.mod_pow2_bits_low by lia.
    now rewrite andb_true_r, orb_false_r.
  - rewrite Z.ones_spec_high by lia.
    rewrite Z.shiftl_spec by lia.
    rewrite Z.land_spec, Z.shiftr_spec by lia.
    replace (n - 8 + 8) with n by lia.
    rewrite andb_false_r, orb_false_l.
    destruct (Z.ltb_spec n 16) as [Hlt16|Hge16].
    + rewrite Z.ones_spec_low by lia.
      rewrite Z.mod_pow2_bits_low by lia. now rewrite andb_true_r.
    + rewrite Z.ones_spec_high by lia.
      rewrite Z.mod_pow2_bits_high by lia. now rewrite andb_false_r.
Qed.

Lemma wrap16_small (v : Z) : 0 <= v < 65536 -> wrap16 v = v.
Proof. intros H. unfold wrap16. now apply Z.mod_small. Qed.

Lemma Uint16_range (b : bytes) : 0 <= BigEndian.Uint16 b < 65536.
Proof.
  destruct b as [|b0 [|b1 b]]; cbn [BigEndian.Uint16]; try lia.
  pose proof (Z_of_byte_range b0) as H0. pose proof (Z_of_byte_range b1) as H1.
  rewrite Z.shiftl_mul_pow2 by lia.
  split.
  - apply Z.lor_nonneg. lia.
  - change 65536 with (2 ^ 16).
    destruct (Z.eq_dec (Z.lor (Z_of_byte b1) (Z_of_byte b0 * 2 ^ 8)) 0) as [->|Hnz]; [lia|].
    apply Z.log2_lt_pow2.
    + assert (0 <= Z.lor (Z_of_byte b1) (Z_of_byte b0 * 2 ^ 8)) by (apply Z.lor_nonneg; lia). lia.
    + rewrite Z.log2_lor by lia.
      apply Z.max_lub_lt.
      * destruct (Z.eq_dec (Z_of_byte b1) 0) as [->|]; [simpl; lia|].
        apply Z.log2_lt_pow2; lia.
      * destruct (Z.eq_dec (Z_of_byte b0) 0) as [->|]; [simpl; lia|].
        apply Z.log2_lt_pow2; lia.
Qed.

Lemma PutUint16_length (v : Z) : length (BigEndian.PutUint16 v) = 2%nat.
Proof. reflexivity. Qed.

(** ** The NUL scan *)

Lemma indexNUL_app (s rest : bytes) :
  NoNUL s -> tftp.indexNUL (s ++ x00 :: rest) = Some (length s).
Proof.
  induction 1 as [|b s Hb Hs IH]; simpl.
  - reflexivity.
  - apply byte_eqb_x00 in Hb. now rewrite Hb, IH.
Qed.

Lemma indexNUL_Some (d : bytes) (i : nat) :
  tftp.indexNUL d = Some i ->
  exists s rest, d = s ++ x00 :: rest /\ NoNUL s /\ length s = i.
Proof.
  revert i; induction d as [|b d IH]; simpl; intros i H.
  - discriminate.
  - destruct (Byte.eqb b x00) eqn:E.
    + injection H as <-. apply Byte.byte_dec_bl in E. subst b.
      exists [], d. repeat split. constructor.
    + destruct (tftp.indexNUL d) as [j|]; [|discriminate].
      injection H as <-.
      destruct (IH j eq_refl) as (s & rest & -> & Hs & Hl).
      exists (b :: s), rest. repeat split.
      * constructor; [now apply byte_eqb_x00 | assumption].
      * simpl. now rewrite Hl.
Qed.

Lemma indexNUL_None (d : bytes) : tftp.indexNUL d = None <-> NoNUL d.
Proof.
  induction d as [|b d IH]; simpl.
  - split; [constructor | reflexivity].
  - destruct (Byte.eqb b x00) eqn:E.
    + split; [discriminate|]. intros H. inversion H as [|? ? Hb _]; subst.
      apply Byte.byte_dec_bl in E. contradiction.
    + destruct (tftp.indexNUL d) as [j|].
      * split; [discriminate|]. intros H. inversion H; subst.
        destruct IH as [_ IH]. discriminate IH. assumption.
      * split; [|reflexivity]. intros _. constructor.
        -- now apply byte_eqb_x00.
        -- now apply IH.
Qed.

Lemma Z_of_byte_land (b : byte) : Z.land (Z_of_byte b) 255 = Z_of_byte b.
Proof.
  change 255 with (Z.ones 8). rewrite Z.land_ones by lia.
  apply Z.mod_small. apply Z_of_byte_range.
Qed.

Lemma Z_of_byte_high (b : byte) (n : Z) : 8 <= n -> Z.testbit (Z_of_byte b) n = false.
Proof.
  intros Hn. rewrite <- Z_of_byte_land, Z.land_spec.
  change 255 with (Z.ones 8). rewrite Z.ones_spec_high by lia. apply andb_false_r.
Qed.

Lemma byte_of_Z_of_byte (b : byte) : byte_of_Z (Z_of_byte b) = b.
Proof.
  unfold byte_of_Z. rewrite Z_of_byte_land. unfold Z_of_byte.
  now rewrite N2Z.id, Byte.of_to_N.
Qed.

Lemma PutUint16_Uint16 (b0 b1 : byte) (rest : bytes) :
  BigEndian.PutUint16 (BigEndian.Uint16 (b0 :: b1 :: rest)) = [b0; b1].
Proof.
  unfold BigEndian.PutUint16. cbn [BigEndian.Uint16].
  f_equal; [|f_equal].
  - rewrite <- (byte_of_Z_of_byte b0) at 2. f_equal.
    apply Z.bits_inj'. intros n Hn.
    rewrite Z.shiftr_spec, Z.lor_spec, Z.shiftl_spec by lia.
    rewrite Z_of_byte_high by lia. simpl. f_equal. lia.
  - rewrite <- (byte_of_Z_of_byte b1) at 2. unfold byte_of_Z.
    replace (Z.land (Z.lor (Z_of_byte b1) (Z.shiftl (Z_of_byte b0) 8)) 255)
      with (Z.land (Z_of_byte b1) 255); [reflexivity|].
    apply Z.bits_inj'. intros n Hn.
    rewrite !Z.land_spec, Z.lor_spec.
    change 255 with (Z.ones 8).
    destruct (Z.ltb_spec n 8).
    + rewrite Z.shiftl_spec_low by lia. now rewrite orb_false_r.
    + rewrite Z.ones_spec_high by lia. now rewrite !andb_false_r.
Qed.

(** The two leading bytes carry opcode [op] exactly when they are its
    big-endian encoding. *)
Lemma opcode_bytes (b0 b1 : byte) (rest : bytes) (op : Z) :
  BigEndian.Uint16 (b0 :: b1 :: rest) = op -> [b0; b1] = BigEndian.PutUint16 op.
Proof. intros <-. symmetry. apply PutUint16_Uint16. Qed.

(** ** The request decoder *)

Lemma slice_0 (s : bytes) (n : nat) : slice s 0 n = firstn n s.
Proof. unfold slice. now rewrite Nat.sub_0_r. Qed.

Lemma firstn_length_app (s t : bytes) : firstn (length s) (s ++ t) = s.
Proof.
  rewrite firstn_app, Nat.sub_diag, firstn_all. simpl. apply app_nil_r.
Qed.

Lemma skipn_length_app (s t : bytes) : skipn (length s) (s ++ t) = t.
Proof.
  rewrite skipn_app, Nat.sub_diag, skipn_all. reflexivity.
Qed.

Lemma unpackRQ_layout (b0 b1 : byte) (filename mode rest : bytes) :
  NoNUL filename -> NoNUL mode ->
  tftp.unpackRQ (b0 :: b1 :: filename ++ x00 :: mode ++ x00 :: rest) = tftp.Ok (filename, mode).
Proof.
  intros Hf Hm. unfold tftp.unpackRQ.
  replace (len (b0 :: b1 :: filename ++ x00 :: mode ++ x00 :: rest) <? 4) with false.
  2:{ symmetry. apply Z.ltb_ge. unfold len. simpl length.
      rewrite length_app. simpl length. rewrite length_app. simpl length. lia. }
  unfold slice_from. cbn [skipn].
  rewrite (indexNUL_app filename _ Hf).
  replace (Z.of_nat (length filename) + 1 >=? len (filename ++ x00 :: mode ++ x00 :: rest)) with false.
  2:{ symmetry. rewrite Z.geb_leb. apply Z.leb_gt. unfold len.
      rewrite length_app. simpl length. rewrite length_app. simpl length. lia. }
  rewrite slice_0, firstn_length_app.
  replace (skipn (length filename + 1) (filename ++ x00 :: mode ++ x00 :: rest))
    with (mode ++ x00 :: rest).
  2:{ rewrite Nat.add_1_r. change (x00 :: mode ++ x00 :: rest) with ([x00] ++ mode ++ x00 :: rest).
      rewrite app_assoc.
      replace (S (length filename)) with (length (filename ++ [x00]))
        by (rewrite length_app; simpl; lia).
      now rewrite skipn_length_app. }
  rewrite (indexNUL_app mode _ Hm).
  now rewrite slice_0, firstn_length_app.
Qed.

Lemma unpackRQ_Ok (packet filename mode : bytes) :
  tftp.unpackRQ packet = tftp.Ok (filename, mode) ->
  exists b0 b1 rest,
    packet = b0 :: b1 :: filename ++ x00 :: mode ++ x00 :: rest
    /\ NoNUL filename /\ NoNUL mode.
Proof.
  unfold tftp.unpackRQ. destruct (len packet <? 4) eqn:Hlen; [discriminate|].
  apply Z.ltb_ge in Hlen. unfold len in Hlen.
  destruct packet as [|b0 [|b1 data]]; simpl in Hlen; try lia.
  unfold slice_from. cbn [skipn].
  destruct (tftp.indexNUL data) as [i|] eqn:Hi; [|discriminate].
  destruct (indexNUL_Some _ _ Hi) as (f & after & -> & Hf & <-).
  destruct (_ >=? _); [discriminate|].
  rewrite slice_0, firstn_length_app.
  replace (skipn (length f + 1) (f ++ x00 :: after)) with after.
  2:{ rewrite Nat.add_1_r. change (x00 :: after) with ([x00] ++ after).
      rewrite app_assoc.
      replace (S (length f)) with (length (f ++ [x00]))
        by (rewrite length_app; simpl; lia).
      now rewrite skipn_length_app. }
  destruct (tftp.indexNUL after) as [j|] eqn:Hj; [|discriminate].
  destruct (indexNUL_Some _ _ Hj) as (m & rest & -> & Hm & <-).
  rewrite slice_0, firstn_length_app.
  intros H. injection H as <- <-.
  exists b0, b1, rest. auto.
Qed.

Lemma isValidMode_cases (mode : bytes) :
  tftp.isValidMode mode = true <->
  mode = tftp.ModeNetascii \/ mode = tftp.ModeOctet \/ mode = tftp.ModeMail.
Proof.
  unfold tftp.isValidMode. rewrite !orb_true_iff, !bytes_eqb_eq. tauto.
Qed.

Lemma valid_mode_NoNUL (mode : bytes) : tftp.isValidMode mode = true -> NoNUL mode.
Proof.
  intros H. apply isValidMode_cases in H.
  destruct H as [-> | [-> | ->]]; repeat constructor; discriminate.
Qed.

Lemma ParseRRQ_layout (filename mode rest : bytes) :
  NoNUL filename -> NoNUL mode ->
  tftp.ParseRRQ (BigEndian.PutUint16 tftp.RRQ ++ filename ++ x00 :: mode ++ x00 :: rest)
  = tftp.Ok (tftp.mkRRQ filename mode).
Proof.
  intros Hf Hm. unfold tftp.ParseRRQ.
  change (BigEndian.PutUint16 tftp.RRQ ++ filename ++ x00 :: mode ++ x00 :: rest)
    with (x00 :: x01 :: filename ++ x00 :: mode ++ x00 :: rest).
  rewrite unpackRQ_layout by assumption.
  replace (len _ <? 2) with false; [reflexivity|].
  symmetry. apply Z.ltb_ge. unfold len. simpl length. lia.
Qed.

Lemma ParseWRQ_layout (filename mode rest : bytes) :
  NoNUL filename -> NoNUL mode ->
  tftp.ParseWRQ (BigEndian.PutUint16 tftp.WRQ ++ filename ++ x00 :: mode ++ x00 :: rest)
  = tftp.Ok (tftp.mkWRQ filename mode).
Proof.
  intros Hf Hm. unfold tftp.ParseWRQ.
  change (BigEndian.PutUint16 tftp.WRQ ++ filename ++ x00 :: mode ++ x00 :: rest)
    with (x00 :: x02 :: filename ++ x00 :: mode ++ x00 :: rest).
  rewrite unpackRQ_layout by assumption.
  replace (len _ <? 2) with false; [reflexivity|].
  symmetry. apply Z.ltb_ge. unfold len. simpl length. lia.
Qed.

(** ** The fixed-header codecs *)

Lemma Uint16_PutUint16_small (v : Z) :
  0 <= v < 65536 -> BigEndian.Uint16 (BigEndian.PutUint16 v) = v.
Proof.
  intros H. rewrite <- (app_nil_r (BigEndian.PutUint16 v)).
  rewrite Uint16_PutUint16. now apply wrap16_small.
Qed.

Lemma ParseDATA_PackDATA (block : Z) (data : bytes) :
  tftp.ParseDATA (tftp.PackDATA block data) = tftp.Ok (tftp.mkDATA (wrap16 block) data).
Proof.
  unfold tftp.ParseDATA.
  replace (len (tftp.PackDATA block data) <? 4) with false.
  2:{ symmetry. apply Z.ltb_ge. unfold len, tftp.PackDATA.
      rewrite !length_app, !PutUint16_length. lia. }
  change (tftp.PackDATA block data)
    with (x00 :: x03 :: byte_of_Z (Z.shiftr block 8) :: byte_of_Z block :: data).
  unfold slice, slice_from. cbn [Nat.sub skipn firstn].
  change (BigEndian.Uint16 [x00; x03]) with 3. cbn [Z.eqb tftp.DATA Pos.eqb negb].
  change [byte_of_Z (Z.shiftr block 8); byte_of_Z block]
    with (BigEndian.PutUint16 block ++ []).
  now rewrite Uint16_PutUint16.
Qed.

Lemma ParseACK_PackACK (block : Z) :
  tftp.ParseACK (tftp.PackACK block) = tftp.Ok (tftp.mkACK (wrap16 block)).
Proof.
  unfold tftp.ParseACK.
  change (tftp.PackACK block)
    with [x00; x04; byte_of_Z (Z.shiftr block 8); byte_of_Z block].
  unfold slice. cbn [Nat.sub skipn firstn len length].
  change (BigEndian.Uint16 [x00; x04]) with 4.
  change [byte_of_Z (Z.shiftr block 8); byte_of_Z block]
    with (BigEndian.PutUint16 block ++ []).
  rewrite Uint16_PutUint16. reflexivity.
Qed.

Lemma last_app_x00 (s : bytes) (d : byte) : last (s ++ [x00]) d = x00.
Proof. apply last_last. Qed.

Lemma ParseERROR_PackERROR (code : Z) (msg : bytes) :
  tftp.ParseERROR (tftp.PackERROR code msg) = tftp.Ok (tftp.mkERROR (wrap16 code) msg).
Proof.
  unfold tftp.ParseERROR.
  replace (len (tftp.PackERROR code msg) <? 5) with false.
  2:{ symmetry. apply Z.ltb_ge. unfold len, tftp.PackERROR.
      rewrite !length_app, !PutUint16_length. simpl length. lia. }
  change (tftp.PackERROR code msg)
    with (x00 :: x05 :: byte_of_Z (Z.shiftr code 8) :: byte_of_Z code :: msg ++ [x00]).
  replace (last (x00 :: x05 :: byte_of_Z (Z.shiftr code 8) :: byte_of_Z code :: msg ++ [x00]) x00)
    with x00.
  2:{ symmetry.
      change (x00 :: x05 :: byte_of_Z (Z.shiftr code 8) :: byte_of_Z code :: msg ++ [x00])
        with (([x00; x05; byte_of_Z (Z.shiftr code 8); byte_of_Z code] ++ msg) ++ [x00]).
      apply last_last. }
  unfold slice. cbn [length Nat.sub skipn firstn].
  change (BigEndian.Uint16 [x00; x05]) with 5. cbn [Z.eqb tftp.ERROR Pos.eqb negb Byte.eqb].
  change [byte_of_Z (Z.shiftr code 8); byte_of_Z code]
    with (BigEndian.PutUint16 code ++ []).
  rewrite Uint16_PutUint16.
  replace (length (msg ++ [x00]) - 1)%nat with (length msg)
    by (rewrite length_app; simpl; lia).
  now rewrite firstn_length_app.
Qed.

(** C1 (codec round trip).  For a request with a recognised mode and a
    NUL-free filename, a data packet, an acknowledgment and an error packet,
    with 16-bit block numbers and codes and a payload of at most 512 bytes,
    decoding the bytes produced by encoding yields the message encoded. *)
Theorem codec_round_trip (filename mode message payload : bytes) (block code : Z) :
  tftp.isValidMode mode = true ->
  NoNUL filename ->
  NoNUL message ->
  0 <= block < 65536 ->
  0 <= code < 65536 ->
  (length payload <= 512)%nat ->
  (exists p, tftp.Serialize (tftp.mkRRQ filename mode) = tftp.Return p
             /\ tftp.ParseRRQ p = tftp.Ok (tftp.mkRRQ filename mode))
  /\ (exists p, tftp.Serialize (tftp.mkWRQ filename mode) = tftp.Return p
                /\ tftp.ParseWRQ p = tftp.Ok (tftp.mkWRQ filename mode))
  /\ (exists p, tftp.Serialize (tftp.mkDATA block payload) = tftp.Return p
                /\ tftp.ParseDATA p = tftp.Ok (tftp.mkDATA block payload))
  /\ (exists p, tftp.Serialize (tftp.mkACK block) = tftp.Return p
                /\ tftp.ParseACK p = tftp.Ok (tftp.mkACK block))
  /\ (exists p, tftp.Serialize (tftp.mkERROR code message) = tftp.Return p
                /\ tftp.ParseERROR p = tftp.Ok (tftp.mkERROR code message)).
Proof.
  intros Hmode Hf Hmsg Hb Hc _.
  pose proof (valid_mode_NoNUL _ Hmode) as Hm.
  repeat split.
  - eexists. split.
    + cbn. unfold tftp.packRQ. rewrite Hmode. reflexivity.
    + change [x00] with (x00 :: []). cbn [app].
      apply (ParseRRQ_layout filename mode []); assumption.
  - eexists. split.
    + cbn. unfold tftp.packRQ. rewrite Hmode. reflexivity.
    + cbn [app]. apply (ParseWRQ_layout filename mode []); assumption.
  - eexists. split; [reflexivity|].
    cbn [tftp.data_Block tftp.data_Data].
    now rewrite ParseDATA_PackDATA, wrap16_small.
  - eexists. split; [reflexivity|].
    cbn [tftp.ack_Block].
    now rewrite ParseACK_PackACK, wrap16_small.
  - eexists. split; [reflexivity|].
    cbn [tftp.err_Code tftp.err_Message].
    now rewrite ParseERROR_PackERROR, wrap16_small.
Qed.

Lemma codec_round_trip_witness :
  (exists p, tftp.Serialize (tftp.mkRRQ (lit "test.txt") (lit "octet")) = tftp.Return p
             /\ tftp.ParseRRQ p = tftp.Ok (tftp.mkRRQ (lit "test.txt") (lit "octet")))
  /\ (exists p, tftp.Serialize (tftp.mkWRQ (lit "test.txt") (lit "octet")) = tftp.Return p
                /\ tftp.ParseWRQ p = tftp.Ok (tftp.mkWRQ (lit "test.txt") (lit "octet")))
  /\ (exists p, tftp.Serialize (tftp.mkDATA 42 (lit "Hello, TFTP!")) = tftp.Return p
                /\ tftp.ParseDATA p = tftp.Ok (tftp.mkDATA 42 (lit "Hello, TFTP!")))
  /\ (exists p, tftp.Serialize (tftp.mkACK 42) = tftp.Return p
                /\ tftp.ParseACK p = tftp.Ok (tftp.mkACK 42))
  /\ (exists p, tftp.Serialize (tftp.mkERROR 2 (lit "Access violation")) = tftp.Return p
                /\ tftp.ParseERROR p = tftp.Ok (tftp.mkERROR 2 (lit "Access violation"))).
Proof.
  apply (codec_round_trip (lit "test.txt") (lit "octet") (lit "Access violation")
                          (lit "Hello, TFTP!") 42 2).
  - reflexivity.
  - repeat constructor; discriminate.
  - repeat constructor; discriminate.
  - lia.
  - lia.
  - simpl. lia.
Defined.

(** ** Rejection of short buffers *)

Lemma ParseRRQ_short (p : bytes) : len p < 2 -> tftp.ParseRRQ p = tftp.Err tftp.ErrInvalidOpcode.
Proof.
  intros H. unfold tftp.ParseRRQ. apply Z.ltb_lt in H. now rewrite H.
Qed.

Lemma ParseWRQ_short (p : bytes) : len p < 2 -> tftp.ParseWRQ p = tftp.Err tftp.ErrInvalidOpcode.
Proof.
  intros H. unfold tftp.ParseWRQ. apply Z.ltb_lt in H. now rewrite H.
Qed.

Lemma unpackRQ_short (p : bytes) : len p < 4 -> tftp.unpackRQ p = tftp.Err tftp.ErrPacketTooShort.
Proof.
  intros H. unfold tftp.unpackRQ. apply Z.ltb_lt in H. now rewrite H.
Qed.

(** C7 (minimum lengths), as the code has it.  A data or acknowledgment
    buffer of fewer than 4 bytes and an error buffer of fewer than 5 bytes
    fail with [ErrPacketTooShort] whatever they contain.  A request buffer of
    fewer than 2 bytes fails with [ErrInvalidOpcode]; one of 2 or 3 bytes
    fails with [ErrPacketTooShort] when its two leading bytes are the expected
    opcode and with [ErrInvalidOpcode] otherwise. *)
Theorem short_buffer_rejection (p : bytes) :
  (len p < 4 ->
     tftp.ParseDATA p = tftp.Err tftp.ErrPacketTooShort
     /\ tftp.ParseACK p = tftp.Err tftp.ErrPacketTooShort)
  /\ (len p < 5 -> tftp.ParseERROR p = tftp.Err tftp.ErrPacketTooShort)
  /\ (len p < 2 ->
        tftp.ParseRRQ p = tftp.Err tftp.ErrInvalidOpcode
        /\ tftp.ParseWRQ p = tftp.Err tftp.ErrInvalidOpcode)
  /\ (2 <= len p < 4 ->
        tftp.ParseRRQ p =
          (if BigEndian.Uint16 (slice p 0 2) =? tftp.RRQ
           then tftp.Err tftp.ErrPacketTooShort else tftp.Err tftp.ErrInvalidOpcode)
        /\ tftp.ParseWRQ p =
          (if BigEndian.Uint16 (slice p 0 2) =? tftp.WRQ
           then tftp.Err tftp.ErrPacketTooShort else tftp.Err tftp.ErrInvalidOpcode)).
Proof.
  repeat split.
  - unfold tftp.ParseDATA. apply Z.ltb_lt in H. now rewrite H.
  - unfold tftp.ParseACK. apply Z.ltb_lt in H. now rewrite H.
  - intros H. unfold tftp.ParseERROR. apply Z.ltb_lt in H. now rewrite H.
  - now apply ParseRRQ_short.
  - now apply ParseWRQ_short.
  - unfold tftp.ParseRRQ. rewrite unpackRQ_short by lia.
    replace (len p <? 2) with false by (symmetry; apply Z.ltb_ge; lia).
    now destruct (_ =? _).
  - unfold tftp.ParseWRQ. rewrite unpackRQ_short by lia.
    replace (len p <? 2) with false by (symmetry; apply Z.ltb_ge; lia).
    now destruct (_ =? _).
Qed.

Lemma short_buffer_rejection_witness :
  tftp.ParseDATA [x00; x03] = tftp.Err tftp.ErrPacketTooShort
  /\ tftp.ParseACK [x00; x04] = tftp.Err tftp.ErrPacketTooShort
  /\ tftp.ParseERROR [x00; x05] = tftp.Err tftp.ErrPacketTooShort
  /\ tftp.ParseRRQ [x00; x01] = tftp.Err tftp.ErrPacketTooShort
  /\ tftp.ParseRRQ [x01] = tftp.Err tftp.ErrInvalidOpcode.
Proof.
  assert (Hlen : forall a b : byte, len [a; b] = 2) by reflexivity.
  split; [|split; [|split; [|split]]].
  - destruct (short_buffer_rejection [x00; x03]) as (H & _).
    apply H. rewrite Hlen. lia.
  - destruct (short_buffer_rejection [x00; x04]) as (H & _).
    apply H. rewrite Hlen. lia.
  - destruct (short_buffer_rejection [x00; x05]) as (_ & H & _).
    apply H. rewrite Hlen. lia.
  - destruct (short_buffer_rejection [x00; x01]) as (_ & _ & _ & H).
    destruct H as [H _]; [rewrite Hlen; lia | exact H].
  - destruct (short_buffer_rejection [x01]) as (_ & _ & H & _).
    apply H. change (len [x01]) with 1. lia.
Defined.

(** C7 as stated fails for requests: a 2-byte buffer whose opcode is not the
    expected one, and a buffer shorter than the opcode, are rejected with
    [ErrInvalidOpcode], not with [ErrPacketTooShort]. *)
Lemma short_request_not_TooShort :
  tftp.ParseRRQ [x00; x02] = tftp.Err tftp.ErrInvalidOpcode
  /\ tftp.ParseRRQ [x00; x02] <> tftp.Err tftp.ErrPacketTooShort
  /\ tftp.ParseRRQ [] = tftp.Err tftp.ErrInvalidOpcode
  /\ tftp.ParseRRQ [] <> tftp.Err tftp.ErrPacketTooShort.
Proof. repeat split; discriminate. Qed.

(** ** The layout the request decoder accepts *)

Lemma ParseRRQ_Ok (data filename mode : bytes) :
  tftp.ParseRRQ data = tftp.Ok (tftp.mkRRQ filename mode) ->
  exists rest,
    data = BigEndian.PutUint16 tftp.RRQ ++ filename ++ x00 :: mode ++ x00 :: rest
    /\ NoNUL filename /\ NoNUL mode.
Proof.
  unfold tftp.ParseRRQ.
  destruct (len data <? 2) eqn:Hl; [discriminate|]. cbn [orb].
  destruct (BigEndian.Uint16 (slice data 0 2) =? tftp.RRQ) eqn:Hop; [|discriminate].
  cbn [negb].
  destruct (tftp.unpackRQ data) as [[f m]|e] eqn:Hu; [|discriminate].
  intros H. injection H as -> ->.
  destruct (unpackRQ_Ok _ _ _ Hu) as (b0 & b1 & rest & -> & Hf & Hm).
  apply Z.eqb_eq in Hop. rewrite slice_0 in Hop. cbn [firstn] in Hop.
  apply opcode_bytes in Hop.
  exists rest. repeat split; try assumption.
  change (b0 :: b1 :: filename ++ x00 :: mode ++ x00 :: rest)
    with ([b0; b1] ++ filename ++ x00 :: mode ++ x00 :: rest).
  now rewrite Hop.
Qed.

Lemma ParseWRQ_Ok (data filename mode : bytes) :
  tftp.ParseWRQ data = tftp.Ok (tftp.mkWRQ filename mode) ->
  exists rest,
    data = BigEndian.PutUint16 tftp.WRQ ++ filename ++ x00 :: mode ++ x00 :: rest
    /\ NoNUL filename /\ NoNUL mode.
Proof.
  unfold tftp.ParseWRQ.
  destruct (len data <? 2) eqn:Hl; [discriminate|]. cbn [orb].
  destruct (BigEndian.Uint16 (slice data 0 2) =? tftp.WRQ) eqn:Hop; [|discriminate].
  cbn [negb].
  destruct (tftp.unpackRQ data) as [[f m]|e] eqn:Hu; [|discriminate].
  intros H. injection H as -> ->.
  destruct (unpackRQ_Ok _ _ _ Hu) as (b0 & b1 & rest & -> & Hf & Hm).
  apply Z.eqb_eq in Hop. rewrite slice_0 in Hop. cbn [firstn] in Hop.
  apply opcode_bytes in Hop.
  exists rest. repeat split; try assumption.
  change (b0 :: b1 :: filename ++ x00 :: mode ++ x00 :: rest)
    with ([b0; b1] ++ filename ++ x00 :: mode ++ x00 :: rest).
  now rewrite Hop.
Qed.

(** C8 (request well-formedness), as the code has it.  A buffer decodes as a
    read (write) request with filename [f] and mode [m] exactly when it is the
    opcode, [f], a NUL, [m], a NUL and then any bytes at all, with [f] and [m]
    free of NUL: the bytes that follow the mode's terminator are ignored. *)
Theorem request_decoding_layout (data filename mode : bytes) :
  (tftp.ParseRRQ data = tftp.Ok (tftp.mkRRQ filename mode) <->
   exists rest,
     data = BigEndian.PutUint16 tftp.RRQ ++ filename ++ x00 :: mode ++ x00 :: rest
     /\ NoNUL filename /\ NoNUL mode)
  /\ (tftp.ParseWRQ data = tftp.Ok (tftp.mkWRQ filename mode) <->
      exists rest,
        data = BigEndian.PutUint16 tftp.WRQ ++ filename ++ x00 :: mode ++ x00 :: rest
        /\ NoNUL filename /\ NoNUL mode).
Proof.
  split; split.
  - apply ParseRRQ_Ok.
  - intros (rest & -> & Hf & Hm). now apply ParseRRQ_layout.
  - apply ParseWRQ_Ok.
  - intros (rest & -> & Hf & Hm). now apply ParseWRQ_layout.
Qed.

Lemma request_decoding_layout_witness :
  tftp.ParseRRQ (BigEndian.PutUint16 tftp.RRQ ++ lit "file" ++ x00 :: lit "octet" ++ x00 :: lit "blksize")
  = tftp.Ok (tftp.mkRRQ (lit "file") (lit "octet")).
Proof.
  apply (request_decoding_layout
           (BigEndian.PutUint16 tftp.RRQ ++ lit "file" ++ x00 :: lit "octet" ++ x00 :: lit "blksize")
           (lit "file") (lit "octet")).
  exists (lit "blksize").
  split; [reflexivity|]. split; repeat constructor; discriminate.
Defined.

(** C8 as stated fails: a buffer with bytes after the mode's terminator is
    accepted as a request. *)
Lemma trailing_bytes_accepted :
  tftp.ParseRRQ ([x00; x01] ++ lit "f" ++ [x00] ++ lit "octet" ++ [x00] ++ lit "xy")
  = tftp.Ok (tftp.mkRRQ (lit "f") (lit "octet")).
Proof. reflexivity. Qed.

(** ** Encoding never fails, except for a request with an unknown mode *)

Lemma packRQ_Panic (opcode : Z) (filename mode : bytes) :
  (exists msg, tftp.packRQ opcode filename mode = tftp.Panic msg) <->
  ~ (mode = tftp.ModeNetascii \/ mode = tftp.ModeOctet \/ mode = tftp.ModeMail).
Proof.
  rewrite <- isValidMode_cases. unfold tftp.packRQ.
  destruct (tftp.isValidMode mode); cbn [negb]; split.
  - intros [msg H]. discriminate.
  - intros H. now contradiction H.
  - intros _. discriminate.
  - intros _. eexists. reflexivity.
Qed.

Lemma packRQ_Return (opcode : Z) (filename mode : bytes) :
  mode = tftp.ModeNetascii \/ mode = tftp.ModeOctet \/ mode = tftp.ModeMail ->
  tftp.packRQ opcode filename mode
  = tftp.Return (BigEndian.PutUint16 opcode ++ filename ++ [x00] ++ mode ++ [x00]).
Proof.
  intros H. apply isValidMode_cases in H. unfold tftp.packRQ. now rewrite H.
Qed.

(** C9 (encode totality and precondition).  Serialising a data, an
    acknowledgment or an error packet returns for every field value.
    Serialising a read or write request panics exactly when the mode is none
    of [netascii], [octet], [mail]; with one of these it returns the
    encoding. *)
Theorem encode_totality :
  (forall p : tftp.DataPacket, exists b, tftp.Serialize p = tftp.Return b)
  /\ (forall p : tftp.AckPacket, exists b, tftp.Serialize p = tftp.Return b)
  /\ (forall p : tftp.ErrorPacket, exists b, tftp.Serialize p = tftp.Return b)
  /\ (forall rq : tftp.ReadRequest,
        ((exists msg, tftp.Serialize rq = tftp.Panic msg) <->
         ~ (tftp.rrq_Mode rq = tftp.ModeNetascii \/ tftp.rrq_Mode rq = tftp.ModeOctet
            \/ tftp.rrq_Mode rq = tftp.ModeMail))
        /\ (tftp.rrq_Mode rq = tftp.ModeNetascii \/ tftp.rrq_Mode rq = tftp.ModeOctet
            \/ tftp.rrq_Mode rq = tftp.ModeMail ->
            exists b, tftp.Serialize rq = tftp.Return b))
  /\ (forall wr : tftp.WriteRequest,
        ((exists msg, tftp.Serialize wr = tftp.Panic msg) <->
         ~ (tftp.wrq_Mode wr = tftp.ModeNetascii \/ tftp.wrq_Mode wr = tftp.ModeOctet
            \/ tftp.wrq_Mode wr = tftp.ModeMail))
        /\ (tftp.wrq_Mode wr = tftp.ModeNetascii \/ tftp.wrq_Mode wr = tftp.ModeOctet
            \/ tftp.wrq_Mode wr = tftp.ModeMail ->
            exists b, tftp.Serialize wr = tftp.Return b)).
Proof.
  split; [|split; [|split; [|split]]].
  - intros p. eexists. reflexivity.
  - intros p. eexists. reflexivity.
  - intros p. eexists. reflexivity.
  - intros [f m]. cbn. split; [apply packRQ_Panic|].
    intros H. eexists. now apply packRQ_Return.
  - intros [f m]. cbn. split; [apply packRQ_Panic|].
    intros H. eexists. now apply packRQ_Return.
Qed.

Lemma encode_totality_witness :
  (exists b, tftp.Serialize (tftp.mkRRQ (lit "file") (lit "netascii")) = tftp.Return b)
  /\ (exists msg, tftp.Serialize (tftp.mkRRQ (lit "file") (lit "binary")) = tftp.Panic msg).
Proof.
  destruct encode_totality as (_ & _ & _ & H & _).
  split.
  - apply (H (tftp.mkRRQ (lit "file") (lit "netascii"))). left. reflexivity.
  - apply (H (tftp.mkRRQ (lit "file") (lit "binary"))).
    cbn. intros [E | [E | E]]; discriminate E.
Defined.

(** ** The send loop *)

Section SendLoop.

Import server.

Variables (block : Z) (dataPacket : bytes).

Lemma sendLoop_exhausted (evs : list io_event) (retries : Z) :
  MaxRetries <= retries ->
  sendLoop evs block dataPacket retries = ([], LoopEnd retries, evs).
Proof.
  intros H. apply Z.ltb_ge in H.
  destruct evs; cbn [sendLoop]; now rewrite H.
Qed.

Lemma sendLoop_nil (retries : Z) :
  retries < MaxRetries ->
  sendLoop [] block dataPacket retries = ([], LoopBlocked retries, []).
Proof. intros H. apply Z.ltb_lt in H. cbn [sendLoop]. now rewrite H. Qed.

Lemma sendLoop_WriteFails (evs : list io_event) (retries : Z) :
  retries < MaxRetries ->
  sendLoop (WriteFails :: evs) block dataPacket retries
  = ([], LoopReturn WriteError, evs).
Proof. intros H. apply Z.ltb_lt in H. cbn [sendLoop]. now rewrite H. Qed.

Lemma sendLoop_ReadFails (evs : list io_event) (retries : Z) :
  retries < MaxRetries ->
  sendLoop (ReadFails :: evs) block dataPacket retries
  = ([Write dataPacket], LoopReturn RecvError, evs).
Proof. intros H. apply Z.ltb_lt in H. cbn [sendLoop]. now rewrite H. Qed.

Lemma sendLoop_Timeout (evs : list io_event) (retries : Z) :
  retries < MaxRetries ->
  sendLoop (Timeout :: evs) block dataPacket retries
  = after (Write dataPacket) (sendLoop evs block dataPacket (retries + 1)).
Proof. intros H. apply Z.ltb_lt in H. cbn [sendLoop]. now rewrite H. Qed.

Lemma sendLoop_discard (d : bytes) (evs : list io_event) (retries : Z) :
  retries < MaxRetries ->
  matching_ack block d = false ->
  sendLoop (Datagram d :: evs) block dataPacket retries
  = after (Write dataPacket) (sendLoop evs block dataPacket retries).
Proof.
  intros H Hd. apply Z.ltb_lt in H. cbn [sendLoop]. rewrite H. cbn [negb].
  unfold matching_ack in Hd.
  destruct (ReadFrom4 d) as [n ackBuf].
  destruct (n =? 4); cbn [negb andb] in *; [|reflexivity].
  destruct (tftp.ParseACK ackBuf) as [a|e]; [|reflexivity].
  now rewrite Hd.
Qed.

Lemma sendLoop_match (d : bytes) (evs : list io_event) (retries : Z) :
  retries < MaxRetries ->
  matching_ack block d = true ->
  sendLoop (Datagram d :: evs) block dataPacket retries
  = ([Write dataPacket], LoopEnd retries, evs).
Proof.
  intros H Hd. apply Z.ltb_lt in H. cbn [sendLoop]. rewrite H. cbn [negb].
  unfold matching_ack in Hd.
  destruct (ReadFrom4 d) as [n ackBuf].
  destruct (n =? 4); cbn [negb andb] in *; [|discriminate].
  destruct (tftp.ParseACK ackBuf) as [a|e]; [|discriminate].
  now rewrite Hd.
Qed.

(** A quiet event costs one pass of the loop: the data packet is written
    again, and only a timeout is counted against the retries. *)
Lemma sendLoop_quiet (ev : io_event) (evs : list io_event) (retries : Z) :
  retries < MaxRetries ->
  quiet block ev = true ->
  sendLoop (ev :: evs) block dataPacket retries
  = after (Write dataPacket)
      (sendLoop evs block dataPacket (retries + Z.of_nat (timeouts [ev]))).
Proof.
  intros H Hq. destruct ev as [| | |d]; try discriminate.
  - now rewrite sendLoop_Timeout.
  - cbn in Hq. apply negb_true_iff in Hq.
    rewrite sendLoop_discard by assumption.
    unfold timeouts. cbn. now rewrite Z.add_0_r.
Qed.

Lemma timeouts_cons (ev : io_event) (evs : list io_event) :
  timeouts (ev :: evs) = (timeouts [ev] + timeouts evs)%nat.
Proof. unfold timeouts. cbn. now destruct (is_timeout ev). Qed.

Lemma timeouts_app (q evs : list io_event) :
  timeouts (q ++ evs) = (timeouts q + timeouts evs)%nat.
Proof. unfold timeouts. now rewrite filter_app, length_app. Qed.

Lemma writes_spec (k : nat) (tr : list action) (ex : loop_exit) (rest : list io_event) :
  writes dataPacket k (tr, ex, rest) = (repeat (Write dataPacket) k ++ tr, ex, rest).
Proof.
  induction k as [|k IH]; cbn [writes repeat app]; [reflexivity|].
  now rewrite IH.
Qed.

(** A run of quiet events that leaves the retry budget unspent is consumed
    whole, one write per event. *)
Lemma sendLoop_quiet_run (q evs : list io_event) (retries : Z) :
  forallb (quiet block) q = true ->
  retries + Z.of_nat (timeouts q) < MaxRetries ->
  sendLoop (q ++ evs) block dataPacket retries
  = writes dataPacket (length q)
      (sendLoop evs block dataPacket (retries + Z.of_nat (timeouts q))).
Proof.
  revert retries. induction q as [|ev q IH]; intros retries Hq Hr.
  - cbn. unfold timeouts. cbn. now rewrite Z.add_0_r.
  - cbn [forallb] in Hq. apply andb_true_iff in Hq as [Hev Hq].
    rewrite timeouts_cons in Hr |- *.
    cbn [app length writes].
    rewrite sendLoop_quiet by (assumption || lia).
    rewrite IH by (assumption || lia).
    do 3 f_equal. lia.
Qed.

End SendLoop.

Lemma ReadFrom4_long (d : bytes) :
  4 <= len d -> server.ReadFrom4 d = (4, firstn 4 d).
Proof.
  intros H. unfold server.ReadFrom4. unfold len in *.
  rewrite Z.min_r by lia. f_equal.
  rewrite firstn_app.
  replace (4 - length d)%nat with 0%nat by lia.
  cbn [firstn]. apply app_nil_r.
Qed.

Lemma ReadFrom4_short (d : bytes) :
  len d < 4 -> fst (server.ReadFrom4 d) = len d.
Proof. intros H. unfold server.ReadFrom4. cbn [fst]. lia. Qed.

Lemma not_matching_ack_false (block : Z) (d : bytes) :
  not_matching_ack block d -> matching_ack block d = false.
Proof.
  intros H. unfold matching_ack.
  destruct (Z.lt_ge_cases (len d) 4) as [Hs|Hl].
  - pose proof (ReadFrom4_short d Hs) as Hn.
    destruct (server.ReadFrom4 d) as [n ackBuf]. cbn [fst] in Hn. subst n.
    replace (len d =? 4) with false by (symmetry; apply Z.eqb_neq; lia).
    reflexivity.
  - rewrite ReadFrom4_long by assumption. cbn [Z.eqb Pos.eqb andb].
    destruct H as [H | [[e H] | (a & H & Hb)]].
    + lia.
    + now rewrite H.
    + rewrite H. now apply Z.eqb_neq.
Qed.

Lemma matching_ack_false (block : Z) (d : bytes) :
  matching_ack block d = false -> not_matching_ack block d.
Proof.
  unfold matching_ack, not_matching_ack. intros H.
  destruct (Z.lt_ge_cases (len d) 4) as [Hs|Hl]; [now left|right].
  rewrite ReadFrom4_long in H by assumption. cbn [Z.eqb Pos.eqb andb] in H.
  destruct (tftp.ParseACK (firstn 4 d)) as [a|e].
  - right. exists a. split; [reflexivity|]. now apply Z.eqb_neq.
  - left. now exists e.
Qed.

Lemma matching_ack_PackACK (block : Z) :
  0 <= block < 65536 -> matching_ack block (tftp.PackACK block) = true.
Proof.
  intros H. unfold matching_ack.
  rewrite ReadFrom4_long by (unfold len; simpl; lia).
  change (firstn 4 (tftp.PackACK block)) with (tftp.PackACK block).
  rewrite ParseACK_PackACK. cbn [tftp.ack_Block Z.eqb Pos.eqb andb].
  rewrite wrap16_small by assumption. apply Z.eqb_refl.
Qed.

Lemma after_trace (a : server.action) (r : server.loop_result) :
  fst (fst (server.after a r)) = a :: fst (fst r).
Proof. now destruct r as [[tr ex] rest]. Qed.

(** A pass whose write does not fail has written the data packet before it
    reads. *)
Lemma sendLoop_first_write (block retries : Z) (dataPacket : bytes)
      (ev : server.io_event) (evs : list server.io_event) :
  retries < server.MaxRetries ->
  ev <> server.WriteFails ->
  exists tr,
    fst (fst (server.sendLoop (ev :: evs) block dataPacket retries))
    = server.Write dataPacket :: tr.
Proof.
  intros Hr Hev. destruct ev as [| | |d].
  - contradiction.
  - rewrite sendLoop_Timeout, after_trace by assumption. eauto.
  - rewrite sendLoop_ReadFails by assumption. cbn [fst]. eauto.
  - destruct (matching_ack block d) eqn:Hd.
    + rewrite sendLoop_match by assumption. cbn [fst]. eauto.
    + rewrite sendLoop_discard, after_trace by assumption. eauto.
Qed.

(** C4 (ack mismatch tolerance), as the code has it.  While the loop awaits
    the acknowledgment of [block] with retries left, a datagram of fewer than
    four bytes, or one whose first four bytes do not decode as an
    acknowledgment or decode with another block number, is discarded: the
    loop goes on to its next pass with the same retry count and the same
    block number, and that pass, unless its write fails, writes the data
    packet again before it waits.  Every other datagram, one longer than four
    bytes that begins with the awaited acknowledgment included, is taken as
    the acknowledgment and ends the loop. *)
Theorem ack_mismatch_tolerance (block retries : Z) (dataPacket d : bytes)
        (evs : list server.io_event) :
  retries < server.MaxRetries ->
  (not_matching_ack block d ->
   server.sendLoop (server.Datagram d :: evs) block dataPacket retries
   = server.after (server.Write dataPacket)
       (server.sendLoop evs block dataPacket retries))
  /\ (not_matching_ack block d ->
      forall ev evs',
        evs = ev :: evs' ->
        ev <> server.WriteFails ->
        exists tr,
          fst (fst (server.sendLoop (server.Datagram d :: evs) block dataPacket retries))
          = server.Write dataPacket :: server.Write dataPacket :: tr)
  /\ (~ not_matching_ack block d ->
      server.sendLoop (server.Datagram d :: evs) block dataPacket retries
      = ([server.Write dataPacket], server.LoopEnd retries, evs)).
Proof.
  intros Hr. split; [|split].
  - intros Hd. apply sendLoop_discard; [assumption|].
    now apply not_matching_ack_false.
  - intros Hd ev evs' -> Hev.
    rewrite sendLoop_discard, after_trace
      by (assumption || now apply not_matching_ack_false).
    destruct (sendLoop_first_write block retries dataPacket ev evs' Hr Hev) as [tr ->].
    eauto.
  - intros Hd. apply sendLoop_match; [assumption|].
    destruct (matching_ack block d) eqn:E; [reflexivity|].
    contradiction Hd. now apply matching_ack_false.
Qed.

(** The acknowledgment of block 6 arrives while block 7 is awaited. *)
Lemma ack_mismatch_tolerance_witness :
  server.sendLoop [server.Datagram (tftp.PackACK 6); server.Datagram (tftp.PackACK 7)]
                  7 (tftp.PackDATA 7 (lit "data")) 2
  = server.after (server.Write (tftp.PackDATA 7 (lit "data")))
      (server.sendLoop [server.Datagram (tftp.PackACK 7)] 7 (tftp.PackDATA 7 (lit "data")) 2)
  /\ exists tr,
      fst (fst (server.sendLoop
                  [server.Datagram (tftp.PackACK 6); server.Datagram (tftp.PackACK 7)]
                  7 (tftp.PackDATA 7 (lit "data")) 2))
      = server.Write (tftp.PackDATA 7 (lit "data"))
          :: server.Write (tftp.PackDATA 7 (lit "data")) :: tr.
Proof.
  assert (Hstale : not_matching_ack 7 (tftp.PackACK 6)).
  { right. right. exists (tftp.mkACK 6). split; [reflexivity|]. cbn. lia. }
  destruct (ack_mismatch_tolerance 7 2 (tftp.PackDATA 7 (lit "data")) (tftp.PackACK 6)
              [server.Datagram (tftp.PackACK 7)]) as (H1 & H2 & _).
  - unfold server.MaxRetries. lia.
  - split.
    + apply H1. exact Hstale.
    + apply (H2 Hstale (server.Datagram (tftp.PackACK 7)) []); [reflexivity | discriminate].
Defined.

(** C4 as stated fails.  A datagram of eight bytes that begins with the
    acknowledgment of block 7 is no 4-byte acknowledgment, yet while block 7
    is awaited the loop takes it as the acknowledgment instead of discarding
    it, and the transfer moves on to block 8.  Nor is a discarded datagram
    passed over in silence: the stale acknowledgment of block 6 is followed
    by a second copy of block 7. *)
Lemma long_datagram_taken_as_ack :
  not_a_four_byte_ack 7 (tftp.PackACK 7 ++ lit "junk")
  /\ server.sendLoop [server.Datagram (tftp.PackACK 7 ++ lit "junk"); server.Timeout]
                     7 (tftp.PackDATA 7 (lit "data")) 0
     = ([server.Write (tftp.PackDATA 7 (lit "data"))], server.LoopEnd 0, [server.Timeout])
  /\ server.sendLoop [server.Datagram (tftp.PackACK 7 ++ lit "junk"); server.Timeout]
                     7 (tftp.PackDATA 7 (lit "data")) 0
     <> server.after (server.Write (tftp.PackDATA 7 (lit "data")))
          (server.sendLoop [server.Timeout] 7 (tftp.PackDATA 7 (lit "data")) 0)
  /\ server.transferLoop 3 (server.mkFile (repeat "a"%byte 512) None) 7
       [server.Datagram (tftp.PackACK 7 ++ lit "junk"); server.Datagram (tftp.PackACK 8)]
     = ([server.Write (tftp.PackDATA 7 (repeat "a"%byte 512));
         server.Write (tftp.PackDATA 8 [])],
        server.Completed 9)
  /\ server.sendLoop [server.Datagram (tftp.PackACK 6); server.Timeout]
                     7 (tftp.PackDATA 7 (lit "data")) 0
     = ([server.Write (tftp.PackDATA 7 (lit "data"));
         server.Write (tftp.PackDATA 7 (lit "data"))],
        server.LoopBlocked 1, []).
Proof.
  split; [|split; [|split; [|split]]].
  - left. unfold len. cbn. lia.
  - reflexivity.
  - discriminate.
  - reflexivity.
  - reflexivity.
Qed.

(** ** How long the send loop runs *)

Lemma sendLoop_strays (k : nat) (block retries : Z) (dataPacket d : bytes) :
  retries < server.MaxRetries ->
  matching_ack block d = false ->
  server.sendLoop (repeat (server.Datagram d) k) block dataPacket retries
  = (repeat (server.Write dataPacket) k, server.LoopBlocked retries, []).
Proof.
  intros Hr Hd. induction k as [|k IH]; cbn [repeat].
  - now apply sendLoop_nil.
  - rewrite sendLoop_discard, IH by assumption. reflexivity.
Qed.

Lemma first_events_const (ev : server.io_event) (k : nat) :
  first_events (fun _ => ev) k = repeat ev k.
Proof.
  unfold first_events. generalize 0%nat.
  induction k as [|k IH]; intros s; cbn [seq map repeat]; [reflexivity|].
  now rewrite IH.
Qed.

(** C6 as stated fails: while block 1 is awaited, an unending sequence of
    acknowledgments of block 0 keeps the send loop running; after any number
    of them the loop has not ended and no retry has been counted. *)
Lemma stray_acks_prolong_sendLoop : ~ sendLoop_always_terminates.
Proof.
  intros H.
  destruct (H (fun _ => server.Datagram (tftp.PackACK 0)) 1 (tftp.PackDATA 1 [])) as [k Hk].
  rewrite first_events_const in Hk.
  rewrite sendLoop_strays in Hk; [discriminate | reflexivity | reflexivity].
Qed.

Lemma discards_cons (block : Z) (ev : server.io_event) (evs : list server.io_event) :
  discards block (ev :: evs) = (discards block [ev] + discards block evs)%nat.
Proof. unfold discards. cbn. now destruct (is_discard block ev). Qed.

Lemma loop_running_after (a : server.action) (r : server.loop_result) :
  loop_running (server.after a r) = loop_running r.
Proof. destruct r as [[tr ex] rest]. reflexivity. Qed.

Lemma sendLoop_exits (evs : list server.io_event) (block retries : Z) (dataPacket : bytes) :
  0 <= retries ->
  (Z.to_nat (server.MaxRetries - retries) + discards block evs <= length evs)%nat ->
  loop_running (server.sendLoop evs block dataPacket retries) = false.
Proof.
  revert retries. induction evs as [|ev evs IH]; intros retries H0 H.
  - cbn [length] in H.
    rewrite sendLoop_exhausted; [reflexivity|]. unfold server.MaxRetries in *. lia.
  - destruct (Z.lt_ge_cases retries server.MaxRetries) as [Hlt|Hge].
    2:{ now rewrite sendLoop_exhausted. }
    rewrite discards_cons in H. cbn [length] in H.
    destruct ev as [| | |d].
    + now rewrite sendLoop_WriteFails.
    + rewrite sendLoop_Timeout, loop_running_after by assumption.
      change (discards block [server.Timeout]) with 0%nat in H.
      apply IH; unfold server.MaxRetries in *; lia.
    + now rewrite sendLoop_ReadFails.
    + destruct (matching_ack block d) eqn:Hd.
      * now rewrite sendLoop_match.
      * rewrite sendLoop_discard, loop_running_after by assumption.
        assert (Hone : discards block [server.Datagram d] = 1%nat).
        { unfold discards. cbn [filter is_discard]. now rewrite Hd. }
        rewrite Hone in H.
        apply IH; unfold server.MaxRetries in *; lia.
Qed.

Lemma sendLoop_trace_length (evs : list server.io_event) (block retries : Z) (dataPacket : bytes) :
  (length (fst (fst (server.sendLoop evs block dataPacket retries))) <= length evs)%nat.
Proof.
  revert retries. induction evs as [|ev evs IH]; intros retries.
  - cbn [server.sendLoop]. now destruct (negb _).
  - cbn [server.sendLoop]. destruct (negb _); [cbn; lia|].
    assert (Hafter : forall r,
               (length (fst (fst (server.sendLoop evs block dataPacket r))) <= length evs)%nat ->
               (length (fst (fst (server.after (server.Write dataPacket)
                                   (server.sendLoop evs block dataPacket r))))
                <= length (ev :: evs))%nat).
    { intros r Hr. destruct (server.sendLoop evs block dataPacket r) as [[tr ex] rest].
      cbn in *. lia. }
    destruct ev as [| | |d]; try (cbn; lia).
    + apply Hafter, IH.
    + destruct (server.ReadFrom4 d) as [n ackBuf].
      destruct (negb (n =? 4)); [apply Hafter, IH|].
      destruct (tftp.ParseACK ackBuf) as [a|e]; [|apply Hafter, IH].
      destruct (negb _); [apply Hafter, IH | cbn; lia].
Qed.

(** C6 (bounded blocking), as the code has it.  Every pass of the send loop
    takes one I/O outcome (one write and one bounded wait) and writes at most
    one packet.  The loop ends at a write or read failure, at a matching
    acknowledgment, or when [MaxRetries] timeouts have been counted; a
    discarded datagram adds a pass without being counted, so the loop has
    ended once the outcomes given number [MaxRetries] more than the discarded
    datagrams among them. *)
Theorem sendLoop_bounded_by_discards (evs : list server.io_event) (block : Z)
        (dataPacket : bytes) :
  (Z.to_nat server.MaxRetries + discards block evs <= length evs)%nat ->
  loop_running (server.sendLoop evs block dataPacket 0) = false
  /\ (length (fst (fst (server.sendLoop evs block dataPacket 0))) <= length evs)%nat.
Proof.
  intros H. split.
  - apply sendLoop_exits; [lia|]. now rewrite Z.sub_0_r.
  - apply sendLoop_trace_length.
Qed.

(** One stray acknowledgment among three timeouts: four outcomes end the
    loop. *)
Lemma sendLoop_bounded_by_discards_witness :
  loop_running
    (server.sendLoop [server.Timeout; server.Datagram (tftp.PackACK 0); server.Timeout;
                      server.Timeout]
                     1 (tftp.PackDATA 1 []) 0) = false
  /\ (length (fst (fst (server.sendLoop
                          [server.Timeout; server.Datagram (tftp.PackACK 0); server.Timeout;
                           server.Timeout]
                          1 (tftp.PackDATA 1 []) 0))) <= 4)%nat.
Proof.
  apply (sendLoop_bounded_by_discards
           [server.Timeout; server.Datagram (tftp.PackACK 0); server.Timeout; server.Timeout]
           1 (tftp.PackDATA 1 [])).
  vm_compute. lia.
Defined.

(** ** The transfer loop *)

Section TransferLoop.

Import server.

Lemma transferLoop_step (fuel : nat) (file file' : File) (block : Z) (chunk : bytes)
      (evs : list io_event) :
  file_Read file = (Some chunk, file') ->
  transferLoop (S fuel) file block evs
  = match sendLoop evs block (tftp.PackDATA block chunk) 0 with
    | (tr, LoopReturn why, _) => (tr, why)
    | (tr, LoopBlocked retries, _) => (tr, Blocked block retries)
    | (tr, LoopEnd retries, evs') =>
        match afterLoop retries block (len chunk) with
        | TailNoAck =>
            (tr ++ sendError tftp.ErrNotDefined (lit "Transfer failed: no ACK"), NoAck)
        | TailCompleted block' => (tr, Completed block')
        | TailNext block' =>
            let '(tr', out) := transferLoop fuel file' block' evs' in
            (tr ++ tr', out)
        end
    end.
Proof. intros H. cbn [transferLoop]. now rewrite H. Qed.

Lemma file_Read_healthy (content : bytes) :
  file_Read (mkFile content None)
  = (Some (firstn 512 content), mkFile (skipn 512 content) None).
Proof. reflexivity. Qed.

Lemma wrap16_range (v : Z) : 0 <= wrap16 v < 65536.
Proof. unfold wrap16. apply Z.mod_pos_bound. lia. Qed.

Lemma wrap16_add_l (a c : Z) : wrap16 (wrap16 a + c) = wrap16 (a + c).
Proof. unfold wrap16. apply Zplus_mod_idemp_l. Qed.

(** A matching acknowledgment as the first outcome of a block: one write,
    and the loop is left with no retry counted. *)
Lemma sendLoop_acked (block : Z) (dataPacket : bytes) (evs : list io_event) :
  0 <= block < 65536 ->
  sendLoop (Datagram (tftp.PackACK block) :: evs) block dataPacket 0
  = ([Write dataPacket], LoopEnd 0, evs).
Proof.
  intros H. apply sendLoop_match; [reflexivity|]. now apply matching_ack_PackACK.
Qed.

Lemma transfer_full_blocks (k : nat) :
  forall (fuel : nat) (block : Z) (content : bytes),
    (k < fuel)%nat ->
    0 <= block < 65536 ->
    length content = (k * 512)%nat ->
    transferLoop fuel (mkFile content None) block (acks_from block (S k))
    = (full_blocks block k content
         ++ [Write (tftp.PackDATA (wrap16 (block + Z.of_nat k)) [])],
       Completed (wrap16 (block + Z.of_nat k + 1))).
Proof.
  induction k as [|k IH]; intros fuel block content Hfuel Hb Hlen.
  - destruct fuel as [|fuel]; [lia|].
    destruct content; [|discriminate].
    rewrite (transferLoop_step _ _ _ _ _ _ (file_Read_healthy [])).
    cbn [acks_from firstn]. rewrite sendLoop_acked by assumption.
    cbn [afterLoop full_blocks app]. rewrite Z.add_0_r.
    rewrite (wrap16_small block) by assumption.
    reflexivity.
  - destruct fuel as [|fuel]; [lia|].
    rewrite (transferLoop_step _ _ _ _ _ _ (file_Read_healthy content)).
    cbn [acks_from]. rewrite sendLoop_acked by assumption.
    assert (Hchunk : len (firstn 512 content) = 512).
    { unfold len. rewrite length_firstn. lia. }
    unfold afterLoop. rewrite Hchunk.
    change (0 >=? MaxRetries) with false. change (512 <? BlockSize) with false.
    cbv iota.
    change (Datagram (tftp.PackACK (wrap16 (block + 1)))
            :: acks_from (wrap16 (wrap16 (block + 1) + 1)) k)
      with (acks_from (wrap16 (block + 1)) (S k)).
    rewrite IH.
    + cbn [full_blocks app].
      assert (E1 : wrap16 (wrap16 (block + 1) + Z.of_nat k)
                   = wrap16 (block + Z.of_nat (S k))).
      { rewrite wrap16_add_l. f_equal. lia. }
      assert (E2 : wrap16 (wrap16 (block + 1) + Z.of_nat k + 1)
                   = wrap16 (block + Z.of_nat (S k) + 1)).
      { rewrite <- Z.add_assoc, wrap16_add_l. f_equal. lia. }
      now rewrite E1, E2.
    + lia.
    + apply wrap16_range.
    + rewrite length_skipn. lia.
Qed.

End TransferLoop.

(** ** Retry exhaustion *)

Lemma repeat_snoc {A : Type} (a : A) (n : nat) : repeat a n ++ [a] = repeat a (S n).
Proof. symmetry. apply repeat_cons. Qed.

(** C3 (retry exhaustion).  At any block of a transfer, when the outcomes up
    to the third timeout are only timeouts and datagrams that are not the
    awaited acknowledgment, the transfer writes the data packet once per
    outcome, then sends one error packet, [ErrNotDefined] with the message
    "Transfer failed: no ACK", and ends; whatever arrives later is not
    looked at and no data packet follows. *)
Theorem retry_exhaustion (fuel : nat) (file file' : server.File) (block : Z)
        (chunk : bytes) (q rest : list server.io_event) :
  server.file_Read file = (Some chunk, file') ->
  forallb (quiet block) q = true ->
  Z.of_nat (timeouts (q ++ [server.Timeout])) = server.MaxRetries ->
  server.transferLoop (S fuel) file block (q ++ server.Timeout :: rest)
  = (repeat (server.Write (tftp.PackDATA block chunk)) (length (q ++ [server.Timeout]))
       ++ [server.SendTo (tftp.PackERROR tftp.ErrNotDefined (lit "Transfer failed: no ACK"))],
     server.NoAck).
Proof.
  intros Hread Hq Ht.
  rewrite timeouts_app in Ht. change (timeouts [server.Timeout]) with 1%nat in Ht.
  unfold server.MaxRetries in Ht.
  rewrite (transferLoop_step _ _ _ _ _ _ Hread).
  rewrite sendLoop_quiet_run by (assumption || unfold server.MaxRetries; lia).
  rewrite sendLoop_Timeout by (unfold server.MaxRetries; lia).
  rewrite sendLoop_exhausted by (unfold server.MaxRetries; lia).
  cbn [server.after]. rewrite writes_spec.
  replace (0 + Z.of_nat (timeouts q) + 1) with 3 by lia.
  cbn [server.afterLoop Z.geb Z.compare Pos.compare Pos.compare_cont server.MaxRetries].
  rewrite length_app, Nat.add_1_r. cbn [length].
  now rewrite repeat_snoc.
Qed.

(** Two timeouts and a stale acknowledgment, then the third timeout; the
    matching acknowledgment that arrives afterwards is too late. *)
Lemma retry_exhaustion_witness :
  server.transferLoop 1 (server.mkFile (lit "hello") None) 1
    ([server.Timeout; server.Datagram (tftp.PackACK 0); server.Timeout]
       ++ server.Timeout :: [server.Datagram (tftp.PackACK 1)])
  = (repeat (server.Write (tftp.PackDATA 1 (lit "hello"))) 4
       ++ [server.SendTo (tftp.PackERROR tftp.ErrNotDefined (lit "Transfer failed: no ACK"))],
     server.NoAck).
Proof.
  apply (retry_exhaustion 0 (server.mkFile (lit "hello") None) (server.mkFile [] None) 1
           (lit "hello")
           [server.Timeout; server.Datagram (tftp.PackACK 0); server.Timeout]
           [server.Datagram (tftp.PackACK 1)]).
  - reflexivity.
  - reflexivity.
  - reflexivity.
Defined.

(** ** Completion is gated by the acknowledgment *)

Lemma sendLoop_LoopEnd_inv (block : Z) (dataPacket : bytes) (evs : list server.io_event) :
  forall (retries retries' : Z) (tr : list server.action) (evs' : list server.io_event),
    server.sendLoop evs block dataPacket retries = (tr, server.LoopEnd retries', evs') ->
    retries' < server.MaxRetries ->
    exists q d,
      evs = q ++ server.Datagram d :: evs'
      /\ forallb (quiet block) q = true
      /\ matching_ack block d = true
      /\ retries' = retries + Z.of_nat (timeouts q)
      /\ tr = repeat (server.Write dataPacket) (length q) ++ [server.Write dataPacket].
Proof.
  induction evs as [|ev evs IH]; intros retries retries' tr evs' H Hlt.
  - destruct (Z.lt_ge_cases retries server.MaxRetries) as [Hr|Hr].
    + rewrite sendLoop_nil in H by assumption. discriminate.
    + rewrite sendLoop_exhausted in H by assumption. injection H as <- <- <-. lia.
  - destruct (Z.lt_ge_cases retries server.MaxRetries) as [Hr|Hr].
    2:{ rewrite sendLoop_exhausted in H by assumption. injection H as <- <- <-. lia. }
    destruct ev as [| | |d].
    + rewrite sendLoop_WriteFails in H by assumption. discriminate.
    + rewrite sendLoop_Timeout in H by assumption.
      destruct (server.sendLoop evs block dataPacket (retries + 1)) as [[tr1 ex1] rest1] eqn:E.
      cbn [server.after] in H. injection H as <- -> ->.
      destruct (IH _ _ _ _ E Hlt) as (q & d & -> & Hq & Hd & -> & ->).
      exists (server.Timeout :: q), d. repeat split; try assumption.
      rewrite timeouts_cons. change (timeouts [server.Timeout]) with 1%nat. lia.
    + rewrite sendLoop_ReadFails in H by assumption. discriminate.
    + destruct (matching_ack block d) eqn:Hd.
      * rewrite sendLoop_match in H by assumption. injection H as <- <- <-.
        exists [], d. repeat split; try assumption.
        unfold timeouts. cbn. lia.
      * rewrite sendLoop_discard in H by assumption.
        destruct (server.sendLoop evs block dataPacket retries) as [[tr1 ex1] rest1] eqn:E.
        cbn [server.after] in H. injection H as <- -> ->.
        destruct (IH _ _ _ _ E Hlt) as (q & d' & -> & Hq & Hd' & -> & ->).
        exists (server.Datagram d :: q), d'. repeat split; try assumption.
        cbn [forallb quiet]. now rewrite Hd.
Qed.

Lemma sendLoop_LoopReturn_inv (block : Z) (dataPacket : bytes) (evs : list server.io_event) :
  forall (retries : Z) (why : server.outcome) (tr : list server.action)
         (evs' : list server.io_event),
    server.sendLoop evs block dataPacket retries = (tr, server.LoopReturn why, evs') ->
    why = server.WriteError \/ why = server.RecvError.
Proof.
  induction evs as [|ev evs IH]; intros retries why tr evs' H.
  - cbn [server.sendLoop] in H. destruct (negb _) in H; discriminate.
  - cbn [server.sendLoop] in H. destruct (negb _) in H; [discriminate|].
    assert (Hafter : forall r,
               server.after (server.Write dataPacket) (server.sendLoop evs block dataPacket r)
               = (tr, server.LoopReturn why, evs') ->
               why = server.WriteError \/ why = server.RecvError).
    { intros r Ha.
      destruct (server.sendLoop evs block dataPacket r) as [[t e] rr] eqn:E.
      cbn [server.after] in Ha. injection Ha as _ -> ->. now apply (IH _ _ _ _ E). }
    destruct ev as [| | |d].
    + injection H as _ <- _. now left.
    + now apply (Hafter _ H).
    + injection H as _ <- _. now right.
    + destruct (server.ReadFrom4 d) as [n ackBuf].
      destruct (negb (n =? 4)); [now apply (Hafter _ H)|].
      destruct (tftp.ParseACK ackBuf) as [a|e]; [|now apply (Hafter _ H)].
      destruct (negb _); [now apply (Hafter _ H) | discriminate].
Qed.

Lemma afterLoop_cases (retries block n : Z) :
  server.afterLoop retries block n
  = if retries >=? server.MaxRetries then server.TailNoAck
    else if n <? server.BlockSize then server.TailCompleted (wrap16 (block + 1))
         else server.TailNext (wrap16 (block + 1)).
Proof. reflexivity. Qed.

Lemma transferLoop_blocked_prefix (fuel : nat) (file file' : server.File) (block : Z)
      (chunk : bytes) (q : list server.io_event) :
  server.file_Read file = (Some chunk, file') ->
  forallb (quiet block) q = true ->
  Z.of_nat (timeouts q) < server.MaxRetries ->
  server.transferLoop (S fuel) file block q
  = (repeat (server.Write (tftp.PackDATA block chunk)) (length q),
     server.Blocked block (Z.of_nat (timeouts q))).
Proof.
  intros Hread Hq Ht.
  rewrite (transferLoop_step _ _ _ _ _ _ Hread).
  rewrite <- (app_nil_r q) at 1.
  rewrite sendLoop_quiet_run by (assumption || lia).
  rewrite sendLoop_nil by lia.
  rewrite writes_spec, app_nil_r. reflexivity.
Qed.

Lemma transferLoop_acked_prefix (fuel : nat) (file file' : server.File) (block : Z)
      (chunk : bytes) (q : list server.io_event) (d : bytes) (rest : list server.io_event) :
  server.file_Read file = (Some chunk, file') ->
  forallb (quiet block) q = true ->
  Z.of_nat (timeouts q) < server.MaxRetries ->
  matching_ack block d = true ->
  server.sendLoop (q ++ server.Datagram d :: rest) block (tftp.PackDATA block chunk) 0
  = (repeat (server.Write (tftp.PackDATA block chunk)) (length q)
       ++ [server.Write (tftp.PackDATA block chunk)],
     server.LoopEnd (Z.of_nat (timeouts q)), rest).
Proof.
  intros Hread Hq Ht Hd.
  rewrite sendLoop_quiet_run by (assumption || lia).
  rewrite sendLoop_match by (assumption || lia).
  now rewrite writes_spec.
Qed.

(** C10 (completion-check ordering), as the code has it.  A transfer that
    completes has taken a datagram that is the acknowledgment of the block it
    wrote last; that block carries fewer than 512 bytes; on the outcomes
    before that datagram the transfer is still blocked on the same block,
    with that last write not yet followed by anything; and the block counter
    has already been incremented when completion is found. *)
Theorem completion_after_ack (fuel : nat) :
  forall (file : server.File) (block : Z) (evs : list server.io_event)
         (tr : list server.action) (final : Z),
    server.transferLoop fuel file block evs = (tr, server.Completed final) ->
    exists evs0 d rest tr0 blk payload retries,
      evs = evs0 ++ server.Datagram d :: rest
      /\ matching_ack blk d = true
      /\ tr = tr0 ++ [server.Write (tftp.PackDATA blk payload)]
      /\ len payload < server.BlockSize
      /\ final = wrap16 (blk + 1)
      /\ server.transferLoop fuel file block evs0 = (tr0, server.Blocked blk retries).
Proof.
  induction fuel as [|fuel IH]; intros file block evs tr final H.
  - discriminate.
  - destruct (server.file_Read file) as [[chunk|] file'] eqn:Hread.
    2:{ cbn [server.transferLoop] in H. rewrite Hread in H. discriminate. }
    rewrite (transferLoop_step _ _ _ _ _ _ Hread) in H.
    destruct (server.sendLoop evs block (tftp.PackDATA block chunk) 0)
      as [[tr1 ex] evs'] eqn:Hloop.
    destruct ex as [retries|why|retries].
    + rewrite afterLoop_cases in H.
      destruct (retries >=? server.MaxRetries) eqn:Hret; [discriminate|].
      rewrite Z.geb_leb in Hret. apply Z.leb_gt in Hret.
      destruct (sendLoop_LoopEnd_inv _ _ _ _ _ _ _ Hloop Hret)
        as (q & d & -> & Hq & Hd & Hr & ->).
      rewrite Z.add_0_l in Hr. subst retries.
      destruct (len chunk <? server.BlockSize) eqn:Hn.
      * injection H as <- <-. apply Z.ltb_lt in Hn.
        exists q, d, evs', (repeat (server.Write (tftp.PackDATA block chunk)) (length q)),
          block, chunk, (Z.of_nat (timeouts q)).
        repeat split; try assumption.
        now apply (transferLoop_blocked_prefix _ _ file').
      * destruct (server.transferLoop fuel file' (wrap16 (block + 1)) evs')
          as [tr' out] eqn:Hrec.
        injection H as <- ->.
        destruct (IH _ _ _ _ _ Hrec)
          as (evs0 & d' & rest & tr0 & blk & payload & r & -> & Hd' & -> & Hp & -> & Hblk).
        exists (q ++ server.Datagram d :: evs0), d', rest,
          ((repeat (server.Write (tftp.PackDATA block chunk)) (length q)
              ++ [server.Write (tftp.PackDATA block chunk)]) ++ tr0),
          blk, payload, r.
        repeat split; try assumption.
        -- now rewrite <- app_assoc.
        -- now rewrite !app_assoc.
        -- rewrite (transferLoop_step _ _ _ _ _ _ Hread).
           rewrite (transferLoop_acked_prefix fuel file file') by assumption.
           rewrite afterLoop_cases.
           replace (Z.of_nat (timeouts q) >=? server.MaxRetries) with false
             by (symmetry; rewrite Z.geb_leb; apply Z.leb_gt; assumption).
           rewrite Hn, Hblk. reflexivity.
    + injection H as _ ->.
      destruct (sendLoop_LoopReturn_inv _ _ _ _ _ _ _ Hloop); discriminate.
    + discriminate.
Qed.

Lemma completion_after_ack_witness :
  exists evs0 d rest tr0 blk payload retries,
    [server.Timeout; server.Datagram (tftp.PackACK 1); server.Timeout]
    = evs0 ++ server.Datagram d :: rest
    /\ matching_ack blk d = true
    /\ [server.Write (tftp.PackDATA 1 (lit "hi")); server.Write (tftp.PackDATA 1 (lit "hi"))]
       = tr0 ++ [server.Write (tftp.PackDATA blk payload)]
    /\ len payload < server.BlockSize
    /\ 2 = wrap16 (blk + 1)
    /\ server.transferLoop 1 (server.mkFile (lit "hi") None) 1 evs0
       = (tr0, server.Blocked blk retries).
Proof.
  apply (completion_after_ack 1 (server.mkFile (lit "hi") None) 1
           [server.Timeout; server.Datagram (tftp.PackACK 1); server.Timeout]).
  reflexivity.
Defined.

(** C10 as stated fails: the short-block test comes after the increment of
    the block number, not before it.  When the empty block 1 is acknowledged
    the counter is already 2 as completion is found; with the test first it
    would still be 1. *)
Lemma completion_check_after_increment :
  server.afterLoop 0 1 0 = server.TailCompleted 2
  /\ afterLoop_check_first 0 1 0 = server.TailCompleted 1
  /\ server.afterLoop 0 1 0 <> afterLoop_check_first 0 1 0
  /\ server.transferLoop 2 (server.mkFile [] None) 1 [server.Datagram (tftp.PackACK 1)]
     = ([server.Write (tftp.PackDATA 1 [])], server.Completed 2).
Proof. repeat split. discriminate. Qed.

(** ** The fuel of the transfer loop

    Every pass of the transfer loop that goes on to a next block has taken at
    least one I/O outcome, so with more fuel than outcomes the loop never
    runs out of it, and its result does not depend on the amount. *)

Lemma transferLoop_fuel_irrelevant (fuel1 : nat) :
  forall (fuel2 : nat) (file : server.File) (block : Z) (evs : list server.io_event),
    (length evs < fuel1)%nat -> (length evs < fuel2)%nat ->
    server.transferLoop fuel1 file block evs = server.transferLoop fuel2 file block evs.
Proof.
  induction fuel1 as [|fuel1 IH]; intros fuel2 file block evs H1 H2; [lia|].
  destruct fuel2 as [|fuel2]; [lia|].
  destruct (server.file_Read file) as [[chunk|] file'] eqn:Hread.
  2:{ cbn [server.transferLoop]. now rewrite Hread. }
  rewrite !(transferLoop_step _ _ _ _ _ _ Hread).
  destruct (server.sendLoop evs block (tftp.PackDATA block chunk) 0)
    as [[tr ex] evs'] eqn:Hloop.
  destruct ex as [retries|why|retries]; try reflexivity.
  rewrite afterLoop_cases.
  destruct (retries >=? server.MaxRetries) eqn:Hret; [reflexivity|].
  rewrite Z.geb_leb in Hret. apply Z.leb_gt in Hret.
  destruct (len chunk <? server.BlockSize); [reflexivity|].
  destruct (sendLoop_LoopEnd_inv _ _ _ _ _ _ _ Hloop Hret) as (q & d & -> & _).
  rewrite length_app in H1, H2. cbn [length] in H1, H2.
  rewrite (IH fuel2) by lia. reflexivity.
Qed.

Lemma transferLoop_fuel_enough (fuel : nat) :
  forall (file : server.File) (block : Z) (evs : list server.io_event),
    (length evs < fuel)%nat ->
    snd (server.transferLoop fuel file block evs) <> server.OutOfFuel.
Proof.
  induction fuel as [|fuel IH]; intros file block evs H; [lia|].
  destruct (server.file_Read file) as [[chunk|] file'] eqn:Hread.
  2:{ cbn [server.transferLoop]. rewrite Hread. discriminate. }
  rewrite (transferLoop_step _ _ _ _ _ _ Hread).
  destruct (server.sendLoop evs block (tftp.PackDATA block chunk) 0)
    as [[tr ex] evs'] eqn:Hloop.
  destruct ex as [retries|why|retries].
  - rewrite afterLoop_cases.
    destruct (retries >=? server.MaxRetries) eqn:Hret; [discriminate|].
    rewrite Z.geb_leb in Hret. apply Z.leb_gt in Hret.
    destruct (len chunk <? server.BlockSize); [discriminate|].
    destruct (sendLoop_LoopEnd_inv _ _ _ _ _ _ _ Hloop Hret) as (q & d & -> & _).
    rewrite length_app in H. cbn [length] in H.
    specialize (IH file' (wrap16 (block + 1)) evs').
    destruct (server.transferLoop fuel file' (wrap16 (block + 1)) evs') as [tr' out].
    cbn [snd] in *. apply IH. lia.
  - cbn [snd]. destruct (sendLoop_LoopReturn_inv _ _ _ _ _ _ _ Hloop) as [-> | ->]; discriminate.
  - discriminate.
Qed.

(** ** Path containment *)

Lemma Clean_rooted (path : bytes) :
  filepath.isRooted path = true ->
  exists out, filepath.Clean path = "/"%byte :: out.
Proof.
  intros H. unfold filepath.Clean.
  destruct path as [|b path]; [discriminate|].
  cbn [bytes_eqb]. rewrite H. eexists. reflexivity.
Qed.

Lemma stripCommon_nil (bs : list bytes) :
  forall ts ts', filepath.stripCommon bs ts = ([], ts') -> ts = bs ++ ts'.
Proof.
  induction bs as [|b bs IH]; intros ts ts' H.
  - destruct ts; cbn in H; now injection H as <-.
  - destruct ts as [|t ts]; cbn [filepath.stripCommon] in H; [discriminate|].
    destruct (bytes_eqb t b) eqn:E; [|discriminate].
    apply bytes_eqb_eq in E. subst t.
    cbn [app]. f_equal. now apply IH.
Qed.

Lemma Join_dotdot_prefix (rest : list bytes) :
  strings.HasPrefix (strings.Join (lit ".." :: rest)) (lit "..") = true.
Proof. destruct rest; reflexivity. Qed.

(** [Rel] from a rooted base to a path that is not inside it fails or
    answers with a path that climbs out of the base. *)
Lemma Rel_outside (base targ : bytes) :
  filepath.isRooted base = true ->
  ~ elementsLead base targ ->
  filepath.Rel base targ = None
  \/ exists rel, filepath.Rel base targ = Some rel
                 /\ strings.HasPrefix rel (lit "..") = true.
Proof.
  intros Hroot Hout. unfold filepath.Rel.
  destruct (bytes_eqb (filepath.Clean targ) (filepath.Clean base)) eqn:Heq.
  { exfalso. apply Hout. apply bytes_eqb_eq in Heq.
    exists []. now rewrite Heq, app_nil_r. }
  assert (Hin : forall below,
             filepath.elements (filepath.Clean targ)
             <> filepath.elements (filepath.Clean base) ++ below).
  { intros below E. apply Hout. now exists below. }
  destruct (Clean_rooted base Hroot) as [out Hb]. rewrite Hb in *.
  change (bytes_eqb ("/"%byte :: out) (lit ".")) with false. cbv iota.
  cbn [filepath.isRooted Byte.eqb]. 
  change (Byte.eqb "/" "/") with true.
  destruct (filepath.isRooted (filepath.Clean targ)); cbn [Bool.eqb negb]; [|now left].
  destruct (filepath.stripCommon (filepath.elements ("/"%byte :: out))
                                 (filepath.elements (filepath.Clean targ)))
    as [bs ts] eqn:Hstrip.
  destruct bs as [|b0 bs].
  - exfalso. apply (Hin ts). now apply stripCommon_nil.
  - destruct ts as [|t ts].
    + right. eexists. split; [reflexivity|]. cbn [repeat]. apply Join_dotdot_prefix.
    + destruct (bytes_eqb b0 (lit "..")); [now left|].
      right. eexists. split; [reflexivity|]. cbn [repeat app]. apply Join_dotdot_prefix.
Qed.

(** *** Cleaned rooted paths, as strings and as elements *)

Lemma Split_slashfree_all (s : bytes) : forallb slashfree (strings.Split s) = true.
Proof.
  induction s as [|b s IH]; [reflexivity|].
  cbn [strings.Split]. destruct (Byte.eqb b "/"%byte) eqn:Eb.
  - cbn [forallb]. now rewrite IH.
  - destruct (strings.Split s) as [|e es]; cbn [forallb slashfree] in *.
    + now rewrite Eb.
    + apply andb_true_iff in IH as [He Hes].
      unfold slashfree in He. now rewrite Eb, He, Hes.
Qed.

Lemma Split_one (e : bytes) : slashfree e = true -> strings.Split e = [e].
Proof.
  induction e as [|b e IH]; intros H; [reflexivity|].
  cbn [slashfree forallb] in H. apply andb_true_iff in H as [Hb He].
  apply negb_true_iff in Hb. cbn [strings.Split]. rewrite Hb.
  now rewrite (IH He).
Qed.

Lemma Split_app (e rest : bytes) :
  slashfree e = true ->
  strings.Split (e ++ "/"%byte :: rest) = e :: strings.Split rest.
Proof.
  induction e as [|b e IH]; intros H.
  - reflexivity.
  - cbn [slashfree forallb] in H. apply andb_true_iff in H as [Hb He].
    apply negb_true_iff in Hb. cbn [app strings.Split]. rewrite Hb.
    now rewrite (IH He).
Qed.

Lemma Split_Join (es : list bytes) :
  es <> [] -> forallb slashfree es = true -> strings.Split (strings.Join es) = es.
Proof.
  induction es as [|e es IH]; intros Hne H; [contradiction|].
  cbn [forallb] in H. apply andb_true_iff in H as [He Hes].
  destruct es as [|e' es].
  - now apply Split_one.
  - cbn [strings.Join]. change (strings.Join (e' :: es)) with (strings.Join (e' :: es)).
    rewrite Split_app by assumption.
    f_equal. apply IH; [discriminate | assumption].
Qed.

Lemma Join_app (es below : list bytes) :
  es <> [] -> below <> [] ->
  strings.Join (es ++ below) = strings.Join es ++ "/"%byte :: strings.Join below.
Proof.
  induction es as [|e es IH]; intros Hes Hb; [contradiction|].
  destruct es as [|e' es].
  - cbn [app]. destruct below; [contradiction|]. reflexivity.
  - change (strings.Join ((e :: e' :: es) ++ below))
      with (e ++ "/"%byte :: strings.Join ((e' :: es) ++ below)).
    rewrite IH by (discriminate || assumption).
    change (strings.Join (e :: e' :: es)) with (e ++ "/"%byte :: strings.Join (e' :: es)).
    now rewrite <- app_assoc.
Qed.

Lemma plain_slashfree (es : list bytes) :
  forallb plain es = true -> forallb slashfree es = true.
Proof.
  induction es as [|e es IH]; [reflexivity|].
  cbn [forallb]. intros H. apply andb_true_iff in H as [He Hes].
  unfold plain in He. apply andb_true_iff in He as [_ He].
  now rewrite He, IH.
Qed.

Lemma plain_filter (es : list bytes) :
  forallb plain es = true ->
  filter (fun e => negb (bytes_eqb e [])) es = es.
Proof.
  induction es as [|e es IH]; [reflexivity|].
  cbn [forallb filter]. intros H. apply andb_true_iff in H as [He Hes].
  unfold plain in He. rewrite !andb_true_iff in He. destruct He as [[[He _] _] _].
  now rewrite He, IH.
Qed.

(** At the root, the element loop leaves plain elements only. *)
Lemma cleanLoop_plain (elems : list bytes) :
  forall out,
    forallb slashfree elems = true ->
    forallb plain out = true ->
    forallb plain (filepath.cleanLoop true elems out 0) = true.
Proof.
  induction elems as [|e elems IH]; intros out He Hout.
  - cbn [filepath.cleanLoop]. rewrite forallb_forall in *.
    intros x Hx. apply Hout. now apply in_rev.
  - cbn [forallb] in He. apply andb_true_iff in He as [Hs He].
    cbn [filepath.cleanLoop].
    destruct (bytes_eqb e []) eqn:E0; [now apply IH|].
    destruct (bytes_eqb e (lit ".")) eqn:E1; [now apply IH|].
    cbn [orb].
    destruct (bytes_eqb e (lit "..")) eqn:E2.
    + destruct (0 <? length out)%nat; [|now apply IH].
      apply IH; [assumption|]. destruct out; [reflexivity|].
      cbn [forallb tl] in *. now apply andb_true_iff in Hout as [_ Hout].
    + apply IH; [assumption|]. cbn [forallb]. rewrite Hout.
      unfold plain. now rewrite E0, E1, E2, Hs.
Qed.

(** Plain elements pass through the element loop unchanged. *)
Lemma cleanLoop_id (elems : list bytes) :
  forall out,
    forallb plain elems = true ->
    filepath.cleanLoop true elems out 0 = rev out ++ elems.
Proof.
  induction elems as [|e elems IH]; intros out H.
  - cbn [filepath.cleanLoop]. now rewrite app_nil_r.
  - cbn [forallb] in H. apply andb_true_iff in H as [He H].
    unfold plain in He. rewrite !andb_true_iff, !negb_true_iff in He.
    destruct He as [[[E0 E1] E2] _].
    cbn [filepath.cleanLoop]. rewrite E0, E1, E2. cbn [orb].
    rewrite IH by assumption. cbn [rev]. now rewrite <- app_assoc.
Qed.

(** A cleaned rooted path is the separator followed by its plain elements
    joined, and these are its elements; cleaning it again changes nothing. *)
Lemma Clean_rooted_elements (path : bytes) :
  filepath.isRooted path = true ->
  exists out,
    forallb plain out = true
    /\ filepath.Clean path = "/"%byte :: strings.Join out
    /\ filepath.elements ("/"%byte :: strings.Join out) = out
    /\ filepath.Clean ("/"%byte :: strings.Join out) = "/"%byte :: strings.Join out.
Proof.
  intros H. exists (filepath.cleanLoop true (strings.Split path) [] 0).
  assert (Hplain : forallb plain (filepath.cleanLoop true (strings.Split path) [] 0) = true).
  { apply cleanLoop_plain; [apply Split_slashfree_all | reflexivity]. }
  set (out := filepath.cleanLoop true (strings.Split path) [] 0) in *.
  assert (Hsplit : strings.Split ("/"%byte :: strings.Join out)
                   = [] :: match out with [] => [[]] | _ => out end).
  { cbn [strings.Split]. change (Byte.eqb "/" "/") with true. cbv iota.
    destruct out as [|e es] eqn:Eo; [reflexivity|].
    rewrite Split_Join; [reflexivity | discriminate | now apply plain_slashfree]. }
  split; [assumption|]. split; [|split].
  - unfold filepath.Clean. destruct path as [|b path]; [discriminate|].
    cbn [bytes_eqb]. now rewrite H.
  - unfold filepath.elements. rewrite Hsplit. cbn [filter bytes_eqb negb].
    destruct out; [reflexivity|]. now apply plain_filter.
  - unfold filepath.Clean. cbn [bytes_eqb filepath.isRooted].
    change (Byte.eqb "/" "/") with true. cbv iota.
    rewrite Hsplit. cbn [filepath.cleanLoop bytes_eqb orb].
    destruct out as [|e es] eqn:Eo; [reflexivity|].
    rewrite cleanLoop_id by assumption. reflexivity.
Qed.

Lemma Join_rooted (BaseDir name : bytes) :
  filepath.isRooted BaseDir = true ->
  exists q, filepath.Join [BaseDir; name] = filepath.Clean q /\ filepath.isRooted q = true.
Proof.
  intros H. destruct BaseDir as [|b BaseDir]; [discriminate|].
  cbn [filepath.Join bytes_eqb strings.Join].
  exists ((b :: BaseDir) ++ "/"%byte :: name). split; [reflexivity|]. exact H.
Qed.

(** For a cleaned rooted base directory, the path the server resolves lies
    inside the base directory as a string as soon as the elements of the base
    directory lead its elements. *)
Lemma elementsLead_inside (BaseDir name : bytes) :
  filepath.isRooted BaseDir = true ->
  filepath.Clean BaseDir = BaseDir ->
  elementsLead BaseDir (resolve BaseDir name) ->
  lexicallyInside BaseDir (resolve BaseDir name).
Proof.
  intros Hroot Hclean [below Hlead].
  destruct (Join_rooted BaseDir (filepath.Clean name) Hroot) as (q & Hq & Hqroot).
  unfold resolve in *. rewrite Hq in *. clear Hq.
  destruct (Clean_rooted_elements q Hqroot) as (eQ & _ & HQ & _ & _).
  assert (Hq2root : filepath.isRooted (filepath.Clean q) = true) by now rewrite HQ.
  destruct (Clean_rooted_elements (filepath.Clean q) Hq2root) as (eP & _ & HP & HeP & HPidem).
  rewrite HP in *. rewrite HPidem, HeP in Hlead.
  destruct (Clean_rooted_elements BaseDir Hroot) as (eB & _ & HB & HeB & _).
  rewrite Hclean in *. rewrite HB in *. rewrite HeB in Hlead.
  unfold lexicallyInside.
  subst eP. destruct below as [|e below].
  - left. now rewrite app_nil_r.
  - right. destruct eB as [|b eB].
    + right. split; [reflexivity|]. eexists. reflexivity.
    + left. exists (strings.Join (e :: below)).
      rewrite Join_app by discriminate. reflexivity.
Qed.

Lemma valid_mode_passes (mode : bytes) :
  tftp.isValidMode mode = true ->
  negb (bytes_eqb mode tftp.ModeOctet)
  && negb (bytes_eqb mode tftp.ModeNetascii)
  && negb (bytes_eqb mode tftp.ModeMail) = false.
Proof.
  unfold tftp.isValidMode.
  destruct (bytes_eqb mode tftp.ModeOctet), (bytes_eqb mode tftp.ModeNetascii),
    (bytes_eqb mode tftp.ModeMail); cbn; congruence.
Qed.

(** C5 (path containment).  With a base directory that is absolute and
    cleaned (as [filepath.Abs] leaves it) and a recognised mode, a request
    whose resolved path does not lie lexically inside the base directory is
    answered with the single error packet [ErrAccessViolation]
    "Access denied", and nothing else is done: no file is opened. *)
Theorem path_containment (BaseDir : bytes) (fs : server.FileSystem) (dial_ok : bool)
        (filename mode : bytes) (evs : list server.io_event) :
  filepath.isRooted BaseDir = true ->
  filepath.Clean BaseDir = BaseDir ->
  tftp.isValidMode mode = true ->
  ~ lexicallyInside BaseDir (resolve BaseDir filename) ->
  server.serveReadRequest BaseDir fs dial_ok (tftp.mkRRQ filename mode) evs
  = ([server.SendTo (tftp.PackERROR tftp.ErrAccessViolation (lit "Access denied"))],
     server.Rejected).
Proof.
  intros Hroot Hclean Hmode Hout. unfold server.serveReadRequest.
  cbn [tftp.rrq_Mode tftp.rrq_Filename].
  rewrite (valid_mode_passes _ Hmode).
  change (filepath.Clean (filepath.Join [BaseDir; filepath.Clean filename]))
    with (resolve BaseDir filename).
  assert (Hel : ~ elementsLead BaseDir (resolve BaseDir filename)).
  { intros H. apply Hout. now apply elementsLead_inside. }
  destruct (Rel_outside _ _ Hroot Hel) as [-> | (rel & -> & ->)]; reflexivity.
Qed.

Lemma path_containment_witness :
  server.serveReadRequest (lit "/srv/tftp-root") (fun _ => server.OpenFails) true
                          (tftp.mkRRQ (lit "../../etc/passwd") (lit "octet")) []
  = ([server.SendTo (tftp.PackERROR tftp.ErrAccessViolation (lit "Access denied"))],
     server.Rejected).
Proof.
  apply (path_containment (lit "/srv/tftp-root") (fun _ => server.OpenFails) true
           (lit "../../etc/passwd") (lit "octet") []).
  - reflexivity.
  - reflexivity.
  - reflexivity.
  - intros [H | [[rest H] | [H _]]]; vm_compute in H; discriminate H.
Defined.

(** A request that passes the checks and whose file opens runs the transfer
    loop from block 1, after the open and the dial. *)
Lemma serveReadRequest_transfer (BaseDir : bytes) (fs : server.FileSystem)
      (rrq : tftp.ReadRequest) (evs : list server.io_event) (rel : bytes)
      (file : server.File) :
  tftp.isValidMode (tftp.rrq_Mode rrq) = true ->
  filepath.Rel BaseDir (resolve BaseDir (tftp.rrq_Filename rrq)) = Some rel ->
  strings.HasPrefix rel (lit "..") = false ->
  fs (resolve BaseDir (tftp.rrq_Filename rrq)) = server.Opened file ->
  server.serveReadRequest BaseDir fs true rrq evs
  = (server.Open (resolve BaseDir (tftp.rrq_Filename rrq)) :: server.Dial
       :: fst (server.transferLoop (S (length evs)) file 1 evs),
     snd (server.transferLoop (S (length evs)) file 1 evs)).
Proof.
  intros Hmode Hrel Hpre Hfs. unfold server.serveReadRequest.
  rewrite (valid_mode_passes _ Hmode).
  change (filepath.Clean (filepath.Join [BaseDir; filepath.Clean (tftp.rrq_Filename rrq)]))
    with (resolve BaseDir (tftp.rrq_Filename rrq)).
  rewrite Hrel, Hpre, Hfs. cbn [negb].
  now destruct (server.transferLoop (S (length evs)) file 1 evs).
Qed.

(** * Further properties of the codec *)

(** ** A packet of one kind is refused by the decoders of the others *)

Lemma ParseDATA_other (p : bytes) :
  4 <= len p -> BigEndian.Uint16 (slice p 0 2) <> tftp.DATA ->
  tftp.ParseDATA p = tftp.Err tftp.ErrInvalidOpcode.
Proof.
  intros Hl Ho. unfold tftp.ParseDATA.
  apply Z.ltb_ge in Hl. apply Z.eqb_neq in Ho. now rewrite Hl, Ho.
Qed.

Lemma ParseACK_other (p : bytes) :
  4 <= len p -> BigEndian.Uint16 (slice p 0 2) <> tftp.ACK ->
  tftp.ParseACK p = tftp.Err tftp.ErrInvalidOpcode.
Proof.
  intros Hl Ho. unfold tftp.ParseACK.
  apply Z.ltb_ge in Hl. apply Z.eqb_neq in Ho. now rewrite Hl, Ho.
Qed.

Lemma ParseERROR_other (p : bytes) :
  5 <= len p -> BigEndian.Uint16 (slice p 0 2) <> tftp.ERROR ->
  tftp.ParseERROR p = tftp.Err tftp.ErrInvalidOpcode.
Proof.
  intros Hl Ho. unfold tftp.ParseERROR.
  apply Z.ltb_ge in Hl. apply Z.eqb_neq in Ho. now rewrite Hl, Ho.
Qed.

Lemma ParseRRQ_other (p : bytes) :
  BigEndian.Uint16 (slice p 0 2) <> tftp.RRQ ->
  tftp.ParseRRQ p = tftp.Err tftp.ErrInvalidOpcode.
Proof.
  intros Ho. unfold tftp.ParseRRQ. apply Z.eqb_neq in Ho. rewrite Ho.
  now rewrite orb_true_r.
Qed.

Lemma ParseWRQ_other (p : bytes) :
  BigEndian.Uint16 (slice p 0 2) <> tftp.WRQ ->
  tftp.ParseWRQ p = tftp.Err tftp.ErrInvalidOpcode.
Proof.
  intros Ho. unfold tftp.ParseWRQ. apply Z.eqb_neq in Ho. rewrite Ho.
  now rewrite orb_true_r.
Qed.

Lemma len_cons (b : byte) (s : bytes) : len (b :: s) = 1 + len s.
Proof. unfold len. cbn [length]. lia. Qed.

Lemma len_app (s t : bytes) : len (s ++ t) = len s + len t.
Proof. unfold len. rewrite length_app. lia. Qed.

Lemma len_nonneg (s : bytes) : 0 <= len s.
Proof. unfold len. lia. Qed.

Lemma PackDATA_shape (block : Z) (data : bytes) :
  tftp.PackDATA block data
  = x00 :: x03 :: byte_of_Z (Z.shiftr block 8) :: byte_of_Z block :: data.
Proof. reflexivity. Qed.

Lemma PackERROR_shape (code : Z) (msg : bytes) :
  tftp.PackERROR code msg
  = x00 :: x05 :: byte_of_Z (Z.shiftr code 8) :: byte_of_Z code :: msg ++ [x00].
Proof. reflexivity. Qed.

Lemma PackACK_shape (block : Z) :
  tftp.PackACK block = [x00; x04; byte_of_Z (Z.shiftr block 8); byte_of_Z block].
Proof. reflexivity. Qed.

Lemma packRQ_shape (opcode : Z) (filename mode p : bytes) :
  tftp.packRQ opcode filename mode = tftp.Return p ->
  p = BigEndian.PutUint16 opcode ++ filename ++ x00 :: mode ++ [x00]
  /\ tftp.isValidMode mode = true.
Proof.
  unfold tftp.packRQ. destruct (tftp.isValidMode mode); cbn [negb]; [|discriminate].
  intros H. injection H as <-. split; reflexivity.
Qed.

Lemma valid_mode_len (mode : bytes) : tftp.isValidMode mode = true -> 4 <= len mode.
Proof.
  intros H. apply isValidMode_cases in H.
  destruct H as [-> | [-> | ->]]; unfold len; cbn; lia.
Qed.

(** Whatever one encoder produces, the decoder of every other kind refuses:
    with [ErrInvalidOpcode], or, where the packet is below the decoder's
    minimum length (an acknowledgment or an empty data packet read as an
    error packet), with [ErrPacketTooShort]. *)
Theorem kinds_are_not_confused (block code : Z) (payload msg filename mode p q : bytes) :
  tftp.packRQ tftp.RRQ filename mode = tftp.Return p ->
  tftp.packRQ tftp.WRQ filename mode = tftp.Return q ->
  (tftp.ParseWRQ p = tftp.Err tftp.ErrInvalidOpcode
   /\ tftp.ParseDATA p = tftp.Err tftp.ErrInvalidOpcode
   /\ tftp.ParseACK p = tftp.Err tftp.ErrInvalidOpcode
   /\ tftp.ParseERROR p = tftp.Err tftp.ErrInvalidOpcode)
  /\ (tftp.ParseRRQ q = tftp.Err tftp.ErrInvalidOpcode
      /\ tftp.ParseDATA q = tftp.Err tftp.ErrInvalidOpcode
      /\ tftp.ParseACK q = tftp.Err tftp.ErrInvalidOpcode
      /\ tftp.ParseERROR q = tftp.Err tftp.ErrInvalidOpcode)
  /\ (tftp.ParseRRQ (tftp.PackDATA block payload) = tftp.Err tftp.ErrInvalidOpcode
      /\ tftp.ParseWRQ (tftp.PackDATA block payload) = tftp.Err tftp.ErrInvalidOpcode
      /\ tftp.ParseACK (tftp.PackDATA block payload) = tftp.Err tftp.ErrInvalidOpcode
      /\ tftp.ParseERROR (tftp.PackDATA block payload)
         = tftp.Err (match payload with
                     | [] => tftp.ErrPacketTooShort
                     | _ => tftp.ErrInvalidOpcode
                     end))
  /\ (tftp.ParseRRQ (tftp.PackACK block) = tftp.Err tftp.ErrInvalidOpcode
      /\ tftp.ParseWRQ (tftp.PackACK block) = tftp.Err tftp.ErrInvalidOpcode
      /\ tftp.ParseDATA (tftp.PackACK block) = tftp.Err tftp.ErrInvalidOpcode
      /\ tftp.ParseERROR (tftp.PackACK block) = tftp.Err tftp.ErrPacketTooShort)
  /\ (tftp.ParseRRQ (tftp.PackERROR code msg) = tftp.Err tftp.ErrInvalidOpcode
      /\ tftp.ParseWRQ (tftp.PackERROR code msg) = tftp.Err tftp.ErrInvalidOpcode
      /\ tftp.ParseDATA (tftp.PackERROR code msg) = tftp.Err tftp.ErrInvalidOpcode
      /\ tftp.ParseACK (tftp.PackERROR code msg) = tftp.Err tftp.ErrInvalidOpcode).
Proof.
  intros Hp Hq.
  apply packRQ_shape in Hp as [-> Hm]. apply packRQ_shape in Hq as [-> _].
  pose proof (valid_mode_len _ Hm) as Hlen. pose proof (len_nonneg filename) as Hf.
  assert (Hrq : forall a b : byte,
             8 <= len (a :: b :: filename ++ x00 :: mode ++ [x00])).
  { intros a b. unfold len in *. cbn [length]. rewrite length_app. cbn [length].
    rewrite length_app. cbn [length]. lia. }
  change (BigEndian.PutUint16 tftp.RRQ ++ filename ++ x00 :: mode ++ [x00])
    with (x00 :: x01 :: filename ++ x00 :: mode ++ [x00]).
  change (BigEndian.PutUint16 tftp.WRQ ++ filename ++ x00 :: mode ++ [x00])
    with (x00 :: x02 :: filename ++ x00 :: mode ++ [x00]).
  rewrite PackDATA_shape, PackERROR_shape, PackACK_shape.
  assert (Herr : 5 <= len (x00 :: x05 :: byte_of_Z (Z.shiftr code 8) :: byte_of_Z code
                             :: msg ++ [x00])).
  { unfold len. cbn [length]. rewrite length_app. cbn [length]. lia. }
  assert (Hdat : 4 <= len (x00 :: x03 :: byte_of_Z (Z.shiftr block 8) :: byte_of_Z block
                             :: payload)).
  { rewrite !len_cons. pose proof (len_nonneg payload). lia. }
  repeat split;
    try (apply ParseRRQ_other; discriminate);
    try (apply ParseWRQ_other; discriminate);
    try (apply ParseDATA_other; [first [apply Hdat | apply Herr | specialize (Hrq x00 x01); lia
                                       | specialize (Hrq x00 x02); lia | reflexivity]
                                | discriminate]);
    try (apply ParseACK_other; [first [apply Hdat | apply Herr | specialize (Hrq x00 x01); lia
                                      | specialize (Hrq x00 x02); lia | reflexivity]
                               | discriminate]);
    try (apply ParseERROR_other; [first [specialize (Hrq x00 x01); lia
                                        | specialize (Hrq x00 x02); lia]
                                 | discriminate]);
    try reflexivity.
  destruct payload as [|b payload]; [reflexivity|].
  apply ParseERROR_other; [|discriminate].
  rewrite !len_cons. pose proof (len_nonneg payload). lia.
Qed.

Lemma kinds_are_not_confused_witness :
  tftp.ParseWRQ (x00 :: x01 :: lit "file" ++ x00 :: lit "octet" ++ [x00])
  = tftp.Err tftp.ErrInvalidOpcode
  /\ tftp.ParseACK (tftp.PackDATA 7 (lit "abc")) = tftp.Err tftp.ErrInvalidOpcode.
Proof.
  destruct (kinds_are_not_confused 7 0 (lit "abc") [] (lit "file") (lit "octet")
              (x00 :: x01 :: lit "file" ++ x00 :: lit "octet" ++ [x00])
              (x00 :: x02 :: lit "file" ++ x00 :: lit "octet" ++ [x00])
              eq_refl eq_refl) as ((H1 & _) & _ & (_ & _ & H2 & _) & _).
  split; assumption.
Defined.

(** ** The decoders accept the encodings and nothing else *)

Lemma four_bytes (p : bytes) :
  4 <= len p -> exists b0 b1 b2 b3 rest, p = b0 :: b1 :: b2 :: b3 :: rest.
Proof.
  unfold len. intros H.
  destruct p as [|b0 [|b1 [|b2 [|b3 rest]]]]; cbn [length] in H; try lia.
  now exists b0, b1, b2, b3, rest.
Qed.

Lemma last_cons_nonempty (b : byte) (l : bytes) (d : byte) :
  l <> [] -> last (b :: l) d = last l d.
Proof. destruct l; [contradiction | reflexivity]. Qed.

Lemma ends_with_NUL (l : bytes) :
  l <> [] -> last l x00 = x00 -> l = firstn (length l - 1) l ++ [x00].
Proof.
  intros Hne Hl.
  rewrite (app_removelast_last x00 Hne) at 1. rewrite Hl. f_equal.
  rewrite removelast_firstn_len. f_equal. lia.
Qed.

Lemma ParseDATA_Ok (p : bytes) (d : tftp.DataPacket) :
  tftp.ParseDATA p = tftp.Ok d ->
  p = tftp.PackDATA (tftp.data_Block d) (tftp.data_Data d)
  /\ 0 <= tftp.data_Block d < 65536.
Proof.
  unfold tftp.ParseDATA. destruct (len p <? 4) eqn:Hl; [discriminate|].
  apply Z.ltb_ge in Hl. destruct (four_bytes p Hl) as (b0 & b1 & b2 & b3 & rest & ->).
  unfold slice, slice_from. cbn [Nat.sub skipn firstn].
  destruct (BigEndian.Uint16 [b0; b1] =? tftp.DATA) eqn:Ho; [|discriminate].
  cbn [negb]. remember (BigEndian.Uint16 [b2; b3]) as blk eqn:Hblk.
  intros H. injection H as <-. cbn [tftp.data_Block tftp.data_Data].
  apply Z.eqb_eq, opcode_bytes in Ho. subst blk.
  split; [|apply Uint16_range].
  unfold tftp.PackDATA. rewrite <- Ho, PutUint16_Uint16. reflexivity.
Qed.

Lemma ParseACK_Ok (p : bytes) (a : tftp.AckPacket) :
  tftp.ParseACK p = tftp.Ok a ->
  (exists rest, p = tftp.PackACK (tftp.ack_Block a) ++ rest)
  /\ 0 <= tftp.ack_Block a < 65536.
Proof.
  unfold tftp.ParseACK. destruct (len p <? 4) eqn:Hl; [discriminate|].
  apply Z.ltb_ge in Hl. destruct (four_bytes p Hl) as (b0 & b1 & b2 & b3 & rest & ->).
  unfold slice. cbn [Nat.sub skipn firstn].
  destruct (BigEndian.Uint16 [b0; b1] =? tftp.ACK) eqn:Ho; [|discriminate].
  cbn [negb]. remember (BigEndian.Uint16 [b2; b3]) as blk eqn:Hblk.
  intros H. injection H as <-. cbn [tftp.ack_Block].
  apply Z.eqb_eq, opcode_bytes in Ho. subst blk.
  split; [|apply Uint16_range].
  exists rest. unfold tftp.PackACK. rewrite <- Ho, PutUint16_Uint16. reflexivity.
Qed.

Lemma ParseACK_prefix (block : Z) (rest : bytes) :
  tftp.ParseACK (tftp.PackACK block ++ rest) = tftp.Ok (tftp.mkACK (wrap16 block)).
Proof.
  rewrite PackACK_shape. cbn [app]. unfold tftp.ParseACK.
  replace (len _ <? 4) with false
    by (symmetry; apply Z.ltb_ge; rewrite !len_cons; pose proof (len_nonneg rest); lia).
  unfold slice. cbn [Nat.sub skipn firstn].
  change (BigEndian.Uint16 [x00; x04]) with 4. cbn [Z.eqb tftp.ACK Pos.eqb negb].
  change [byte_of_Z (Z.shiftr block 8); byte_of_Z block]
    with (BigEndian.PutUint16 block ++ []).
  now rewrite Uint16_PutUint16.
Qed.

Lemma ParseERROR_Ok (p : bytes) (e : tftp.ErrorPacket) :
  tftp.ParseERROR p = tftp.Ok e ->
  p = tftp.PackERROR (tftp.err_Code e) (tftp.err_Message e)
  /\ 0 <= tftp.err_Code e < 65536.
Proof.
  unfold tftp.ParseERROR. destruct (len p <? 5) eqn:Hl; [discriminate|].
  apply Z.ltb_ge in Hl.
  destruct (four_bytes p ltac:(lia)) as (b0 & b1 & b2 & b3 & rest & ->).
  assert (Hne : rest <> []).
  { intros ->. unfold len in Hl. cbn in Hl. lia. }
  unfold slice. cbn [Nat.sub skipn firstn length].
  destruct (BigEndian.Uint16 [b0; b1] =? tftp.ERROR) eqn:Ho; [|discriminate].
  cbn [negb].
  rewrite !last_cons_nonempty by (assumption || discriminate).
  destruct (Byte.eqb (last rest x00) x00) eqn:Hlast; [|discriminate].
  cbn [negb]. remember (BigEndian.Uint16 [b2; b3]) as cd eqn:Hcd.
  intros H. injection H as <-. cbn [tftp.err_Code tftp.err_Message].
  apply Z.eqb_eq, opcode_bytes in Ho. apply Byte.byte_dec_bl in Hlast. subst cd.
  split; [|apply Uint16_range].
  unfold tftp.PackERROR. rewrite <- Ho, PutUint16_Uint16. cbn [app].
  do 4 f_equal.
  replace (S (S (S (S (length rest)))) - 1 - 4)%nat with (length rest - 1)%nat by lia.
  now apply ends_with_NUL.
Qed.

(** A buffer decodes as a data packet exactly when it is the encoding of the
    packet decoded, and as an error packet likewise; it decodes as an
    acknowledgment exactly when it begins with the encoding of the
    acknowledgment decoded, the bytes after the fourth being ignored.  The
    numbers decoded are 16-bit. *)
Theorem decoders_accept_the_encodings (p : bytes) :
  (forall d, tftp.ParseDATA p = tftp.Ok d <->
             p = tftp.PackDATA (tftp.data_Block d) (tftp.data_Data d)
             /\ 0 <= tftp.data_Block d < 65536)
  /\ (forall a, tftp.ParseACK p = tftp.Ok a <->
                (exists rest, p = tftp.PackACK (tftp.ack_Block a) ++ rest)
                /\ 0 <= tftp.ack_Block a < 65536)
  /\ (forall e, tftp.ParseERROR p = tftp.Ok e <->
                p = tftp.PackERROR (tftp.err_Code e) (tftp.err_Message e)
                /\ 0 <= tftp.err_Code e < 65536).
Proof.
  split; [|split].
  - intros [block data]. split; [apply ParseDATA_Ok|].
    cbn [tftp.data_Block tftp.data_Data]. intros [-> Hr].
    now rewrite ParseDATA_PackDATA, wrap16_small.
  - intros [block]. split; [apply ParseACK_Ok|].
    cbn [tftp.ack_Block]. intros [[rest ->] Hr].
    now rewrite ParseACK_prefix, wrap16_small.
  - intros [code msg]. split; [apply ParseERROR_Ok|].
    cbn [tftp.err_Code tftp.err_Message]. intros [-> Hr].
    now rewrite ParseERROR_PackERROR, wrap16_small.
Qed.

Lemma decoders_accept_the_encodings_witness :
  tftp.ParseACK (tftp.PackACK 9 ++ lit "junk") = tftp.Ok (tftp.mkACK 9).
Proof.
  destruct (decoders_accept_the_encodings (tftp.PackACK 9 ++ lit "junk")) as (_ & H & _).
  apply (H (tftp.mkACK 9)). split.
  - exists (lit "junk"). reflexivity.
  - cbn. lia.
Defined.

(** ** The terminator of an error packet *)

(** An error packet whose last byte is not NUL is refused with
    [ErrMissingNullTerm], whatever precedes that byte; a NUL inside the
    message does no harm, only the last byte is looked at. *)
Theorem error_packet_terminator (code : Z) (body m1 m2 : bytes) :
  body <> [] ->
  last body x00 <> x00 ->
  tftp.ParseERROR (BigEndian.PutUint16 tftp.ERROR ++ BigEndian.PutUint16 code ++ body)
  = tftp.Err tftp.ErrMissingNullTerm
  /\ tftp.ParseERROR (tftp.PackERROR code (m1 ++ x00 :: m2))
     = tftp.Ok (tftp.mkERROR (wrap16 code) (m1 ++ x00 :: m2)).
Proof.
  intros Hne Hlast. split; [|apply ParseERROR_PackERROR].
  change (BigEndian.PutUint16 tftp.ERROR ++ BigEndian.PutUint16 code ++ body)
    with (x00 :: x05 :: byte_of_Z (Z.shiftr code 8) :: byte_of_Z code :: body).
  unfold tftp.ParseERROR.
  replace (len _ <? 5) with false.
  2:{ symmetry. apply Z.ltb_ge. rewrite !len_cons.
      destruct body; [contradiction|]. rewrite len_cons. pose proof (len_nonneg body). lia. }
  unfold slice at 1. cbn [Nat.sub skipn firstn].
  change (BigEndian.Uint16 [x00; x05]) with 5. cbn [Z.eqb tftp.ERROR Pos.eqb negb].
  rewrite !last_cons_nonempty by (assumption || discriminate).
  destruct (Byte.eqb (last body x00) x00) eqn:E; [|reflexivity].
  apply Byte.byte_dec_bl in E. contradiction.
Qed.

Lemma error_packet_terminator_witness :
  tftp.ParseERROR (BigEndian.PutUint16 tftp.ERROR ++ BigEndian.PutUint16 1 ++ lit "File not found")
  = tftp.Err tftp.ErrMissingNullTerm
  /\ tftp.ParseERROR (tftp.PackERROR 1 (lit "a" ++ x00 :: lit "b"))
     = tftp.Ok (tftp.mkERROR (wrap16 1) (lit "a" ++ x00 :: lit "b")).
Proof.
  apply (error_packet_terminator 1 (lit "File not found") (lit "a") (lit "b")).
  - discriminate.
  - discriminate.
Defined.

(** ** The errors of the request decoder *)

Lemma skipn_succ_app (f rest : bytes) :
  skipn (length f + 1) (f ++ x00 :: rest) = rest.
Proof.
  rewrite Nat.add_1_r. change (x00 :: rest) with ([x00] ++ rest).
  rewrite app_assoc.
  replace (S (length f)) with (length (f ++ [x00])) by (rewrite length_app; simpl; lia).
  apply skipn_length_app.
Qed.

(** What [unpackRQ] answers on a buffer that is not a request: too short
    below four bytes; otherwise [ErrMissingNullTerm] when no NUL follows the
    opcode, [ErrInvalidPacket] when the first NUL is the last byte, and
    [ErrMissingNullTerm] when bytes follow that NUL but no second NUL. *)
Theorem unpackRQ_errors (b0 b1 : byte) (filename mode : bytes) :
  NoNUL filename ->
  NoNUL mode ->
  (forall p, len p < 4 -> tftp.unpackRQ p = tftp.Err tftp.ErrPacketTooShort)
  /\ (2 <= len filename ->
      tftp.unpackRQ (b0 :: b1 :: filename) = tftp.Err tftp.ErrMissingNullTerm)
  /\ (1 <= len filename ->
      tftp.unpackRQ (b0 :: b1 :: filename ++ [x00]) = tftp.Err tftp.ErrInvalidPacket)
  /\ (1 <= len filename + len mode -> mode <> [] ->
      tftp.unpackRQ (b0 :: b1 :: filename ++ x00 :: mode) = tftp.Err tftp.ErrMissingNullTerm).
Proof.
  intros Hf Hm. split; [apply unpackRQ_short|]. split; [|split].
  - intros Hl. unfold tftp.unpackRQ.
    replace (len _ <? 4) with false by (symmetry; apply Z.ltb_ge; rewrite !len_cons; lia).
    unfold slice_from. cbn [skipn].
    apply indexNUL_None in Hf. now rewrite Hf.
  - intros Hl. unfold tftp.unpackRQ.
    replace (len _ <? 4) with false.
    2:{ symmetry. apply Z.ltb_ge. rewrite !len_cons, len_app.
        change (len [x00]) with 1. lia. }
    unfold slice_from. cbn [skipn].
    rewrite (indexNUL_app filename [] Hf).
    replace (_ >=? _) with true; [reflexivity|].
    symmetry. rewrite Z.geb_leb. apply Z.leb_le.
    rewrite len_app. change (len [x00]) with 1. unfold len. lia.
  - intros Hl Hne. unfold tftp.unpackRQ.
    replace (len _ <? 4) with false.
    2:{ symmetry. apply Z.ltb_ge. rewrite !len_cons, len_app, len_cons.
        destruct mode; [contradiction|]. rewrite len_cons in *.
        pose proof (len_nonneg mode). pose proof (len_nonneg filename). lia. }
    unfold slice_from. cbn [skipn].
    rewrite (indexNUL_app filename mode Hf).
    replace (_ >=? _) with false.
    2:{ symmetry. rewrite Z.geb_leb. apply Z.leb_gt.
        rewrite len_app, len_cons. destruct mode; [contradiction|].
        rewrite len_cons. pose proof (len_nonneg mode). unfold len. lia. }
    rewrite skipn_succ_app.
    apply indexNUL_None in Hm. now rewrite Hm.
Qed.

Lemma unpackRQ_errors_witness :
  tftp.unpackRQ (x00 :: x01 :: lit "file") = tftp.Err tftp.ErrMissingNullTerm
  /\ tftp.unpackRQ (x00 :: x01 :: lit "file" ++ [x00]) = tftp.Err tftp.ErrInvalidPacket
  /\ tftp.unpackRQ (x00 :: x01 :: lit "file" ++ x00 :: lit "octet")
     = tftp.Err tftp.ErrMissingNullTerm.
Proof.
  destruct (unpackRQ_errors x00 x01 (lit "file") (lit "octet")) as (_ & H1 & H2 & H3).
  - repeat constructor; discriminate.
  - repeat constructor; discriminate.
  - split; [|split].
    + apply H1. unfold len. cbn. lia.
    + apply H2. unfold len. cbn. lia.
    + apply H3; [unfold len; cbn; lia | discriminate].
Defined.

(** ** The opcode tag and the length of an encoding *)

(** Whatever a packet serialises to starts with the big-endian opcode that
    its [Opcode] method answers, and has the length of the wire format: the
    header and the fields, one NUL after each string. *)
Theorem wire_layout :
  (forall (rq : tftp.ReadRequest) (b : bytes),
      tftp.Serialize rq = tftp.Return b ->
      BigEndian.Uint16 (slice b 0 2) = tftp.OpcodeOf rq
      /\ len b = 2 + len (tftp.rrq_Filename rq) + 1 + len (tftp.rrq_Mode rq) + 1)
  /\ (forall (wr : tftp.WriteRequest) (b : bytes),
         tftp.Serialize wr = tftp.Return b ->
         BigEndian.Uint16 (slice b 0 2) = tftp.OpcodeOf wr
         /\ len b = 2 + len (tftp.wrq_Filename wr) + 1 + len (tftp.wrq_Mode wr) + 1)
  /\ (forall (d : tftp.DataPacket) (b : bytes),
         tftp.Serialize d = tftp.Return b ->
         BigEndian.Uint16 (slice b 0 2) = tftp.OpcodeOf d
         /\ len b = 4 + len (tftp.data_Data d))
  /\ (forall (a : tftp.AckPacket) (b : bytes),
         tftp.Serialize a = tftp.Return b ->
         BigEndian.Uint16 (slice b 0 2) = tftp.OpcodeOf a /\ len b = 4)
  /\ (forall (e : tftp.ErrorPacket) (b : bytes),
         tftp.Serialize e = tftp.Return b ->
         BigEndian.Uint16 (slice b 0 2) = tftp.OpcodeOf e
         /\ len b = 5 + len (tftp.err_Message e)).
Proof.
  split; [|split; [|split; [|split]]].
  - intros [f m] b H. cbn in H. apply packRQ_shape in H as [-> _].
    split; [reflexivity|]. cbn [tftp.rrq_Filename tftp.rrq_Mode].
    rewrite len_app, len_app, len_cons, len_app.
    change (len (BigEndian.PutUint16 tftp.RRQ)) with 2. change (len [x00]) with 1. lia.
  - intros [f m] b H. cbn in H. apply packRQ_shape in H as [-> _].
    split; [reflexivity|]. cbn [tftp.wrq_Filename tftp.wrq_Mode].
    rewrite len_app, len_app, len_cons, len_app.
    change (len (BigEndian.PutUint16 tftp.WRQ)) with 2. change (len [x00]) with 1. lia.
  - intros [blk data] b H. injection H as <-.
    split; [reflexivity|]. cbn [tftp.data_Block tftp.data_Data].
    rewrite PackDATA_shape, !len_cons. lia.
  - intros [blk] b H. injection H as <-. split; reflexivity.
  - intros [code msg] b H. injection H as <-.
    split; [reflexivity|]. cbn [tftp.err_Code tftp.err_Message].
    rewrite PackERROR_shape, !len_cons, len_app. change (len [x00]) with 1. lia.
Qed.

Lemma wire_layout_witness :
  BigEndian.Uint16 (slice (tftp.PackDATA 3 (lit "abc")) 0 2) = tftp.DATA
  /\ len (tftp.PackDATA 3 (lit "abc")) = 4 + len (lit "abc").
Proof.
  destruct wire_layout as (_ & _ & H & _).
  apply (H (tftp.mkDATA 3 (lit "abc"))). reflexivity.
Defined.

(** ** A NUL inside the filename *)

(** [packRQ] checks the mode and nothing else.  When the filename holds a
    NUL, the request is encoded all the same, and the decoder takes what
    precedes the NUL for the filename and what follows it for the mode. *)
Theorem NUL_in_filename_shifts_the_mode (f1 f2 mode : bytes) :
  NoNUL f1 ->
  NoNUL f2 ->
  tftp.isValidMode mode = true ->
  exists p,
    tftp.Serialize (tftp.mkRRQ (f1 ++ x00 :: f2) mode) = tftp.Return p
    /\ tftp.ParseRRQ p = tftp.Ok (tftp.mkRRQ f1 f2).
Proof.
  intros H1 H2 Hm. eexists. split.
  - cbn. unfold tftp.packRQ. rewrite Hm. reflexivity.
  - cbn [negb]. rewrite <- app_assoc. cbn [app].
    apply (ParseRRQ_layout f1 f2 (mode ++ [x00])); assumption.
Qed.

Lemma NUL_in_filename_shifts_the_mode_witness :
  exists p,
    tftp.Serialize (tftp.mkRRQ (lit "a.txt" ++ x00 :: lit "mail") (lit "octet")) = tftp.Return p
    /\ tftp.ParseRRQ p = tftp.Ok (tftp.mkRRQ (lit "a.txt") (lit "mail")).
Proof.
  apply (NUL_in_filename_shifts_the_mode (lit "a.txt") (lit "mail") (lit "octet")).
  - repeat constructor; discriminate.
  - repeat constructor; discriminate.
  - reflexivity.
Defined.

(** * Further properties of the server *)

(** ** A file of any length reaches the client whole *)

Lemma payload_of_PackDATA (block : Z) (chunk : bytes) :
  payload_of (server.Write (tftp.PackDATA block chunk)) = chunk.
Proof. unfold payload_of. now rewrite ParseDATA_PackDATA. Qed.

Lemma payloads_blocks (k : nat) :
  forall (block last : Z) (content : bytes),
    payloads (full_blocks block k content
                ++ [server.Write (tftp.PackDATA last (skipn (k * 512) content))])
    = content.
Proof.
  induction k as [|k IH]; intros block last content.
  - cbn [full_blocks app payloads flat_map]. rewrite payload_of_PackDATA.
    cbn [Nat.mul skipn]. apply app_nil_r.
  - cbn [full_blocks app]. unfold payloads in *. cbn [flat_map].
    rewrite payload_of_PackDATA.
    replace (skipn (S k * 512) content) with (skipn (k * 512) (skipn 512 content))
      by (rewrite skipn_skipn; f_equal; lia).
    rewrite IH. apply firstn_skipn.
Qed.

Lemma full_blocks_length (k : nat) :
  forall (block : Z) (content : bytes), length (full_blocks block k content) = k.
Proof.
  induction k as [|k IH]; intros block content; cbn [full_blocks length]; [reflexivity|].
  now rewrite IH.
Qed.

Lemma transfer_any_file (k : nat) :
  forall (fuel : nat) (block : Z) (content : bytes),
    (k < fuel)%nat ->
    0 <= block < 65536 ->
    (k * 512 <= length content < S k * 512)%nat ->
    server.transferLoop fuel (server.mkFile content None) block (acks_from block (S k))
    = (full_blocks block k content
         ++ [server.Write (tftp.PackDATA (wrap16 (block + Z.of_nat k))
                                         (skipn (k * 512) content))],
       server.Completed (wrap16 (block + Z.of_nat k + 1))).
Proof.
  induction k as [|k IH]; intros fuel block content Hfuel Hb Hlen.
  - destruct fuel as [|fuel]; [lia|].
    rewrite (transferLoop_step _ _ _ _ _ _ (file_Read_healthy content)).
    cbn [acks_from]. rewrite sendLoop_acked by assumption.
    rewrite firstn_all2 by lia.
    unfold server.afterLoop.
    replace (len content <? server.BlockSize) with true
      by (symmetry; apply Z.ltb_lt; unfold len, server.BlockSize; lia).
    change (0 >=? server.MaxRetries) with false. cbv iota.
    cbn [full_blocks app Nat.mul skipn]. rewrite Z.add_0_r.
    now rewrite (wrap16_small block).
  - destruct fuel as [|fuel]; [lia|].
    rewrite (transferLoop_step _ _ _ _ _ _ (file_Read_healthy content)).
    cbn [acks_from]. rewrite sendLoop_acked by assumption.
    assert (Hchunk : len (firstn 512 content) = 512).
    { unfold len. rewrite length_firstn. lia. }
    unfold server.afterLoop. rewrite Hchunk.
    change (0 >=? server.MaxRetries) with false.
    change (512 <? server.BlockSize) with false. cbv iota.
    change (server.Datagram (tftp.PackACK (wrap16 (block + 1)))
            :: acks_from (wrap16 (wrap16 (block + 1) + 1)) k)
      with (acks_from (wrap16 (block + 1)) (S k)).
    rewrite IH.
    + cbn [full_blocks app].
      assert (E1 : wrap16 (wrap16 (block + 1) + Z.of_nat k)
                   = wrap16 (block + Z.of_nat (S k))).
      { rewrite wrap16_add_l. f_equal. lia. }
      assert (E2 : wrap16 (wrap16 (block + 1) + Z.of_nat k + 1)
                   = wrap16 (block + Z.of_nat (S k) + 1)).
      { rewrite <- Z.add_assoc, wrap16_add_l. f_equal. lia. }
      rewrite E1, E2.
      replace (skipn (k * 512) (skipn 512 content)) with (skipn (S k * 512) content)
        by (rewrite skipn_skipn; f_equal; lia).
      reflexivity.
    + lia.
    + apply wrap16_range.
    + rewrite length_skipn. lia.
Qed.

Lemma acks_from_length (k : nat) : forall block, length (acks_from block k) = k.
Proof.
  induction k as [|k IH]; intros block; cbn [acks_from length]; [reflexivity|].
  now rewrite IH.
Qed.

(** A file of any length, served to a client that acknowledges every block:
    with [k] the number of whole 512-byte blocks in it, the transfer writes
    those [k] blocks and then the rest of the file (fewer than 512 bytes,
    possibly none) as the last block, [k + 1] data packets in all, and
    completes; the payloads written, put end to end, are the file. *)
Theorem file_is_delivered (content : bytes) :
  let k := (length content / 512)%nat in
  let tr := full_blocks 1 k content
              ++ [server.Write (tftp.PackDATA (wrap16 (1 + Z.of_nat k))
                                              (skipn (k * 512) content))] in
  server.transferLoop (S (length (acks_from 1 (S k)))) (server.mkFile content None) 1
                      (acks_from 1 (S k))
  = (tr, server.Completed (wrap16 (1 + Z.of_nat k + 1)))
  /\ payloads tr = content
  /\ length tr = S k
  /\ (length (skipn (k * 512) content) < 512)%nat.
Proof.
  intros k tr.
  assert (Hk : (k * 512 <= length content < S k * 512)%nat).
  { subst k. pose proof (Nat.div_mod_eq (length content) 512) as Hd.
    pose proof (Nat.mod_upper_bound (length content) 512 ltac:(lia)) as Hm. lia. }
  split; [|split; [|split]].
  - apply transfer_any_file; [rewrite acks_from_length; lia | lia | assumption].
  - apply payloads_blocks.
  - subst tr. rewrite length_app, full_blocks_length. cbn [length]. lia.
  - rewrite length_skipn. lia.
Qed.

(** ** What a transfer writes *)

Lemma sendLoop_trace (block : Z) (dataPacket : bytes) (evs : list server.io_event) :
  forall retries,
    Forall (eq (server.Write dataPacket))
           (fst (fst (server.sendLoop evs block dataPacket retries))).
Proof.
  induction evs as [|ev evs IH]; intros retries.
  - cbn [server.sendLoop]. destruct (negb _); constructor.
  - cbn [server.sendLoop]. destruct (negb _); [constructor|].
    assert (Hafter : forall r,
               Forall (eq (server.Write dataPacket))
                      (fst (fst (server.after (server.Write dataPacket)
                                   (server.sendLoop evs block dataPacket r))))).
    { intros r. specialize (IH r).
      destruct (server.sendLoop evs block dataPacket r) as [[tr ex] rest].
      cbn in *. now constructor. }
    destruct ev as [| | |d].
    + constructor.
    + apply Hafter.
    + cbn [fst]. repeat constructor.
    + destruct (server.ReadFrom4 d) as [n ackBuf].
      destruct (negb (n =? 4)); [apply Hafter|].
      destruct (tftp.ParseACK ackBuf) as [a|e]; [|apply Hafter].
      destruct (negb _); [apply Hafter | cbn [fst]; repeat constructor].
Qed.

Lemma file_Read_chunk (file file' : server.File) (chunk : bytes) :
  server.file_Read file = (Some chunk, file') -> (length chunk <= 512)%nat.
Proof.
  unfold server.file_Read.
  set (c := firstn (Z.to_nat server.BlockSize) (server.f_rest file)).
  assert (Hc : (length c <= 512)%nat).
  { subst c. rewrite length_firstn. change (Z.to_nat server.BlockSize) with 512%nat. lia. }
  clearbody c.
  destruct (server.f_fault file) as [[|n]|]; try discriminate;
    intros H; injection H as <- _; exact Hc.
Qed.

Lemma transferLoop_shape (fuel : nat) :
  forall (file : server.File) (block : Z) (evs : list server.io_event)
         (tr : list server.action) (out : server.outcome),
    0 <= block < 65536 ->
    server.transferLoop fuel file block evs = (tr, out) ->
    exists body,
      tr = body ++ closing_error out
      /\ Forall is_data_packet body
      /\ (length body <= length evs)%nat
      /\ out <> server.Rejected.
Proof.
  induction fuel as [|fuel IH]; intros file block evs tr out Hb H.
  - injection H as <- <-. exists []. repeat split; try constructor; try discriminate.
    cbn. lia.
  - destruct (server.file_Read file) as [[chunk|] file'] eqn:Hread.
    2:{ cbn [server.transferLoop] in H. rewrite Hread in H. injection H as <- <-.
        exists []. repeat split; try constructor; try discriminate. cbn. lia. }
    rewrite (transferLoop_step _ _ _ _ _ _ Hread) in H.
    pose proof (sendLoop_trace block (tftp.PackDATA block chunk) evs 0) as Htr.
    pose proof (sendLoop_trace_length evs block 0 (tftp.PackDATA block chunk)) as Hlen.
    assert (Hdata : forall l, Forall (eq (server.Write (tftp.PackDATA block chunk))) l ->
                              Forall is_data_packet l).
    { intros l Hl. eapply Forall_impl; [|exact Hl]. intros a <-.
      exists block, chunk. repeat split; try lia. now apply (file_Read_chunk file file'). }
    destruct (server.sendLoop evs block (tftp.PackDATA block chunk) 0)
      as [[tr1 ex] evs'] eqn:Hloop.
    cbn [fst] in Htr, Hlen. apply Hdata in Htr.
    destruct ex as [retries|why|retries].
    + rewrite afterLoop_cases in H.
      destruct (retries >=? server.MaxRetries) eqn:Hret.
      { injection H as <- <-. exists tr1. repeat split; try assumption. discriminate. }
      rewrite Z.geb_leb in Hret. apply Z.leb_gt in Hret.
      destruct (len chunk <? server.BlockSize).
      { injection H as <- <-. exists tr1. cbn [closing_error]. rewrite app_nil_r.
        repeat split; try assumption. discriminate. }
      destruct (server.transferLoop fuel file' (wrap16 (block + 1)) evs')
        as [tr' out'] eqn:Hrec.
      injection H as <- <-.
      destruct (IH _ _ _ _ _ (wrap16_range _) Hrec) as (body & -> & Hbody & Hbl & Hrej).
      destruct (sendLoop_LoopEnd_inv _ _ _ _ _ _ _ Hloop Hret)
        as (q & d & Hevs & _ & _ & _ & Htr1).
      exists (tr1 ++ body). repeat split.
      * now rewrite app_assoc.
      * apply Forall_app. now split.
      * subst evs tr1. rewrite !length_app, repeat_length in *. cbn [length] in *. lia.
      * assumption.
    + injection H as <- <-.
      destruct (sendLoop_LoopReturn_inv _ _ _ _ _ _ _ Hloop) as [-> | ->];
        exists tr1; cbn [closing_error]; rewrite app_nil_r;
        repeat split; try assumption; discriminate.
    + injection H as <- <-. exists tr1. cbn [closing_error]. rewrite app_nil_r.
      repeat split; try assumption. discriminate.
Qed.



(** ** Lock step *)

(** As long as no datagram given is the acknowledgment of the block being
    sent, the transfer stays on that block: all it writes is that block's
    data packet (and, once the retries are exhausted, the "no ACK" error);
    it does not complete. *)
Theorem no_next_block_without_ack (fuel : nat) (file file' : server.File) (block : Z)
        (chunk : bytes) (evs : list server.io_event) :
  server.file_Read file = (Some chunk, file') ->
  (forall d, In (server.Datagram d) evs -> matching_ack block d = false) ->
  Forall (eq (server.Write (tftp.PackDATA block chunk)))
         (filter is_Write (fst (server.transferLoop (S fuel) file block evs)))
  /\ (forall final,
         snd (server.transferLoop (S fuel) file block evs) <> server.Completed final).
Proof.
  intros Hread Hno.
  rewrite (transferLoop_step _ _ _ _ _ _ Hread).
  pose proof (sendLoop_trace block (tftp.PackDATA block chunk) evs 0) as Htr.
  destruct (server.sendLoop evs block (tftp.PackDATA block chunk) 0)
    as [[tr1 ex] evs'] eqn:Hloop.
  cbn [fst] in Htr.
  assert (Hfilter : Forall (eq (server.Write (tftp.PackDATA block chunk)))
                           (filter is_Write tr1)).
  { apply Forall_forall. intros a Ha. apply filter_In in Ha as [Ha _].
    rewrite Forall_forall in Htr. now apply Htr. }
  destruct ex as [retries|why|retries].
  - rewrite afterLoop_cases.
    destruct (retries >=? server.MaxRetries) eqn:Hret.
    + cbn [fst snd]. split; [|discriminate].
      rewrite filter_app. cbn. now rewrite app_nil_r.
    + exfalso. rewrite Z.geb_leb in Hret. apply Z.leb_gt in Hret.
      destruct (sendLoop_LoopEnd_inv _ _ _ _ _ _ _ Hloop Hret)
        as (q & d & -> & _ & Hd & _).
      rewrite (Hno d) in Hd; [discriminate|].
      apply in_or_app. right. now left.
  - cbn [fst snd]. split; [assumption|].
    destruct (sendLoop_LoopReturn_inv _ _ _ _ _ _ _ Hloop) as [-> | ->]; discriminate.
  - cbn [fst snd]. split; [assumption | discriminate].
Qed.

Lemma no_next_block_without_ack_witness :
  Forall (eq (server.Write (tftp.PackDATA 2 (repeat "a"%byte 512))))
         (filter is_Write
            (fst (server.transferLoop 2 (server.mkFile (repeat "a"%byte 600) None) 2
                    [server.Datagram (tftp.PackACK 1); server.Timeout;
                     server.Datagram (tftp.PackACK 3)])))
  /\ (forall final,
         snd (server.transferLoop 2 (server.mkFile (repeat "a"%byte 600) None) 2
                [server.Datagram (tftp.PackACK 1); server.Timeout;
                 server.Datagram (tftp.PackACK 3)])
         <> server.Completed final).
Proof.
  apply (no_next_block_without_ack 1 (server.mkFile (repeat "a"%byte 600) None)
           (server.mkFile (repeat "a"%byte 88) None) 2 (repeat "a"%byte 512)).
  - reflexivity.
  - intros d [H | [H | [H | []]]]; try discriminate H.
    + injection H as <-. reflexivity.
    + injection H as <-. reflexivity.
Defined.

(** ** The retries are counted for each block anew *)

(** When the acknowledgment of a block arrives after fewer than [MaxRetries]
    timeouts (and any number of discarded datagrams), the block has been
    written once per outcome, and the transfer goes on exactly as a transfer
    that starts at the next block with what remains of the file and of the
    outcomes: the timeouts spent on one block are not held against the
    next.  After a short block it completes instead. *)
Theorem retries_are_per_block (fuel : nat) (file file' : server.File) (block : Z)
        (chunk d : bytes) (q rest : list server.io_event) :
  server.file_Read file = (Some chunk, file') ->
  forallb (quiet block) q = true ->
  Z.of_nat (timeouts q) < server.MaxRetries ->
  matching_ack block d = true ->
  server.transferLoop (S fuel) file block (q ++ server.Datagram d :: rest)
  = if len chunk <? server.BlockSize
    then (repeat (server.Write (tftp.PackDATA block chunk)) (S (length q)),
          server.Completed (wrap16 (block + 1)))
    else (repeat (server.Write (tftp.PackDATA block chunk)) (S (length q))
            ++ fst (server.transferLoop fuel file' (wrap16 (block + 1)) rest),
          snd (server.transferLoop fuel file' (wrap16 (block + 1)) rest)).
Proof.
  intros Hread Hq Ht Hd.
  rewrite (transferLoop_step _ _ _ _ _ _ Hread).
  rewrite (transferLoop_acked_prefix fuel file file') by assumption.
  rewrite repeat_snoc, afterLoop_cases.
  replace (Z.of_nat (timeouts q) >=? server.MaxRetries) with false
    by (symmetry; rewrite Z.geb_leb; apply Z.leb_gt; assumption).
  destruct (len chunk <? server.BlockSize); [reflexivity|].
  now destruct (server.transferLoop fuel file' (wrap16 (block + 1)) rest).
Qed.

Lemma retries_are_per_block_witness :
  server.transferLoop 2 (server.mkFile (repeat "a"%byte 512) None) 1
    ([server.Timeout; server.Timeout] ++ server.Datagram (tftp.PackACK 1)
       :: [server.Timeout; server.Timeout; server.Datagram (tftp.PackACK 2)])
  = if len (repeat "a"%byte 512) <? server.BlockSize
    then (repeat (server.Write (tftp.PackDATA 1 (repeat "a"%byte 512))) 3,
          server.Completed (wrap16 (1 + 1)))
    else (repeat (server.Write (tftp.PackDATA 1 (repeat "a"%byte 512))) 3
            ++ fst (server.transferLoop 1 (server.mkFile [] None) (wrap16 (1 + 1))
                      [server.Timeout; server.Timeout; server.Datagram (tftp.PackACK 2)]),
          snd (server.transferLoop 1 (server.mkFile [] None) (wrap16 (1 + 1))
                 [server.Timeout; server.Timeout; server.Datagram (tftp.PackACK 2)])).
Proof.
  apply (retries_are_per_block 1 (server.mkFile (repeat "a"%byte 512) None)
           (server.mkFile [] None) 1 (repeat "a"%byte 512) (tftp.PackACK 1)
           [server.Timeout; server.Timeout]
           [server.Timeout; server.Timeout; server.Datagram (tftp.PackACK 2)]).
  - reflexivity.
  - reflexivity.
  - reflexivity.
  - reflexivity.
Defined.

(** ** The dispatch of [handleRequest] *)

Lemma handleRequest_other (BaseDir : bytes) (fs : server.FileSystem) (dial_ok : bool)
      (packet : bytes) (evs : list server.io_event) :
  2 <= len packet ->
  BigEndian.Uint16 (slice packet 0 2) <> tftp.RRQ ->
  server.handleRequest BaseDir fs dial_ok packet evs
  = (server.sendError tftp.ErrNotDefined (lit "Only RRQ is supported"), server.Rejected).
Proof.
  intros Hl Ho. unfold server.handleRequest.
  apply Z.ltb_ge in Hl. apply Z.eqb_neq in Ho. now rewrite Hl, Ho.
Qed.

(** A datagram of fewer than two bytes is dropped without a reply.  A
    datagram that carries any opcode but RRQ, be it a write request, a data
    packet, an acknowledgment or an error packet, is answered with the one
    error packet [ErrNotDefined] "Only RRQ is supported", and nothing else is
    done for it. *)
Theorem only_read_requests_are_served (BaseDir : bytes) (fs : server.FileSystem)
        (dial_ok : bool) (evs : list server.io_event) :
  let refused := (server.sendError tftp.ErrNotDefined (lit "Only RRQ is supported"),
                  server.Rejected) in
  (forall packet, len packet < 2 ->
                  server.handleRequest BaseDir fs dial_ok packet evs = ([], server.Ignored))
  /\ (forall packet, 2 <= len packet ->
                     BigEndian.Uint16 (slice packet 0 2) <> tftp.RRQ ->
                     server.handleRequest BaseDir fs dial_ok packet evs = refused)
  /\ (forall filename mode q,
         tftp.packRQ tftp.WRQ filename mode = tftp.Return q ->
         server.handleRequest BaseDir fs dial_ok q evs = refused)
  /\ (forall block payload,
         server.handleRequest BaseDir fs dial_ok (tftp.PackDATA block payload) evs = refused)
  /\ (forall block,
         server.handleRequest BaseDir fs dial_ok (tftp.PackACK block) evs = refused)
  /\ (forall code msg,
         server.handleRequest BaseDir fs dial_ok (tftp.PackERROR code msg) evs = refused).
Proof.
  intros refused. split; [|split; [|split; [|split; [|split]]]].
  - intros packet H. unfold server.handleRequest. apply Z.ltb_lt in H. now rewrite H.
  - intros packet Hl Ho. now apply handleRequest_other.
  - intros filename mode q H. apply packRQ_shape in H as [-> _].
    apply handleRequest_other; [|discriminate].
    change (BigEndian.PutUint16 tftp.WRQ ++ filename ++ x00 :: mode ++ [x00])
      with (x00 :: x02 :: filename ++ x00 :: mode ++ [x00]).
    rewrite !len_cons. pose proof (len_nonneg (filename ++ x00 :: mode ++ [x00])). lia.
  - intros block payload. apply handleRequest_other; [|discriminate].
    rewrite PackDATA_shape, !len_cons. pose proof (len_nonneg payload). lia.
  - intros block. apply handleRequest_other; [|discriminate].
    change (len (tftp.PackACK block)) with 4. lia.
  - intros code msg. apply handleRequest_other; [|discriminate].
    rewrite PackERROR_shape, !len_cons. pose proof (len_nonneg (msg ++ [x00])). lia.
Qed.

Lemma only_read_requests_are_served_witness :
  server.handleRequest (lit "/srv") (fun _ => server.NotExist) true [x00; x07; x00] []
  = (server.sendError tftp.ErrNotDefined (lit "Only RRQ is supported"), server.Rejected).
Proof.
  destruct (only_read_requests_are_served (lit "/srv") (fun _ => server.NotExist) true [])
    as (_ & H & _).
  apply H; [unfold len; cbn [length]; lia | discriminate].
Defined.

Lemma handleRequest_RRQ (BaseDir : bytes) (fs : server.FileSystem) (dial_ok : bool)
      (filename mode rest : bytes) (evs : list server.io_event) :
  NoNUL filename -> NoNUL mode ->
  server.handleRequest BaseDir fs dial_ok
    (BigEndian.PutUint16 tftp.RRQ ++ filename ++ x00 :: mode ++ x00 :: rest) evs
  = server.serveReadRequest BaseDir fs dial_ok (tftp.mkRRQ filename mode) evs.
Proof.
  intros Hf Hm. unfold server.handleRequest.
  rewrite ParseRRQ_layout by assumption.
  change (BigEndian.PutUint16 tftp.RRQ ++ filename ++ x00 :: mode ++ x00 :: rest)
    with (x00 :: x01 :: filename ++ x00 :: mode ++ x00 :: rest).
  replace (len _ <? 2) with false
    by (symmetry; apply Z.ltb_ge; rewrite !len_cons;
        pose proof (len_nonneg (filename ++ x00 :: mode ++ x00 :: rest)); lia).
  reflexivity.
Qed.

(** A serialised read request handed to [handleRequest] is served as the
    request that was serialised, provided its filename holds no NUL.  A
    datagram that carries the RRQ opcode but is no request, whatever the
    decoder's complaint, is answered with [ErrNotDefined]
    "Invalid RRQ packet" alone. *)
Theorem read_request_dispatch (BaseDir : bytes) (fs : server.FileSystem) (dial_ok : bool)
        (evs : list server.io_event) :
  (forall rq p,
      tftp.Serialize rq = tftp.Return p ->
      NoNUL (tftp.rrq_Filename rq) ->
      server.handleRequest BaseDir fs dial_ok p evs
      = server.serveReadRequest BaseDir fs dial_ok rq evs)
  /\ (forall b0 b1 body e,
         BigEndian.Uint16 [b0; b1] = tftp.RRQ ->
         tftp.unpackRQ (b0 :: b1 :: body) = tftp.Err e ->
         server.handleRequest BaseDir fs dial_ok (b0 :: b1 :: body) evs
         = (server.sendError tftp.ErrNotDefined (lit "Invalid RRQ packet"),
            server.Rejected)).
Proof.
  split.
  - intros [f m] p H Hf. cbn in H, Hf. apply packRQ_shape in H as [-> Hm].
    apply (handleRequest_RRQ BaseDir fs dial_ok f m []); [assumption|].
    now apply valid_mode_NoNUL.
  - intros b0 b1 body e Ho Hu. unfold server.handleRequest, tftp.ParseRRQ.
    replace (len (b0 :: b1 :: body) <? 2) with false
      by (symmetry; apply Z.ltb_ge; rewrite !len_cons; pose proof (len_nonneg body); lia).
    rewrite slice_0. cbn [firstn]. rewrite Ho, Hu. reflexivity.
Qed.

Lemma read_request_dispatch_witness :
  server.handleRequest (lit "/srv") (fun _ => server.NotExist) true
                       (x00 :: x01 :: lit "file" ++ x00 :: lit "octet" ++ [x00]) []
  = server.serveReadRequest (lit "/srv") (fun _ => server.NotExist) true
                            (tftp.mkRRQ (lit "file") (lit "octet")) []
  /\ server.handleRequest (lit "/srv") (fun _ => server.NotExist) true
                          (x00 :: x01 :: lit "file") []
     = (server.sendError tftp.ErrNotDefined (lit "Invalid RRQ packet"), server.Rejected).
Proof.
  destruct (read_request_dispatch (lit "/srv") (fun _ => server.NotExist) true [])
    as (H1 & H2).
  split.
  - apply (H1 (tftp.mkRRQ (lit "file") (lit "octet"))).
    + reflexivity.
    + repeat constructor; discriminate.
  - apply (H2 x00 x01 (lit "file") tftp.ErrMissingNullTerm); reflexivity.
Defined.

(** ** The mode check of the server *)

Lemma serveReadRequest_bad_mode (BaseDir : bytes) (fs : server.FileSystem)
      (dial_ok : bool) (rrq : tftp.ReadRequest) (evs : list server.io_event) :
  tftp.isValidMode (tftp.rrq_Mode rrq) = false ->
  server.serveReadRequest BaseDir fs dial_ok rrq evs
  = (server.sendError tftp.ErrNotDefined (lit "Unsupported transfer mode"),
     server.Rejected).
Proof.
  unfold tftp.isValidMode, server.serveReadRequest. intros H.
  apply orb_false_iff in H as [H Hmail]. apply orb_false_iff in H as [Hnet Hoct].
  now rewrite Hnet, Hoct, Hmail.
Qed.

(** The server refuses a request with [ErrNotDefined]
    "Unsupported transfer mode" exactly when serialising that request would
    panic: its mode test and the codec's [isValidMode] accept the same three
    modes.  The refusal comes before the filename is looked at, and nothing
    is opened. *)
Theorem unsupported_mode_is_refused_first (BaseDir : bytes) (fs : server.FileSystem)
        (dial_ok : bool) (rrq : tftp.ReadRequest) (evs : list server.io_event) :
  (exists msg, tftp.Serialize rrq = tftp.Panic msg)
  <-> server.serveReadRequest BaseDir fs dial_ok rrq evs
      = (server.sendError tftp.ErrNotDefined (lit "Unsupported transfer mode"),
         server.Rejected).
Proof.
  destruct rrq as [f m]. cbn [tftp.Serialize tftp.ReadRequest_packet tftp.rrq_Filename
                                tftp.rrq_Mode].
  rewrite packRQ_Panic, <- isValidMode_cases.
  destruct (tftp.isValidMode m) eqn:Hm.
  - split; [intros H; now contradiction H|].
    intros H. exfalso. revert H. unfold server.serveReadRequest.
    cbn [tftp.rrq_Mode tftp.rrq_Filename].
    rewrite (valid_mode_passes _ Hm).
    destruct (filepath.Rel _ _) as [rel|].
    + destruct (strings.HasPrefix rel (lit "..")).
      * intros H. vm_compute in H. discriminate H.
      * destruct (fs _); try discriminate.
        destruct (negb dial_ok); [discriminate|].
        destruct (server.transferLoop _ _ _ _). discriminate.
    + intros H. vm_compute in H. discriminate H.
  - split; [|intros _; discriminate].
    intros _. now apply serveReadRequest_bad_mode.
Qed.

Lemma unsupported_mode_is_refused_first_witness :
  server.serveReadRequest (lit "/srv") (fun _ => server.Opened (server.mkFile [] None)) true
                          (tftp.mkRRQ (lit "../../etc/passwd") (lit "OCTET")) []
  = (server.sendError tftp.ErrNotDefined (lit "Unsupported transfer mode"), server.Rejected).
Proof.
  apply (unsupported_mode_is_refused_first (lit "/srv")
           (fun _ => server.Opened (server.mkFile [] None)) true
           (tftp.mkRRQ (lit "../../etc/passwd") (lit "OCTET")) []).
  exists (lit "unsupported TFTP mode: " ++ lit "OCTET"). reflexivity.
Defined.

(** ** Names that stay inside the base directory *)

Lemma cleanLoop_keeps_plain (rooted : bool) (elems : list bytes) :
  forall out dotdot,
    forallb plain elems = true ->
    filepath.cleanLoop rooted elems out dotdot = rev out ++ elems.
Proof.
  induction elems as [|e elems IH]; intros out dotdot H.
  - cbn [filepath.cleanLoop]. now rewrite app_nil_r.
  - cbn [forallb] in H. apply andb_true_iff in H as [He H].
    unfold plain in He. rewrite !andb_true_iff, !negb_true_iff in He.
    destruct He as [[[E0 E1] E2] _].
    cbn [filepath.cleanLoop]. rewrite E0, E1, E2. cbn [orb].
    rewrite IH by assumption. cbn [rev]. now rewrite <- app_assoc.
Qed.

Lemma plain_head (e : bytes) :
  plain e = true -> exists b e', e = b :: e' /\ Byte.eqb b "/"%byte = false.
Proof.
  unfold plain. rewrite !andb_true_iff. intros [[[H0 _] _] Hs].
  destruct e as [|b e']; [discriminate|].
  cbn [slashfree forallb] in Hs. apply andb_true_iff in Hs as [Hb _].
  apply negb_true_iff in Hb. now exists b, e'.
Qed.

Lemma Join_plain_head (es : list bytes) :
  es <> [] -> forallb plain es = true ->
  exists b s, strings.Join es = b :: s /\ Byte.eqb b "/"%byte = false.
Proof.
  intros Hne H. destruct es as [|e es]; [contradiction|].
  cbn [forallb] in H. apply andb_true_iff in H as [He _].
  destruct (plain_head e He) as (b & e' & -> & Hb).
  destruct es; cbn [strings.Join app]; eauto.
Qed.

Lemma Clean_plain_relative (es : list bytes) :
  es <> [] -> forallb plain es = true ->
  filepath.Clean (strings.Join es) = strings.Join es.
Proof.
  intros Hne H. destruct (Join_plain_head es Hne H) as (b & s & E & Hb).
  unfold filepath.Clean. rewrite E. cbn [bytes_eqb filepath.isRooted]. rewrite Hb.
  rewrite <- E, Split_Join by (assumption || now apply plain_slashfree).
  rewrite cleanLoop_keeps_plain by assumption. cbn [rev app].
  destruct es; [contradiction | reflexivity].
Qed.

Lemma Split_rooted (l : list bytes) :
  forallb plain l = true ->
  strings.Split ("/"%byte :: strings.Join l)
  = [] :: match l with [] => [[]] | _ => l end.
Proof.
  intros H. cbn [strings.Split]. change (Byte.eqb "/" "/") with true. cbv iota.
  destruct l as [|e es]; [reflexivity|].
  rewrite Split_Join; [reflexivity | discriminate | now apply plain_slashfree].
Qed.

Lemma Clean_plain_rooted (l : list bytes) :
  forallb plain l = true ->
  filepath.Clean ("/"%byte :: strings.Join l) = "/"%byte :: strings.Join l
  /\ filepath.elements ("/"%byte :: strings.Join l) = l.
Proof.
  intros H. split.
  - unfold filepath.Clean. cbn [bytes_eqb filepath.isRooted].
    change (Byte.eqb "/" "/") with true. cbv iota.
    rewrite Split_rooted by assumption. cbn [filepath.cleanLoop bytes_eqb orb].
    destruct l as [|e es]; [reflexivity|].
    now rewrite cleanLoop_keeps_plain.
  - unfold filepath.elements. rewrite Split_rooted by assumption.
    cbn [filter bytes_eqb negb].
    destruct l; [reflexivity|]. now apply plain_filter.
Qed.

Lemma plain_app (l1 l2 : list bytes) :
  forallb plain l1 = true -> forallb plain l2 = true -> forallb plain (l1 ++ l2) = true.
Proof. intros H1 H2. rewrite forallb_app. now rewrite H1, H2. Qed.

Lemma stripCommon_app (bs ts : list bytes) :
  filepath.stripCommon bs (bs ++ ts) = ([], ts).
Proof.
  induction bs as [|b bs IH]; cbn [app filepath.stripCommon].
  - now destruct ts.
  - now rewrite bytes_eqb_refl.
Qed.

(** The base directory as its plain elements. *)
Lemma BaseDir_elements (BaseDir : bytes) :
  filepath.isRooted BaseDir = true ->
  filepath.Clean BaseDir = BaseDir ->
  forallb plain (filepath.elements BaseDir) = true
  /\ BaseDir = "/"%byte :: strings.Join (filepath.elements BaseDir).
Proof.
  intros Hroot Hclean.
  destruct (Clean_rooted_elements BaseDir Hroot) as (eB & Hp & HB & HeB & _).
  rewrite Hclean in HB.
  assert (E : filepath.elements BaseDir = eB) by (rewrite HB; exact HeB).
  rewrite E. now split.
Qed.

Lemma resolve_plain (BaseDir : bytes) (es : list bytes) :
  filepath.isRooted BaseDir = true ->
  filepath.Clean BaseDir = BaseDir ->
  es <> [] -> forallb plain es = true ->
  resolve BaseDir (strings.Join es)
  = "/"%byte :: strings.Join (filepath.elements BaseDir ++ es).
Proof.
  intros Hroot Hclean Hne Hes.
  destruct (BaseDir_elements BaseDir Hroot Hclean) as [HpB HB].
  set (eB := filepath.elements BaseDir) in *.
  assert (Hall : forallb plain (eB ++ es) = true) by now apply plain_app.
  unfold resolve. rewrite Clean_plain_relative by assumption.
  assert (HJ : filepath.Join [BaseDir; strings.Join es]
               = "/"%byte :: strings.Join (eB ++ es)).
  { rewrite HB at 1. cbn [filepath.Join bytes_eqb strings.Join].
    unfold filepath.Clean. cbn [app bytes_eqb filepath.isRooted].
    change (Byte.eqb "/" "/") with true. cbv iota. f_equal.
    cbn [strings.Split]. change (Byte.eqb "/" "/") with true. cbv iota.
    destruct eB as [|b eB'] eqn:EB.
    - cbn [strings.Join app strings.Split]. change (Byte.eqb "/" "/") with true. cbv iota.
      rewrite Split_Join by (assumption || now apply plain_slashfree).
      cbn [filepath.cleanLoop bytes_eqb orb].
      now rewrite cleanLoop_keeps_plain.
    - rewrite <- Join_app by (discriminate || assumption).
      rewrite Split_Join; [| now destruct es | now apply plain_slashfree].
      cbn [filepath.cleanLoop bytes_eqb orb].
      now rewrite cleanLoop_keeps_plain. }
  rewrite HJ. now apply Clean_plain_rooted.
Qed.

Lemma Rel_plain (BaseDir : bytes) (es : list bytes) :
  filepath.isRooted BaseDir = true ->
  filepath.Clean BaseDir = BaseDir ->
  es <> [] -> forallb plain es = true ->
  filepath.Rel BaseDir (resolve BaseDir (strings.Join es)) = Some (strings.Join es).
Proof.
  intros Hroot Hclean Hne Hes.
  rewrite resolve_plain by assumption.
  destruct (BaseDir_elements BaseDir Hroot Hclean) as [HpB HB].
  set (eB := filepath.elements BaseDir) in *.
  assert (Hall : forallb plain (eB ++ es) = true) by now apply plain_app.
  destruct (Clean_plain_rooted (eB ++ es) Hall) as [HC HE].
  destruct (Clean_plain_rooted eB HpB) as [_ HEb].
  unfold filepath.Rel. rewrite Hclean, HC.
  assert (Hneq : bytes_eqb ("/"%byte :: strings.Join (eB ++ es)) BaseDir = false).
  { apply bytes_eqb_neq. intros E.
    assert (E' : filepath.elements ("/"%byte :: strings.Join (eB ++ es))
                 = filepath.elements ("/"%byte :: strings.Join eB)) by now rewrite E, <- HB.
    rewrite HE, HEb in E'.
    apply (f_equal (@length bytes)) in E'. rewrite length_app in E'.
    destruct es; [contradiction | cbn in E'; lia]. }
  assert (Hdot : bytes_eqb BaseDir (lit ".") = false).
  { clear -Hroot. destruct BaseDir as [|c B]; [discriminate|].
    cbn in Hroot. apply Byte.byte_dec_bl in Hroot. now subst c. }
  rewrite Hneq, Hdot, Hroot.
  cbn [filepath.isRooted]. change (Byte.eqb "/" "/") with true. cbn [Bool.eqb negb].
  change (filepath.elements BaseDir) with eB.
  rewrite HE, stripCommon_app. reflexivity.
Qed.

Lemma serveReadRequest_checked (BaseDir : bytes) (fs : server.FileSystem)
      (dial_ok : bool) (name mode rel : bytes) (evs : list server.io_event) :
  tftp.isValidMode mode = true ->
  filepath.Rel BaseDir (resolve BaseDir name) = Some rel ->
  server.serveReadRequest BaseDir fs dial_ok (tftp.mkRRQ name mode) evs
  = if strings.HasPrefix rel (lit "..")
    then (server.sendError tftp.ErrAccessViolation (lit "Access denied"), server.Rejected)
    else
      match fs (resolve BaseDir name) with
      | server.NotExist =>
          (server.Open (resolve BaseDir name)
             :: server.sendError tftp.ErrFileNotFound (lit "File not found"),
           server.Rejected)
      | server.OpenFails =>
          (server.Open (resolve BaseDir name)
             :: server.sendError tftp.ErrAccessViolation (lit "Cannot open file"),
           server.Rejected)
      | server.Opened file =>
          if dial_ok
          then (server.Open (resolve BaseDir name) :: server.Dial
                  :: fst (server.transferLoop (S (length evs)) file 1 evs),
                snd (server.transferLoop (S (length evs)) file 1 evs))
          else ([server.Open (resolve BaseDir name); server.Dial], server.DialError)
      end.
Proof.
  intros Hmode Hrel. unfold server.serveReadRequest.
  cbn [tftp.rrq_Mode tftp.rrq_Filename].
  rewrite (valid_mode_passes _ Hmode).
  change (filepath.Clean (filepath.Join [BaseDir; filepath.Clean name]))
    with (resolve BaseDir name).
  rewrite Hrel. destruct (strings.HasPrefix rel (lit "..")); [reflexivity|].
  destruct (fs (resolve BaseDir name)); try reflexivity.
  destruct dial_ok; cbn [negb]; [|reflexivity].
  now destruct (server.transferLoop (S (length evs)) f 1 evs).
Qed.

(** A name made of plain elements (none empty, [.] or [..], none holding a
    separator) that does not begin with two dots resolves to the base
    directory followed by the name, and that path is what the server opens.
    A missing file is answered with [ErrFileNotFound], any other failure to
    open with [ErrAccessViolation] "Cannot open file"; when the dial fails
    nothing is sent; otherwise the transfer runs from block 1. *)
Theorem plain_name_is_opened (BaseDir : bytes) (fs : server.FileSystem) (dial_ok : bool)
        (es : list bytes) (mode : bytes) (evs : list server.io_event) :
  filepath.isRooted BaseDir = true ->
  filepath.Clean BaseDir = BaseDir ->
  es <> [] ->
  forallb plain es = true ->
  strings.HasPrefix (strings.Join es) (lit "..") = false ->
  tftp.isValidMode mode = true ->
  let path := resolve BaseDir (strings.Join es) in
  path = (if bytes_eqb BaseDir (lit "/") then BaseDir else BaseDir ++ lit "/")
           ++ strings.Join es
  /\ server.serveReadRequest BaseDir fs dial_ok (tftp.mkRRQ (strings.Join es) mode) evs
     = match fs path with
       | server.NotExist =>
           (server.Open path :: server.sendError tftp.ErrFileNotFound (lit "File not found"),
            server.Rejected)
       | server.OpenFails =>
           (server.Open path
              :: server.sendError tftp.ErrAccessViolation (lit "Cannot open file"),
            server.Rejected)
       | server.Opened file =>
           if dial_ok
           then (server.Open path :: server.Dial
                   :: fst (server.transferLoop (S (length evs)) file 1 evs),
                 snd (server.transferLoop (S (length evs)) file 1 evs))
           else ([server.Open path; server.Dial], server.DialError)
       end.
Proof.
  intros Hroot Hclean Hne Hes Hpre Hmode path. split.
  - subst path. rewrite resolve_plain by assumption.
    destruct (BaseDir_elements BaseDir Hroot Hclean) as [HpB HB].
    destruct (filepath.elements BaseDir) as [|b eB] eqn:EB.
    + rewrite HB. reflexivity.
    + rewrite Join_app by (discriminate || assumption).
      destruct (Join_plain_head (b :: eB) ltac:(discriminate) HpB) as (c & s & E & _).
      clear EB Hroot Hclean. subst BaseDir. rewrite E.
      replace (bytes_eqb ("/"%byte :: c :: s) (lit "/")) with false
        by (symmetry; apply bytes_eqb_neq; discriminate).
      cbn [app]. rewrite <- app_assoc. reflexivity.
  - rewrite (serveReadRequest_checked _ _ _ _ _ _ _ Hmode (Rel_plain _ _ Hroot Hclean Hne Hes)).
    now rewrite Hpre.
Qed.

Lemma plain_name_is_opened_witness :
  resolve (lit "/srv/tftp-root") (strings.Join [lit "boot"; lit "image.bin"])
  = (if bytes_eqb (lit "/srv/tftp-root") (lit "/")
     then lit "/srv/tftp-root" else lit "/srv/tftp-root" ++ lit "/")
      ++ strings.Join [lit "boot"; lit "image.bin"]
  /\ server.serveReadRequest (lit "/srv/tftp-root") (fun _ => server.NotExist) true
       (tftp.mkRRQ (strings.Join [lit "boot"; lit "image.bin"]) (lit "octet")) []
     = match (fun _ : bytes => server.NotExist)
               (resolve (lit "/srv/tftp-root") (strings.Join [lit "boot"; lit "image.bin"])) with
       | server.NotExist =>
           (server.Open (resolve (lit "/srv/tftp-root")
                                 (strings.Join [lit "boot"; lit "image.bin"]))
              :: server.sendError tftp.ErrFileNotFound (lit "File not found"),
            server.Rejected)
       | server.OpenFails =>
           (server.Open (resolve (lit "/srv/tftp-root")
                                 (strings.Join [lit "boot"; lit "image.bin"]))
              :: server.sendError tftp.ErrAccessViolation (lit "Cannot open file"),
            server.Rejected)
       | server.Opened file =>
           if true
           then (server.Open (resolve (lit "/srv/tftp-root")
                                      (strings.Join [lit "boot"; lit "image.bin"]))
                   :: server.Dial
                   :: fst (server.transferLoop 1 file 1 []),
                 snd (server.transferLoop 1 file 1 []))
           else ([server.Open (resolve (lit "/srv/tftp-root")
                                       (strings.Join [lit "boot"; lit "image.bin"]));
                  server.Dial], server.DialError)
       end.
Proof.
  apply (plain_name_is_opened (lit "/srv/tftp-root") (fun _ => server.NotExist) true
           [lit "boot"; lit "image.bin"] (lit "octet") []); try reflexivity.
  discriminate.
Defined.

(** The containment test is made on the first two bytes of the relative
    path, so it also refuses names that stay inside the base directory when
    their first element merely begins with two dots: such a request is
    answered with [ErrAccessViolation] "Access denied" and no file is opened,
    although the resolved path lies lexically inside the base directory. *)
Theorem dotted_names_are_refused (BaseDir : bytes) (fs : server.FileSystem)
        (dial_ok : bool) (es : list bytes) (mode : bytes) (evs : list server.io_event) :
  filepath.isRooted BaseDir = true ->
  filepath.Clean BaseDir = BaseDir ->
  es <> [] ->
  forallb plain es = true ->
  strings.HasPrefix (strings.Join es) (lit "..") = true ->
  tftp.isValidMode mode = true ->
  server.serveReadRequest BaseDir fs dial_ok (tftp.mkRRQ (strings.Join es) mode) evs
  = (server.sendError tftp.ErrAccessViolation (lit "Access denied"), server.Rejected)
  /\ lexicallyInside BaseDir (resolve BaseDir (strings.Join es)).
Proof.
  intros Hroot Hclean Hne Hes Hpre Hmode. split.
  - rewrite (serveReadRequest_checked _ _ _ _ _ _ _ Hmode (Rel_plain _ _ Hroot Hclean Hne Hes)).
    now rewrite Hpre.
  - apply elementsLead_inside; try assumption.
    exists es. rewrite resolve_plain by assumption.
    destruct (BaseDir_elements BaseDir Hroot Hclean) as [HpB HB].
    destruct (Clean_plain_rooted _ (plain_app _ _ HpB Hes)) as [-> ->].
    now rewrite Hclean.
Qed.

Lemma dotted_names_are_refused_witness :
  server.serveReadRequest (lit "/srv/tftp-root")
                          (fun _ => server.Opened (server.mkFile [] None)) true
                          (tftp.mkRRQ (strings.Join [lit "..config"]) (lit "octet")) []
  = (server.sendError tftp.ErrAccessViolation (lit "Access denied"), server.Rejected)
  /\ lexicallyInside (lit "/srv/tftp-root")
                     (resolve (lit "/srv/tftp-root") (strings.Join [lit "..config"])).
Proof.
  apply (dotted_names_are_refused (lit "/srv/tftp-root")
           (fun _ => server.Opened (server.mkFile [] None)) true
           [lit "..config"] (lit "octet") []); try reflexivity.
  discriminate.
Defined.

(** ** One reply at most *)

Lemma data_packets_no_SendTo (body : list server.action) :
  Forall is_data_packet body ->
  filter is_SendTo body = [] /\ filter is_Open body = [].
Proof.
  induction 1 as [|a body (block & chunk & -> & _) _ [IH1 IH2]]; [now split|].
  cbn [filter is_SendTo is_Open]. now split.
Qed.

Lemma serveReadRequest_reply (BaseDir : bytes) (fs : server.FileSystem) (dial_ok : bool)
      (rrq : tftp.ReadRequest) (evs : list server.io_event) :
  exists pre reply,
    fst (server.serveReadRequest BaseDir fs dial_ok rrq evs) = pre ++ reply
    /\ filter is_SendTo pre = []
    /\ (length (filter is_Open pre) <= 1)%nat
    /\ ((reply = []
         /\ snd (server.serveReadRequest BaseDir fs dial_ok rrq evs) <> server.Rejected
         /\ snd (server.serveReadRequest BaseDir fs dial_ok rrq evs) <> server.NoAck)
        \/ (exists p, reply = [server.SendTo p]
                      /\ (snd (server.serveReadRequest BaseDir fs dial_ok rrq evs)
                          = server.Rejected
                          \/ snd (server.serveReadRequest BaseDir fs dial_ok rrq evs)
                             = server.NoAck))).
Proof.
  unfold server.serveReadRequest.
  assert (Hrej : forall name code msg,
             exists pre reply,
               server.Open name :: server.sendError code msg = pre ++ reply
               /\ filter is_SendTo pre = []
               /\ (length (filter is_Open pre) <= 1)%nat
               /\ ((reply = [] /\ server.Rejected <> server.Rejected
                    /\ server.Rejected <> server.NoAck)
                   \/ (exists p, reply = [server.SendTo p]
                                 /\ (server.Rejected = server.Rejected
                                     \/ server.Rejected = server.NoAck)))).
  { intros name code msg. exists [server.Open name], (server.sendError code msg).
    repeat split; try (cbn; lia). right. eexists. split; [reflexivity | now left]. }
  assert (Hdeny : forall code msg,
             exists pre reply,
               server.sendError code msg = pre ++ reply
               /\ filter is_SendTo pre = []
               /\ (length (filter is_Open pre) <= 1)%nat
               /\ ((reply = [] /\ server.Rejected <> server.Rejected
                    /\ server.Rejected <> server.NoAck)
                   \/ (exists p, reply = [server.SendTo p]
                                 /\ (server.Rejected = server.Rejected
                                     \/ server.Rejected = server.NoAck)))).
  { intros code msg. exists [], (server.sendError code msg).
    repeat split; try (cbn; lia). right. eexists. split; [reflexivity | now left]. }
  destruct (_ && _); [apply Hdeny|].
  destruct (filepath.Rel _ _) as [rel|]; [|apply Hdeny].
  destruct (strings.HasPrefix rel (lit "..")); [apply Hdeny|].
  set (filename := filepath.Clean _).
  destruct (fs filename) as [file| |]; [|apply Hrej|apply Hrej].
  destruct (negb dial_ok).
  { exists [server.Open filename; server.Dial], []. cbn [fst snd].
    repeat split; try (cbn; lia). left. repeat split; discriminate. }
  destruct (server.transferLoop (S (length evs)) file 1 evs) as [tr out] eqn:Htr.
  destruct (transferLoop_shape _ _ 1 _ _ _ ltac:(lia) Htr) as (body & -> & Hbody & _ & Hnr).
  destruct (data_packets_no_SendTo body Hbody) as [HS HO].
  exists (server.Open filename :: server.Dial :: body), (closing_error out).
  cbn [fst snd]. repeat split.
  - cbn [filter is_SendTo]. exact HS.
  - cbn [filter is_Open length]. rewrite HO. cbn. lia.
  - destruct out; cbn [closing_error];
      try (left; repeat split; (reflexivity || discriminate || assumption)).
    right. eexists. split; [reflexivity | now right].
Qed.

(** Whatever datagram arrives and whatever follows, the goroutine that
    handles it sends at most one packet from the server's socket, and that
    packet, an error packet, is the last thing it does; it is sent exactly
    when the request is refused or the retries are exhausted.  At most one
    file is opened. *)
Theorem one_reply_at_most (BaseDir : bytes) (fs : server.FileSystem) (dial_ok : bool)
        (packet : bytes) (evs : list server.io_event) :
  exists pre reply,
    fst (server.handleRequest BaseDir fs dial_ok packet evs) = pre ++ reply
    /\ filter is_SendTo pre = []
    /\ (length (filter is_Open pre) <= 1)%nat
    /\ ((reply = []
         /\ snd (server.handleRequest BaseDir fs dial_ok packet evs) <> server.Rejected
         /\ snd (server.handleRequest BaseDir fs dial_ok packet evs) <> server.NoAck)
        \/ (exists code msg,
               reply = [server.SendTo (tftp.PackERROR code msg)]
               /\ (snd (server.handleRequest BaseDir fs dial_ok packet evs) = server.Rejected
                   \/ snd (server.handleRequest BaseDir fs dial_ok packet evs)
                      = server.NoAck))).
Proof.
  assert (Hwiden : forall r : list server.action * server.outcome,
             (exists pre reply,
                 fst r = pre ++ reply
                 /\ filter is_SendTo pre = []
                 /\ (length (filter is_Open pre) <= 1)%nat
                 /\ ((reply = [] /\ snd r <> server.Rejected /\ snd r <> server.NoAck)
                     \/ (exists p, reply = [server.SendTo p]
                                   /\ (snd r = server.Rejected \/ snd r = server.NoAck))))
             -> Forall (fun a => forall p, a = server.SendTo p ->
                                           exists code msg, p = tftp.PackERROR code msg)
                       (fst r)
             -> exists pre reply,
                 fst r = pre ++ reply
                 /\ filter is_SendTo pre = []
                 /\ (length (filter is_Open pre) <= 1)%nat
                 /\ ((reply = [] /\ snd r <> server.Rejected /\ snd r <> server.NoAck)
                     \/ (exists code msg,
                            reply = [server.SendTo (tftp.PackERROR code msg)]
                            /\ (snd r = server.Rejected \/ snd r = server.NoAck)))).
  { intros r (pre & reply & E & H1 & H2 & H3) Hall.
    exists pre, reply. repeat split; try assumption.
    destruct H3 as [H3 | (p & -> & H3)]; [now left|]. right.
    rewrite E in Hall. apply Forall_app in Hall as [_ Hall].
    inversion Hall as [|? ? Hp _]; subst.
    destruct (Hp p eq_refl) as (code & msg & ->). now exists code, msg. }
  apply Hwiden.
  - unfold server.handleRequest.
    destruct (len packet <? 2).
    { exists [], []. cbn. repeat split; try lia. left. repeat split; discriminate. }
    destruct (_ =? _).
    + destruct (tftp.ParseRRQ packet) as [rrq|e]; [apply serveReadRequest_reply|].
      exists [], (server.sendError tftp.ErrNotDefined (lit "Invalid RRQ packet")).
      cbn [fst snd]. repeat split; try (cbn; lia).
      right. eexists. split; [reflexivity | now left].
    + exists [], (server.sendError tftp.ErrNotDefined (lit "Only RRQ is supported")).
      cbn [fst snd]. repeat split; try (cbn; lia).
      right. eexists. split; [reflexivity | now left].
  - assert (Herr : forall code msg,
               Forall (fun a => forall p, a = server.SendTo p ->
                                          exists c m, p = tftp.PackERROR c m)
                      (server.sendError code msg)).
    { intros code msg. constructor; [|constructor].
      intros p H. injection H as <-. now exists code, msg. }
    assert (Hcons : forall a l,
               is_SendTo a = false ->
               Forall (fun a => forall p, a = server.SendTo p ->
                                          exists c m, p = tftp.PackERROR c m) l ->
               Forall (fun a => forall p, a = server.SendTo p ->
                                          exists c m, p = tftp.PackERROR c m) (a :: l)).
    { intros a l Ha Hl. constructor; [|assumption]. intros p ->. discriminate. }
    unfold server.handleRequest.
    destruct (len packet <? 2); [constructor|].
    destruct (_ =? _); [|apply Herr].
    destruct (tftp.ParseRRQ packet) as [rrq|e]; [|apply Herr].
    unfold server.serveReadRequest.
    destruct (_ && _); [apply Herr|].
    destruct (filepath.Rel _ _) as [rel|]; [|apply Herr].
    destruct (strings.HasPrefix rel (lit "..")); [apply Herr|].
    set (filename := filepath.Clean _).
    destruct (fs filename) as [file| |];
      [|apply Hcons; [reflexivity | apply Herr]|apply Hcons; [reflexivity | apply Herr]].
    destruct (negb dial_ok).
    { cbn [fst]. repeat (apply Hcons; [reflexivity|]). constructor. }
    destruct (server.transferLoop (S (length evs)) file 1 evs) as [tr out] eqn:Htr.
    destruct (transferLoop_shape _ _ 1 _ _ _ ltac:(lia) Htr) as (body & -> & Hbody & _).
    cbn [fst]. repeat (apply Hcons; [reflexivity|]).
    apply Forall_app. split.
    + eapply Forall_impl; [|exact Hbody].
      intros a (block & chunk & -> & _) p H. discriminate H.
    + destruct out; cbn [closing_error]; try (constructor; fail). apply Herr.
Qed.

(** ** From the request datagram to the last block *)

(** A serialised read request for a plain name that does not begin with two
    dots, whose resolved path the file system opens, served to a client that
    acknowledges every block: the goroutine opens that path, dials the client
    and writes the file in 512-byte blocks numbered from 1, the last one
    short, and completes; the payloads put end to end are the contents of the
    file. *)
Theorem read_request_end_to_end (BaseDir : bytes) (fs : server.FileSystem)
        (es : list bytes) (mode p content : bytes) :
  filepath.isRooted BaseDir = true ->
  filepath.Clean BaseDir = BaseDir ->
  es <> [] ->
  forallb plain es = true ->
  strings.HasPrefix (strings.Join es) (lit "..") = false ->
  NoNUL (strings.Join es) ->
  tftp.Serialize (tftp.mkRRQ (strings.Join es) mode) = tftp.Return p ->
  fs (resolve BaseDir (strings.Join es)) = server.Opened (server.mkFile content None) ->
  let k := (length content / 512)%nat in
  exists tr,
    server.handleRequest BaseDir fs true p (acks_from 1 (S k))
    = (server.Open (resolve BaseDir (strings.Join es)) :: server.Dial :: tr,
       server.Completed (wrap16 (1 + Z.of_nat k + 1)))
    /\ payloads tr = content
    /\ length tr = S k.
Proof.
  intros Hroot Hclean Hne Hes Hpre Hnul Hser Hfs k.
  cbn in Hser. apply packRQ_shape in Hser as [-> Hmode].
  rewrite (handleRequest_RRQ BaseDir fs true (strings.Join es) mode [])
    by (assumption || now apply valid_mode_NoNUL).
  rewrite (serveReadRequest_checked _ _ _ _ _ _ _ Hmode (Rel_plain _ _ Hroot Hclean Hne Hes)).
  rewrite Hpre, Hfs.
  assert (Hk : (k * 512 <= length content < S k * 512)%nat).
  { subst k. pose proof (Nat.div_mod_eq (length content) 512) as Hd.
    pose proof (Nat.mod_upper_bound (length content) 512 ltac:(lia)) as Hm. lia. }
  rewrite transfer_any_file by (rewrite ?acks_from_length; lia).
  cbn [fst snd]. eexists. split; [reflexivity|]. split.
  - apply payloads_blocks.
  - rewrite length_app, full_blocks_length. cbn [length]. lia.
Qed.

Lemma read_request_end_to_end_witness :
  exists tr,
    server.handleRequest (lit "/srv/tftp-root")
      (fun _ => server.Opened (server.mkFile (repeat "x"%byte 700) None)) true
      (x00 :: x01 :: lit "boot.img" ++ x00 :: lit "octet" ++ [x00])
      (acks_from 1 (S (length (repeat "x"%byte 700) / 512)))
    = (server.Open (resolve (lit "/srv/tftp-root") (strings.Join [lit "boot.img"]))
         :: server.Dial :: tr,
       server.Completed (wrap16 (1 + Z.of_nat (length (repeat "x"%byte 700) / 512) + 1)))
    /\ payloads tr = repeat "x"%byte 700
    /\ length tr = S (length (repeat "x"%byte 700) / 512).
Proof.
  apply (read_request_end_to_end (lit "/srv/tftp-root")
           (fun _ => server.Opened (server.mkFile (repeat "x"%byte 700) None))
           [lit "boot.img"] (lit "octet")
           (x00 :: x01 :: lit "boot.img" ++ x00 :: lit "octet" ++ [x00])
           (repeat "x"%byte 700)); try reflexivity.
  - discriminate.
  - repeat constructor; discriminate.
Defined.

(** * The name of an opcode *)





(** * Every outcome that is not the acknowledgment is answered with the data packet *)

Lemma repeat_shift {A : Type} (a : A) (n : nat) (l : list A) :
  repeat a n ++ a :: l = repeat a (S n) ++ l.
Proof.
  change (a :: l) with ([a] ++ l). now rewrite app_assoc, repeat_snoc.
Qed.

(** Every pass of the send loop starts by writing the data packet, so each
    timeout and each discarded datagram is answered with one more copy.
    When [n] such outcomes, fewer than [MaxRetries] of them timeouts, are
    followed by a pass whose write succeeds, the block has been written
    [n + 1] times by the time that pass reads, whatever it then receives and
    whatever follows; when the write of that pass fails, [n] copies have been
    written and the loop returns. *)
Theorem every_quiet_outcome_resends (block : Z) (dataPacket : bytes)
        (q : list server.io_event) (ev : server.io_event) (rest : list server.io_event) :
  forallb (quiet block) q = true ->
  Z.of_nat (timeouts q) < server.MaxRetries ->
  (ev <> server.WriteFails ->
   exists tr,
     fst (fst (server.sendLoop (q ++ ev :: rest) block dataPacket 0))
     = repeat (server.Write dataPacket) (S (length q)) ++ tr)
  /\ server.sendLoop (q ++ server.WriteFails :: rest) block dataPacket 0
     = (repeat (server.Write dataPacket) (length q), server.LoopReturn server.WriteError, rest).
Proof.
  intros Hq Ht. split.
  - intros Hev. rewrite sendLoop_quiet_run by (assumption || lia).
    destruct (server.sendLoop (ev :: rest) block dataPacket (0 + Z.of_nat (timeouts q)))
      as [[tr ex] rest'] eqn:E.
    destruct (sendLoop_first_write block (0 + Z.of_nat (timeouts q)) dataPacket ev rest
                ltac:(lia) Hev) as [tr' Htr].
    rewrite E in Htr. cbn [fst] in Htr. subst tr.
    rewrite writes_spec. cbn [fst]. exists tr'. apply repeat_shift.
  - rewrite sendLoop_quiet_run by (assumption || lia).
    rewrite sendLoop_WriteFails by lia.
    now rewrite writes_spec, app_nil_r.
Qed.

(** Two timeouts and a stale acknowledgment, and the next pass is waiting:
    four copies of block 7. *)
Lemma every_quiet_outcome_resends_witness :
  (exists tr,
      fst (fst (server.sendLoop
                  ([server.Timeout; server.Timeout; server.Datagram (tftp.PackACK 6)]
                     ++ server.Datagram (tftp.PackACK 7) :: [])
                  7 (tftp.PackDATA 7 (lit "data")) 0))
      = repeat (server.Write (tftp.PackDATA 7 (lit "data"))) 4 ++ tr)
  /\ server.sendLoop
       ([server.Timeout; server.Timeout; server.Datagram (tftp.PackACK 6)]
          ++ server.WriteFails :: [])
       7 (tftp.PackDATA 7 (lit "data")) 0
     = (repeat (server.Write (tftp.PackDATA 7 (lit "data"))) 3,
        server.LoopReturn server.WriteError, []).
Proof.
  destruct (every_quiet_outcome_resends 7 (tftp.PackDATA 7 (lit "data"))
              [server.Timeout; server.Timeout; server.Datagram (tftp.PackACK 6)]
              (server.Datagram (tftp.PackACK 7)) []) as [H1 H2].
  - reflexivity.
  - reflexivity.
  - split; [apply H1; discriminate | exact H2].
Defined.

(** * The termination rule *)

Lemma events_of_cons (q : list server.io_event) (d : bytes) (sched : list block_run)
      (rest : list server.io_event) :
  events_of ((q, d) :: sched) ++ rest
  = q ++ server.Datagram d :: (events_of sched ++ rest).
Proof.
  unfold events_of. cbn [flat_map fst snd]. rewrite <- !app_assoc. reflexivity.
Qed.

Lemma events_of_length (sched : list block_run) :
  (length sched <= length (events_of sched))%nat.
Proof.
  induction sched as [|[q d] sched IH]; [cbn; lia|].
  unfold events_of in *. cbn [flat_map fst snd length].
  rewrite !length_app. cbn [length]. lia.
Qed.

(** A file of [k] full blocks under a schedule of [k + 1] acknowledged
    blocks: what is written is what the schedule serves, and the transfer
    completes. *)
Lemma transfer_scheduled (k : nat) :
  forall (sched : list block_run) (fuel : nat) (block : Z) (content : bytes)
         (rest : list server.io_event),
    length sched = S k ->
    length content = (k * 512)%nat ->
    well_scheduled block sched ->
    (k < fuel)%nat ->
    server.transferLoop fuel (server.mkFile content None) block (events_of sched ++ rest)
    = (served block content sched, server.Completed (wrap16 (block + Z.of_nat k + 1))).
Proof.
  induction k as [|k IH]; intros sched fuel block content rest Hs Hlen Hw Hfuel.
  - destruct sched as [|[q d] [|r sched]]; try discriminate.
    destruct Hw as (Hq & Ht & Hd & _).
    destruct fuel as [|fuel]; [lia|]. destruct content; [|discriminate].
    rewrite events_of_cons.
    rewrite (transferLoop_step _ _ _ _ _ _ (file_Read_healthy [])).
    cbn [firstn].
    rewrite (transferLoop_acked_prefix fuel _ _ _ _ _ _ _ (file_Read_healthy []))
      by assumption.
    rewrite afterLoop_cases.
    replace (Z.of_nat (timeouts q) >=? server.MaxRetries) with false
      by (symmetry; rewrite Z.geb_leb; apply Z.leb_gt; assumption).
    change (len [] <? server.BlockSize) with true. cbv iota.
    cbn [served firstn]. rewrite app_nil_r, repeat_snoc, Z.add_0_r. reflexivity.
  - destruct sched as [|[q d] sched]; [discriminate|].
    cbn [length] in Hs. injection Hs as Hs.
    destruct Hw as (Hq & Ht & Hd & Hw).
    destruct fuel as [|fuel]; [lia|].
    rewrite events_of_cons.
    rewrite (transferLoop_step _ _ _ _ _ _ (file_Read_healthy content)).
    rewrite (transferLoop_acked_prefix fuel _ _ _ _ _ _ _ (file_Read_healthy content))
      by assumption.
    rewrite afterLoop_cases.
    replace (Z.of_nat (timeouts q) >=? server.MaxRetries) with false
      by (symmetry; rewrite Z.geb_leb; apply Z.leb_gt; assumption).
    assert (Hchunk : len (firstn 512 content) = 512).
    { unfold len. rewrite length_firstn. lia. }
    rewrite Hchunk. change (512 <? server.BlockSize) with false. cbv iota.
    rewrite (IH sched fuel (wrap16 (block + 1)) (skipn 512 content) rest);
      [| assumption | rewrite length_skipn; lia | assumption | lia].
    cbn [served]. rewrite repeat_snoc. f_equal. f_equal.
    rewrite <- Z.add_assoc, wrap16_add_l. f_equal. lia.
Qed.

(** How one pass of the transfer loop that leads to completion went. *)
Lemma transferLoop_Completed_inv (fuel : nat) (file file' : server.File) (block : Z)
      (chunk : bytes) (evs : list server.io_event) (tr : list server.action) (final : Z) :
  server.file_Read file = (Some chunk, file') ->
  server.transferLoop (S fuel) file block evs = (tr, server.Completed final) ->
  exists q d evs',
    evs = q ++ server.Datagram d :: evs'
    /\ forallb (quiet block) q = true
    /\ Z.of_nat (timeouts q) < server.MaxRetries
    /\ matching_ack block d = true
    /\ ((len chunk < server.BlockSize
         /\ tr = repeat (server.Write (tftp.PackDATA block chunk)) (S (length q))
         /\ final = wrap16 (block + 1))
        \/ (server.BlockSize <= len chunk
            /\ exists tr',
                tr = repeat (server.Write (tftp.PackDATA block chunk)) (S (length q)) ++ tr'
                /\ server.transferLoop fuel file' (wrap16 (block + 1)) evs'
                   = (tr', server.Completed final))).
Proof.
  intros Hread H.
  rewrite (transferLoop_step _ _ _ _ _ _ Hread) in H.
  destruct (server.sendLoop evs block (tftp.PackDATA block chunk) 0)
    as [[tr1 ex] evs'] eqn:Hloop.
  destruct ex as [retries|why|retries].
  - rewrite afterLoop_cases in H.
    destruct (retries >=? server.MaxRetries) eqn:Hret; [discriminate|].
    rewrite Z.geb_leb in Hret. apply Z.leb_gt in Hret.
    destruct (sendLoop_LoopEnd_inv _ _ _ _ _ _ _ Hloop Hret)
      as (q & d & -> & Hq & Hd & Hr & ->).
    rewrite Z.add_0_l in Hr. subst retries.
    exists q, d, evs'. repeat split; try assumption.
    rewrite repeat_snoc in H.
    destruct (len chunk <? server.BlockSize) eqn:Hn.
    + left. apply Z.ltb_lt in Hn. injection H as <- <-. now repeat split.
    + right. apply Z.ltb_ge in Hn. split; [assumption|].
      destruct (server.transferLoop fuel file' (wrap16 (block + 1)) evs') as [tr' out].
      injection H as <- ->. now exists tr'.
  - injection H as _ ->.
    destruct (sendLoop_LoopReturn_inv _ _ _ _ _ _ _ Hloop); discriminate.
  - discriminate.
Qed.

(** Conversely, a transfer of such a file completes only under such a
    schedule. *)
Lemma completed_is_scheduled (k : nat) :
  forall (fuel : nat) (block : Z) (content : bytes) (evs : list server.io_event)
         (tr : list server.action) (final : Z),
    length content = (k * 512)%nat ->
    server.transferLoop fuel (server.mkFile content None) block evs
    = (tr, server.Completed final) ->
    exists sched rest,
      length sched = S k
      /\ well_scheduled block sched
      /\ evs = events_of sched ++ rest
      /\ tr = served block content sched
      /\ final = wrap16 (block + Z.of_nat k + 1).
Proof.
  induction k as [|k IH]; intros fuel block content evs tr final Hlen H.
  - destruct fuel as [|fuel]; [discriminate|].
    destruct (transferLoop_Completed_inv _ _ _ _ _ _ _ _ (file_Read_healthy content) H)
      as (q & d & evs' & -> & Hq & Ht & Hd & Hcase).
    destruct content; [|discriminate].
    destruct Hcase as [(_ & -> & ->) | (Hbig & _)].
    + exists [(q, d)], evs'. repeat split; try assumption.
      * now rewrite events_of_cons.
      * cbn [served]. now rewrite app_nil_r.
      * now rewrite Z.add_0_r.
    + exfalso. revert Hbig. cbn [firstn]. unfold len, server.BlockSize. cbn [length]. lia.
  - destruct fuel as [|fuel]; [discriminate|].
    destruct (transferLoop_Completed_inv _ _ _ _ _ _ _ _ (file_Read_healthy content) H)
      as (q & d & evs' & -> & Hq & Ht & Hd & Hcase).
    assert (Hchunk : len (firstn 512 content) = 512).
    { unfold len. rewrite length_firstn. lia. }
    destruct Hcase as [(Hsmall & _) | (_ & tr' & -> & Hrec)].
    + exfalso. rewrite Hchunk in Hsmall. unfold server.BlockSize in Hsmall. lia.
    + assert (Hl : length (skipn 512 content) = (k * 512)%nat)
        by (rewrite length_skipn; lia).
      destruct (IH fuel (wrap16 (block + 1)) (skipn 512 content) evs' tr' final Hl Hrec)
        as (sched & rest & Hs & Hw & -> & -> & ->).
      exists ((q, d) :: sched), rest. repeat split; try assumption.
      * cbn [length]. now rewrite Hs.
      * now rewrite events_of_cons.
      * rewrite <- Z.add_assoc, wrap16_add_l. f_equal. lia.
Qed.

Lemma Forall_repeat {A : Type} (P : A -> Prop) (a : A) (n : nat) :
  P a -> Forall P (repeat a n).
Proof. intros H. induction n; cbn [repeat]; now constructor. Qed.

(** Under a schedule that acknowledges [n] full blocks and then one more
    block, the last thing served is the empty block, and all that is served
    before it are full blocks. *)
Lemma served_last (sched0 : list block_run) :
  forall (block : Z) (content : bytes) (q : list server.io_event) (d : bytes),
    0 <= block < 65536 ->
    length content = (length sched0 * 512)%nat ->
    served block content (sched0 ++ [(q, d)])
    = served block content sched0
        ++ repeat (server.Write
                     (tftp.PackDATA (wrap16 (block + Z.of_nat (length sched0))) []))
                  (S (length q))
    /\ Forall (fun a => exists b chunk,
                   a = server.Write (tftp.PackDATA b chunk) /\ length chunk = 512%nat)
              (served block content sched0).
Proof.
  induction sched0 as [|[q0 d0] sched0 IH]; intros block content q d Hb Hlen.
  - destruct content; [|discriminate].
    cbn [app served firstn length]. rewrite Z.add_0_r, wrap16_small by assumption.
    split; [now rewrite app_nil_r | constructor].
  - cbn [length] in Hlen. cbn [app served].
    destruct (IH (wrap16 (block + 1)) (skipn 512 content) q d (wrap16_range _)
                 ltac:(rewrite length_skipn; lia)) as [-> HF].
    split.
    + rewrite <- app_assoc.
      replace (wrap16 (wrap16 (block + 1) + Z.of_nat (length sched0)))
        with (wrap16 (block + Z.of_nat (length ((q0, d0) :: sched0))));
        [reflexivity|].
      rewrite wrap16_add_l. f_equal. cbn [length]. unfold block_run in *. lia.
    + apply Forall_app. split; [|assumption].
      apply Forall_repeat. eexists _, _. split; [reflexivity|].
      rewrite length_firstn. lia.
Qed.

(** C2 (termination rule).  Serving a file of exactly [k] times 512 bytes:
    - to a client that acknowledges every block at once, the transfer writes
      the [k] full blocks numbered from 1, then one more data block with an
      empty payload, and completes;
    - under any schedule in which each of the [k + 1] blocks is acknowledged
      after fewer than [MaxRetries] timeouts, it writes what the schedule
      serves and completes, whatever arrives afterwards;
    - it completes in no other way: a run that completes has taken, block
      after block, a datagram that is the block's acknowledgment;
    - what is served ends with the block numbered [k + 1] with an empty
      payload, after full blocks only.
    For the empty file, a run that completes has written the one block
    numbered 1 with an empty payload, once at first and once more for each
    timeout or discarded datagram before its acknowledgment, and nothing
    else. *)
Theorem termination_rule (k : nat) (content : bytes) :
  length content = (k * 512)%nat ->
  server.transferLoop (S (length (acks_from 1 (S k)))) (server.mkFile content None) 1
                      (acks_from 1 (S k))
  = (full_blocks 1 k content
       ++ [server.Write (tftp.PackDATA (wrap16 (1 + Z.of_nat k)) [])],
     server.Completed (wrap16 (1 + Z.of_nat k + 1)))
  /\ (forall sched rest,
         length sched = S k ->
         well_scheduled 1 sched ->
         server.transferLoop (S (length (events_of sched ++ rest)))
                             (server.mkFile content None) 1 (events_of sched ++ rest)
         = (served 1 content sched, server.Completed (wrap16 (1 + Z.of_nat k + 1))))
  /\ (forall fuel evs tr final,
         server.transferLoop fuel (server.mkFile content None) 1 evs
         = (tr, server.Completed final) ->
         exists sched rest,
           length sched = S k
           /\ well_scheduled 1 sched
           /\ evs = events_of sched ++ rest
           /\ tr = served 1 content sched
           /\ final = wrap16 (1 + Z.of_nat k + 1))
  /\ (forall sched,
         length sched = S k ->
         exists sched0 q d,
           sched = sched0 ++ [(q, d)]
           /\ served 1 content sched
              = served 1 content sched0
                  ++ repeat (server.Write (tftp.PackDATA (wrap16 (1 + Z.of_nat k)) []))
                            (S (length q))
           /\ Forall (fun a => exists b chunk,
                          a = server.Write (tftp.PackDATA b chunk)
                          /\ length chunk = 512%nat)
                     (served 1 content sched0))
  /\ (k = 0%nat ->
      forall fuel evs tr final,
        server.transferLoop fuel (server.mkFile content None) 1 evs
        = (tr, server.Completed final) ->
        exists q d rest,
          evs = q ++ server.Datagram d :: rest
          /\ forallb (quiet 1) q = true
          /\ matching_ack 1 d = true
          /\ tr = repeat (server.Write (tftp.PackDATA 1 [])) (S (length q))).
Proof.
  intros Hlen. split; [|split; [|split; [|split]]].
  - apply transfer_full_blocks; [|lia|assumption].
    rewrite acks_from_length. lia.
  - intros sched rest Hs Hw. apply transfer_scheduled; try assumption.
    rewrite length_app. pose proof (events_of_length sched). lia.
  - intros fuel evs tr final H. now apply (completed_is_scheduled k fuel).
  - intros sched Hs.
    destruct (exists_last (l := sched)) as (sched0 & [q d] & ->);
      [intros ->; discriminate|].
    rewrite length_app in Hs. cbn [length] in Hs.
    assert (Hn : length sched0 = k) by lia.
    subst k.
    destruct (served_last sched0 1 content q d ltac:(lia) Hlen) as [E HF].
    exists sched0, q, d. now repeat split.
  - intros -> fuel evs tr final H.
    destruct (completed_is_scheduled 0 fuel 1 content evs tr final Hlen H)
      as (sched & rest & Hs & Hw & -> & -> & _).
    destruct sched as [|[q d] [|r sched]]; try discriminate.
    destruct Hw as (Hq & _ & Hd & _).
    destruct content; [|discriminate].
    exists q, d, rest. repeat split; try assumption.
    + now rewrite events_of_cons.
    + cbn [served firstn]. apply app_nil_r.
Qed.

(** One full block and the empty block, served through a timeout and a
    repeated acknowledgment of block 1. *)
Lemma termination_rule_witness :
  server.transferLoop
    (S (length (events_of [([server.Timeout], tftp.PackACK 1);
                           ([server.Datagram (tftp.PackACK 1)], tftp.PackACK 2)] ++ [])))
    (server.mkFile (repeat "a"%byte 512) None) 1
    (events_of [([server.Timeout], tftp.PackACK 1);
                ([server.Datagram (tftp.PackACK 1)], tftp.PackACK 2)] ++ [])
  = (served 1 (repeat "a"%byte 512)
            [([server.Timeout], tftp.PackACK 1);
             ([server.Datagram (tftp.PackACK 1)], tftp.PackACK 2)],
     server.Completed (wrap16 (1 + Z.of_nat 1 + 1))).
Proof.
  destruct (termination_rule 1 (repeat "a"%byte 512)) as (_ & H & _).
  - apply repeat_length.
  - apply H; [reflexivity|].
    cbn [well_scheduled]. repeat split; reflexivity.
Defined.
